(** * Sharded state-dict translation: nemo/lightning/pytorch/strategies/utils.py

    A shallow embedding of [mcore_to_pyt_sharded_state_dict] and
    [pyt_to_mcore_state_dict] with their nested helpers, and the properties
    of the conversion between the two sharded-tensor dialects.

    Python integers are [Z]; [//] and [%] are [Z.div] and [Z.modulo] (both
    floor, like Python) guarded against a zero divisor.  Exceptions are the
    constructors of [exn], and code that can raise returns a [result].
    A Python [dict] is an association list in insertion order whose keys are
    pairwise distinct; nested dicts are trees (no sub-dict is shared between
    two keys). *)

From Stdlib Require Import ZArith List String Ascii Bool Arith Lia.
From Stdlib Require Import Permutation.
Import ListNotations.

Set Implicit Arguments.

(** ** Exceptions and the result monad *)

Inductive exn : Type :=
| AssertionError
| AttributeError
| IndexError
| KeyError (k : string)
| TypeError
| ValueError
| ZeroDivisionError
| CheckpointingException.

Inductive result (A : Type) : Type :=
| Ok (a : A)
| Raise (e : exn).

Arguments Ok {A} a.
Arguments Raise {A} e.

Definition bind {A B : Type} (m : result A) (f : A -> result B) : result B :=
  match m with
  | Ok a => f a
  | Raise e => Raise e
  end.

Declare Scope py_scope.
Delimit Scope py_scope with py.
Notation "x <- m ;; k" := (bind m (fun x => k))
  (at level 61, m at next level, right associativity) : py_scope.
Notation "m ;;; k" := (bind m (fun _ => k))
  (at level 61, right associativity) : py_scope.
Open Scope py_scope.

Fixpoint mapM {A B : Type} (f : A -> result B) (l : list A) : result (list B) :=
  match l with
  | [] => Ok []
  | a :: l' => b <- f a ;; bs <- mapM f l' ;; Ok (b :: bs)
  end.

(** ** Python primitives used by the source *)

Module Py.

(** [a // b] *)
Definition floordiv (a b : Z) : result Z :=
  if Z.eqb b 0 then Raise ZeroDivisionError else Ok (Z.div a b).

(** [a % b] *)
Definition mod_ (a b : Z) : result Z :=
  if Z.eqb b 0 then Raise ZeroDivisionError else Ok (Z.modulo a b).

(** [l[i]] for a non-negative index *)
Definition getitem {A : Type} (l : list A) (i : nat) : result A :=
  match nth_error l i with
  | Some a => Ok a
  | None => Raise IndexError
  end.

(** [l[i] = v] for a non-negative index *)
Fixpoint setitem {A : Type} (l : list A) (i : nat) (v : A) : result (list A) :=
  match l, i with
  | [], _ => Raise IndexError
  | _ :: l', O => Ok (v :: l')
  | a :: l', S i' => r <- setitem l' i' v ;; Ok (a :: r)
  end.

(** [assert cond, msg]: the message expression is evaluated only when the
    condition is false, and before [AssertionError] is raised. *)
Definition assert_msg {M : Type} (cond : bool) (msg : result M) : result unit :=
  if cond then Ok tt else (msg ;;; Raise AssertionError).

Definition assert_ (cond : bool) : result unit :=
  if cond then Ok tt else Raise AssertionError.

(** [s.startswith(p)] *)
Definition startswith (s p : string) : bool := String.prefix p s.

(** [s.endswith(p)] *)
Definition endswith (s p : string) : bool :=
  (String.length p <=? String.length s)%nat
  && String.eqb (substring (String.length s - String.length p) (String.length p) s) p.

(** [s.split('.')] *)
Fixpoint split_dot (s : string) : list string :=
  match s with
  | EmptyString => [EmptyString]
  | String c r =>
      if Ascii.eqb c "."%char then EmptyString :: split_dot r
      else match split_dot r with
           | h :: t => String c h :: t
           | [] => [String c EmptyString]
           end
  end.

(** ['.'.join(l)] *)
Fixpoint join_dot (l : list string) : string :=
  match l with
  | [] => EmptyString
  | [a] => a
  | a :: l' => (a ++ "." ++ join_dot l')%string
  end.

(** [l.pop(i)]: the removed element and the remaining list *)
Fixpoint pop {A : Type} (l : list A) (i : nat) : result (A * list A) :=
  match l, i with
  | [], _ => Raise IndexError
  | a :: l', O => Ok (a, l')
  | a :: l', S i' => r <- pop l' i' ;; Ok (fst r, a :: snd r)
  end.

(** Whitespace that [int] strips (the ASCII part of Python's table). *)
Definition isspace (c : ascii) : bool :=
  let n := nat_of_ascii c in
  ((9 <=? n) && (n <=? 13) || (28 <=? n) && (n <=? 32))%nat.

Definition digit (c : ascii) : option Z :=
  let n := nat_of_ascii c in
  if ((48 <=? n) && (n <=? 57))%nat then Some (Z.of_nat (n - 48)) else None.

Fixpoint lstrip (s : string) : string :=
  match s with
  | String c r => if isspace c then lstrip r else s
  | EmptyString => s
  end.

Fixpoint rstrip (s : string) : string :=
  match s with
  | EmptyString => EmptyString
  | String c r =>
      match rstrip r with
      | EmptyString => if isspace c then EmptyString else String c EmptyString
      | r' => String c r'
      end
  end.

(** Digits with single underscores allowed between digits; [acc] is the
    value read so far and [prev] tells whether the previous character was
    a digit. *)
Fixpoint digits (s : string) (acc : Z) (prev : bool) : option Z :=
  match s with
  | EmptyString => if prev then Some acc else None
  | String c r =>
      match digit c with
      | Some d => digits r (10 * acc + d) true
      | None =>
          if Ascii.eqb c "_"%char && prev
          then match r with
               | EmptyString => None
               | String c' _ => match digit c' with
                                | Some _ => digits r acc false
                                | None => None
                                end
               end
          else None
      end
  end.

(** [int(s)] in base ten: surrounding whitespace, an optional sign, then
    digits.  Non-ASCII digits and spaces are not recognised. *)
Definition int (s : string) : result Z :=
  let body := rstrip (lstrip s) in
  let parsed :=
    match body with
    | String "-" r => option_map Z.opp (digits r 0 false)
    | String "+" r => digits r 0 false
    | _ => digits body 0 false
    end in
  match parsed with
  | Some z => Ok z
  | None => Raise ValueError
  end.

End Py.

(** ** Data model *)

(** A [torch.Tensor] as far as the translation looks at it: an opaque buffer
    (its identity), its shape and its element type. *)
Record Tensor : Type := mkTensor {
  buffer : nat;
  shape : list Z;
  ten_dtype : nat
}.

(** Dialect B: [torch.distributed._shard]'s [ShardMetadata], [Shard] and
    [ShardedTensor] (imported as [TorchShardedTensor]). *)
Record ShardMetadata : Type := mkShardMetadata {
  shard_offsets : list Z;
  shard_sizes : list Z;
  placement : string
}.

Record Shard : Type := mkShard {
  tensor : Tensor;
  metadata : ShardMetadata
}.

(** The attributes of a [Shard] object ([__slots__] of the dataclass). *)
Definition Shard_slots : list string := ["tensor"; "metadata"]%string.

Record TorchShardedTensor : Type := mkTorchShardedTensor {
  size : list Z;                 (* [sh_ten.metadata().size] *)
  local_shards : list Shard      (* [sh_ten.local_shards()] *)
}.

(** Dialect A: [megatron.core.dist_checkpointing.mapping]. *)
Inductive ReplicaId : Type :=
| ReplicaInt (r : Z)
| ReplicaTuple (r : list Z).

Record ShardedTensor : Type := mkShardedTensor {
  key : string;
  data : option Tensor;
  dtype : nat;
  local_shape : list Z;
  global_shape : list Z;
  global_offset : list Z;
  axis_fragmentations : list Z;
  replica_id : ReplicaId;
  prepend_axis_num : nat;
  allow_shape_mismatch : bool
}.

Record BytesIO : Type := mkBytesIO { blob : list nat }.

Record ShardedObject : Type := mkShardedObject {
  obj_key : string;
  obj_data : BytesIO;
  obj_global_shape : list Z;
  obj_global_offset : list Z;
  obj_replica_id : ReplicaId
}.

(** A rank offset [(axis, axis_rank_offset, axis_fragm)]. *)
Definition RankOffset : Type := (Z * Z * Z)%type.

(** ** Dictionaries *)

Section Dict.
Variable V : Type.

Definition dict : Type := list (string * V).

(** [d.get(k)] *)
Fixpoint dict_get (d : dict) (k : string) : option V :=
  match d with
  | [] => None
  | (k', v) :: d' => if String.eqb k k' then Some v else dict_get d' k
  end.

(** [k in d] *)
Definition dict_in (d : dict) (k : string) : bool :=
  match dict_get d k with Some _ => true | None => false end.

(** [d[k]] *)
Definition dict_getitem (d : dict) (k : string) : result V :=
  match dict_get d k with
  | Some v => Ok v
  | None => Raise (KeyError k)
  end.

(** [d[k] = v]: an existing key keeps its position, a new one goes last. *)
Fixpoint dict_setitem (d : dict) (k : string) (v : V) : dict :=
  match d with
  | [] => [(k, v)]
  | (k', v') :: d' =>
      if String.eqb k k' then (k', v) :: d' else (k', v') :: dict_setitem d' k v
  end.

Definition dict_keys (d : dict) : list string := List.map fst d.

End Dict.

Arguments dict_get {V} d k.
Arguments dict_in {V} d k.
Arguments dict_getitem {V} d k.
Arguments dict_setitem {V} d k v.
Arguments dict_keys {V} d.

(** ** The megatron.core functions the source calls *)

Module Mcore.

(** [ShardedTensor.validate_metadata_integrity] of megatron.core, a
    library function that is not under src/, modelled on the library: the
    buffer's element type and shape are compared with the descriptor's,
    the shape and offset sequences have one length, which is that of the
    local shape plus the prepended axes, and after the prepended axes
    every offset is a multiple of the local extent, [off % sh] taken as
    Python takes it, a zero extent raising [ZeroDivisionError].  Section 3
    of the spec words the check as an agreement of shape, offset and
    fragmentation; the library function reads neither the fragmentation
    nor the global extents.  A failed check is the spec's
    ShapeMismatchError, [CheckpointingException] in the library. *)
Fixpoint offsets_divisible (offs shp : list Z) : result bool :=
  match offs, shp with
  | off :: offs', sh :: shp' =>
      r <- Py.mod_ off sh ;;
      if Z.eqb r 0 then offsets_divisible offs' shp' else Ok false
  | _, _ => Ok true
  end.

Definition list_Z_eqb (a b : list Z) : bool :=
  if list_eq_dec Z.eq_dec a b then true else false.

Definition data_matches (sh : ShardedTensor) : bool :=
  match data sh with
  | None => true
  | Some ten =>
      Nat.eqb (ten_dtype ten) (dtype sh) && list_Z_eqb (shape ten) (local_shape sh)
  end.

Definition validate_metadata_integrity (sh : ShardedTensor) : result unit :=
  if negb (data_matches sh) then Raise CheckpointingException
  else if negb (Nat.eqb (List.length (global_shape sh)) (List.length (global_offset sh)))
  then Raise CheckpointingException
  else if negb (Nat.eqb (List.length (local_shape sh) + prepend_axis_num sh)
                        (List.length (global_shape sh)))
  then Raise CheckpointingException
  else
    ok <- offsets_divisible (skipn (prepend_axis_num sh) (global_offset sh))
                            (local_shape sh) ;;
    if ok then Ok tt else Raise CheckpointingException.

(** Modelled from the spec: [ShardedTensor.from_rank_offsets] of
    megatron.core is not under src/.  Sections 3 and 8 of the spec: on
    every axis named by a rank offset, global extent = fragmentation *
    local extent and global offset = rank offset * local extent; the
    other axes are unsharded.  As in the library, a prepended axis has
    local extent 1, the components of a rank offset are asserted
    non-negative with the rank offset below the fragmentation, an axis
    named twice raises [CheckpointingException], and the new descriptor is
    validated as above. *)
Definition local_axis_shape (data_shape : list Z) (prepend : nat) (axis : nat)
  : result Z :=
  if (axis <? prepend)%nat then Ok 1%Z else Py.getitem data_shape (axis - prepend).

Fixpoint place_axes (rank_offsets : list RankOffset) (data_shape : list Z)
    (prepend : nat) (seen : list Z) (gs go af : list Z)
  : result (list Z * list Z * list Z) :=
  match rank_offsets with
  | [] => Ok (gs, go, af)
  | (axis, axis_rank_offset, axis_fragm) :: rest =>
      Py.assert_ ((0 <=? axis)%Z && (0 <=? axis_rank_offset)%Z && (0 <=? axis_fragm)%Z) ;;;
      Py.assert_ (axis_rank_offset <? axis_fragm)%Z ;;;
      if existsb (Z.eqb axis) seen then Raise CheckpointingException
      else
        let a := Z.to_nat axis in
        las <- local_axis_shape data_shape prepend a ;;
        gs' <- Py.setitem gs a (axis_fragm * las)%Z ;;
        go' <- Py.setitem go a (axis_rank_offset * las)%Z ;;
        af' <- Py.setitem af a axis_fragm ;;
        place_axes rest data_shape prepend (axis :: seen) gs' go' af'
  end.

Definition from_rank_offsets (key : string) (data : Tensor)
    (rank_offsets : list RankOffset) (replica_id : ReplicaId)
    (prepend_axis_num : nat) (allow_shape_mismatch : bool)
  : result ShardedTensor :=
  let ndim := List.length (shape data) in
  r <- place_axes rank_offsets (shape data) prepend_axis_num []
         (repeat 1%Z prepend_axis_num ++ shape data)
         (repeat 0%Z (ndim + prepend_axis_num))
         (repeat 1%Z (ndim + prepend_axis_num)) ;;
  let '(gs, go, af) := r in
  let sh := mkShardedTensor key (Some data) (ten_dtype data) (shape data)
              gs go af replica_id prepend_axis_num allow_shape_mismatch in
  validate_metadata_integrity sh ;;;
  Ok sh.

(** Modelled from the spec: [sharded_tensor_to_torch_sharded_tensor] of
    megatron.core is not under src/.  Section 4.1 of the spec: the output
    is one Dialect-B tensor aggregating all descriptors of the key; its
    total size is the descriptors' global shape, and each descriptor
    gives one local shard at its global offset with its buffer's extent.
    [my_placement] is the calling rank's placement. *)
Definition view_with_prepend (sh : ShardedTensor) (ten : Tensor) : Tensor :=
  mkTensor (buffer ten) (repeat 1%Z (prepend_axis_num sh) ++ local_shape sh)
           (ten_dtype ten).

Definition to_local_shard (my_placement : string) (sh : ShardedTensor)
  : result Shard :=
  match data sh with
  | None => Raise AttributeError
  | Some ten =>
      let ten' := view_with_prepend sh ten in
      Ok (mkShard ten' (mkShardMetadata (global_offset sh) (shape ten') my_placement))
  end.

Definition sharded_tensor_to_torch_sharded_tensor (my_placement : string)
    (sh_tens : list ShardedTensor) : result TorchShardedTensor :=
  some_sh_ten <- Py.getitem sh_tens 0 ;;
  shards <- mapM (to_local_shard my_placement) sh_tens ;;
  Ok (mkTorchShardedTensor (global_shape some_sh_ten) shards).

(** Modelled from the spec: [_get_extra_state_offsets] of megatron.core
    is not under src/.  Section 3 of the spec: an opaque object carries an
    offset tuple for the prepended-axis stacking scheme; without sharded
    offsets it is a single object of shape (1,) at offset (0,). *)
Fixpoint insert_by_axis (x : RankOffset) (l : list RankOffset) : list RankOffset :=
  match l with
  | [] => [x]
  | y :: l' => if (fst (fst y) <? fst (fst x))%Z || (fst (fst y) =? fst (fst x))%Z
               then y :: insert_by_axis x l' else x :: l
  end.

Definition sort_by_axis (l : list RankOffset) : list RankOffset :=
  fold_right (fun x acc => insert_by_axis x acc) [] (rev l).

Definition _get_extra_state_offsets (sharded_offsets : list RankOffset)
  : result (list Z * list Z) :=
  match sharded_offsets with
  | [] => Ok ([1%Z], [0%Z])
  | _ =>
      let sorted := sort_by_axis sharded_offsets in
      Py.assert_ (list_Z_eqb (List.map (fun x => fst (fst x)) sorted)
                             (List.map Z.of_nat (seq 0 (List.length sorted)))) ;;;
      Ok (List.map snd sorted, List.map (fun x => snd (fst x)) sorted)
  end.

(** [ShardedObject(key, data, global_shape, global_offset, replica_id)] *)
Definition new_ShardedObject (key : string) (data : BytesIO)
    (global_shape global_offset : list Z) (replica_id : ReplicaId)
  : result ShardedObject :=
  if Nat.eqb (List.length global_shape) (List.length global_offset)
  then Ok (mkShardedObject key data global_shape global_offset replica_id)
  else Raise CheckpointingException.

End Mcore.

(** ** State dicts *)

#[local] Unset Elimination Schemes.

(** The loaded checkpoint of [mcore_to_pyt_sharded_state_dict]
    ([Dict[str, List[torch.Tensor]]], nested): lists of loaded buffers,
    loaded byte blobs, and the Dialect-B tensors the function stores. *)
Inductive ckpt_value : Type :=
| CDict (d : list (string * ckpt_value))
| CTensors (tens : list Tensor)
| CBytes (b : BytesIO)
| CTorch (t : TorchShardedTensor).

(** The template [sharded_state_dict]
    ([Dict[str, Union[List[ShardedTensor], ShardedObject]]], nested). *)
Inductive tmpl_value : Type :=
| TDict (d : list (string * tmpl_value))
| TObject (o : ShardedObject)
| TTensors (sh_tens : list ShardedTensor).

(** The state dict of [pyt_to_mcore_state_dict] ([Dict[str, Any]]): the
    three kinds of value [_convert] dispatches on, the two kinds it stores,
    and any other leaf, which it leaves alone. *)
Inductive value : Type :=
| VDict (d : list (string * value))
| VTorch (t : TorchShardedTensor)
| VBytes (b : BytesIO)
| VShardedTensors (l : list ShardedTensor)
| VShardedObject (o : ShardedObject)
| VOther (t : Tensor).

#[local] Set Elimination Schemes.

Section Translation.

(** The process-group registry: this rank's placement and
    [parallel_state.get_data_parallel_rank(with_context_parallel=True)]. *)
Variable my_placement : string.
Variable data_parallel_rank : Z.

(** *** mcore_to_pyt_sharded_state_dict *)

(** The four assignments of the loop body of
    [_mcore_to_pyt_sharded_tensor]. *)
Definition rebind (ten : Tensor) (sh_ten : ShardedTensor) : ShardedTensor :=
  mkShardedTensor
    (key sh_ten)
    (Some ten)
    (dtype sh_ten)
    (local_shape sh_ten)
    (skipn (prepend_axis_num sh_ten) (global_shape sh_ten))
    (skipn (prepend_axis_num sh_ten) (global_offset sh_ten))
    (skipn (prepend_axis_num sh_ten) (axis_fragmentations sh_ten))
    (replica_id sh_ten)
    0
    (allow_shape_mismatch sh_ten).

(** [for ten, sh_ten in zip(tens, sh_tens)]: the descriptors as the loop
    leaves them (they are updated in place), and how it ended. *)
Fixpoint zip_loop (tens : list Tensor) (sh_tens : list ShardedTensor)
  : list ShardedTensor * result unit :=
  match tens, sh_tens with
  | ten :: tens', sh_ten :: sh_tens' =>
      let sh_ten' := rebind ten sh_ten in
      match Mcore.validate_metadata_integrity sh_ten' with
      | Ok _ => let r := zip_loop tens' sh_tens' in (sh_ten' :: fst r, snd r)
      | Raise e => (sh_ten' :: sh_tens', Raise e)
      end
  | _, _ => (sh_tens, Ok tt)
  end.

Definition _mcore_to_pyt_sharded_tensor (tens : list Tensor)
    (sh_tens : list ShardedTensor)
  : list ShardedTensor * result TorchShardedTensor :=
  let r := zip_loop tens sh_tens in
  (fst r, snd r ;;; Mcore.sharded_tensor_to_torch_sharded_tensor my_placement (fst r)).

(** [checkpoint[k]] and [checkpoint[k] = v]; subscripting a loaded value
    that is not a mapping by a string is a [TypeError]. *)
Definition subscript (checkpoint : ckpt_value) (k : string) : result ckpt_value :=
  match checkpoint with
  | CDict d => dict_getitem d k
  | _ => Raise TypeError
  end.

Definition store (checkpoint : ckpt_value) (k : string) (v : ckpt_value)
  : result ckpt_value :=
  match checkpoint with
  | CDict d => Ok (CDict (dict_setitem d k v))
  | _ => Raise TypeError
  end.

(** The buffers at a tensor key.  The declared type of the checkpoint,
    [Dict[str, List[torch.Tensor]]], has a list of tensors there; a value
    of another kind is outside that type, and the model stops with
    [TypeError] instead of iterating over it. *)
Definition as_tensors (v : ckpt_value) : result (list Tensor) :=
  match v with
  | CTensors tens => Ok tens
  | _ => Raise TypeError
  end.

(** The body of [_convert] below its assertion, by the kind of
    [sharded_state_dict[k]].  In the mapping case the recursive call gets
    [checkpoint[k]], which it updates in place. *)
Fixpoint convert_at (tv : tmpl_value) (checkpoint : ckpt_value) (k : string)
  {struct tv} : result ckpt_value :=
  match tv with
  | TDict items =>
      (fix each (items : list (string * tmpl_value)) (checkpoint : ckpt_value)
         {struct items} : result ckpt_value :=
         match items with
         | [] => Ok checkpoint
         | (kk, tvv) :: rest =>
             sub <- subscript checkpoint k ;;
             sub' <- convert_at tvv sub kk ;;
             checkpoint' <- store checkpoint k sub' ;;
             each rest checkpoint'
         end) items checkpoint
  | TObject _ => Ok checkpoint
  | TTensors sh_tens =>
      v <- subscript checkpoint k ;;
      tens <- as_tensors v ;;
      r <- snd (_mcore_to_pyt_sharded_tensor tens sh_tens) ;;
      store checkpoint k (CTorch r)
  end.

Definition _convert (checkpoint : ckpt_value)
    (sharded_state_dict : list (string * tmpl_value)) (k : string)
  : result ckpt_value :=
  match dict_get sharded_state_dict k with
  | None => Raise AssertionError
  | Some tv => convert_at tv checkpoint k
  end.

Fixpoint for_keys (keys : list string) (checkpoint : ckpt_value)
    (sharded_state_dict : list (string * tmpl_value)) : result ckpt_value :=
  match keys with
  | [] => Ok checkpoint
  | k :: rest =>
      checkpoint' <- _convert checkpoint sharded_state_dict k ;;
      for_keys rest checkpoint' sharded_state_dict
  end.

Definition mcore_to_pyt_sharded_state_dict
    (checkpoint : list (string * ckpt_value))
    (sharded_state_dict : list (string * tmpl_value)) : result ckpt_value :=
  for_keys (dict_keys checkpoint) (CDict checkpoint) sharded_state_dict.

(** *** pyt_to_mcore_state_dict *)

(** [all([ls.metadata.placement == local_shards[0].metadata.placement
          for ls in local_shards])] *)
Definition placements_agree (local_shards : list Shard) : bool :=
  forallb (fun ls =>
             match local_shards with
             | ls0 :: _ => String.eqb (placement (metadata ls)) (placement (metadata ls0))
             | [] => false
             end) local_shards.

(** The assertion's message, [[ls.meta.placement for ls in local_shards]]:
    the attribute [meta] is looked up on every [Shard]. *)
Definition Shard_getattr_placement (attr : string) (ls : Shard) : result string :=
  if existsb (String.eqb attr) Shard_slots
  then Ok (placement (metadata ls))
  else Raise AttributeError.

Definition placement_message (local_shards : list Shard) : result (list string) :=
  mapM (Shard_getattr_placement "meta") local_shards.

(** [axis_fragm] *)
Definition axis_fragm_of (global_shape : list Z) (local_shards : list Shard)
  : result (list Z) :=
  mapM (fun i =>
          g <- Py.getitem global_shape i ;;
          ls0 <- Py.getitem local_shards 0 ;;
          s <- Py.getitem (shard_sizes (metadata ls0)) i ;;
          Py.floordiv g s)
       (seq 0 (List.length global_shape)).

(** The inner loop over [j]: the triples appended for one local shard. *)
Definition shard_rank_offsets (meta : ShardMetadata) (axis_fragm : list Z)
    (prepend_axis_num : nat) : result (list RankOffset) :=
  mapM (fun j =>
          o <- Py.getitem (shard_offsets meta) j ;;
          s <- Py.getitem (shard_sizes meta) j ;;
          axis_rank_offset <- Py.floordiv o s ;;
          f <- Py.getitem axis_fragm j ;;
          Ok (Z.of_nat (j + prepend_axis_num), axis_rank_offset, f))
       (seq 0 (List.length axis_fragm)).

(** The outer loop over [i]; [rank_offsets] is the list as the previous
    iterations left it (it is created once, before the loop). *)
Fixpoint shards_loop (key prefix : string) (prepend_offsets : list RankOffset)
    (allow_shape_mismatch : bool) (axis_fragm : list Z)
    (local_shards : list Shard) (rank_offsets : list RankOffset)
  : result (list ShardedTensor) :=
  match local_shards with
  | [] => Ok []
  | local_shard :: rest =>
      new <- shard_rank_offsets (metadata local_shard) axis_fragm
               (List.length prepend_offsets) ;;
      let rank_offsets := rank_offsets ++ new in
      d <- Mcore.from_rank_offsets (prefix ++ key) (tensor local_shard)
             (prepend_offsets ++ rank_offsets) (ReplicaInt 0)
             (List.length prepend_offsets) allow_shape_mismatch ;;
      ds <- shards_loop key prefix prepend_offsets allow_shape_mismatch
              axis_fragm rest rank_offsets ;;
      Ok (d :: ds)
  end.

(** The descriptors [_torch_to_mcore_sharded_tensor] returns.  The source
    writes them over the entries of [sh_ten.local_shards()] and returns
    that list; here they are returned as a list of their own, which is the
    same for a tensor object that is converted once. *)
Definition _torch_to_mcore_sharded_tensor (key : string) (sh_ten : TorchShardedTensor)
    (prepend_offsets : list RankOffset) (prefix : string)
    (allow_shape_mismatch : bool) : result (list ShardedTensor) :=
  let local_shards := local_shards sh_ten in
  Py.assert_msg (placements_agree local_shards) (placement_message local_shards) ;;;
  let global_shape := size sh_ten in
  axis_fragm <- axis_fragm_of global_shape local_shards ;;
  shards_loop key prefix prepend_offsets allow_shape_mismatch axis_fragm
    local_shards [].

Definition _torch_to_mcore_sharded_object (key : string) (obj : BytesIO)
    (sharded_offsets : list RankOffset) (prefix : string) : result ShardedObject :=
  let replica_id := ReplicaTuple [0; 0; data_parallel_rank]%Z in
  offs <- Mcore._get_extra_state_offsets sharded_offsets ;;
  Mcore.new_ShardedObject (prefix ++ key) obj (fst offs) (snd offs) replica_id.

(** [_convert(state_dict, k, sh_key, v, prepend_offsets, prefix,
    allow_shape_mismatch)]; a mapping [v] is updated in place, so its new
    contents are what [state_dict[k]] holds afterwards. *)
Fixpoint convert_save (v : value) (state_dict : list (string * value))
    (k sh_key : string) (prepend_offsets : list RankOffset) (prefix : string)
    (allow_shape_mismatch : bool) {struct v} : result (list (string * value)) :=
  match v with
  | VDict items =>
      v' <- (fix each (items : list (string * value)) (cur : list (string * value))
               {struct items} : result (list (string * value)) :=
               match items with
               | [] => Ok cur
               | (kk, vv) :: rest =>
                   cur' <- convert_save vv cur kk sh_key prepend_offsets
                             (prefix ++ kk ++ ".") allow_shape_mismatch ;;
                   each rest cur'
               end) items items ;;
      Ok (dict_setitem state_dict k (VDict v'))
  | VTorch t =>
      l <- _torch_to_mcore_sharded_tensor sh_key t prepend_offsets prefix
             allow_shape_mismatch ;;
      Ok (dict_setitem state_dict k (VShardedTensors l))
  | VBytes b =>
      o <- _torch_to_mcore_sharded_object sh_key b prepend_offsets prefix ;;
      Ok (dict_setitem state_dict k (VShardedObject o))
  | _ => Ok state_dict
  end.

Definition layer_prefix : string := "module.decoder.layers.".
Definition vocab_suffix : string := ".word_embeddings.weight".

(** The first loop: the layer count. *)
Fixpoint count_layers (keys : list string) (num_layers : Z) : result Z :=
  match keys with
  | [] => Ok num_layers
  | k :: rest =>
      if Py.startswith k layer_prefix
      then
        c <- Py.getitem (Py.split_dot k) 3 ;;
        n <- Py.int c ;;
        count_layers rest (Z.max num_layers (n + 1))
      else count_layers rest num_layers
  end.

(** What the second loop computes from one key: [sh_key],
    [prepend_offsets] and [allow_shape_mismatch]. *)
Definition key_args (k : string) (num_layers : Z)
  : result (string * list RankOffset * bool) :=
  let allow_shape_mismatch := Py.endswith k vocab_suffix in
  if Py.startswith k layer_prefix
  then
    r <- Py.pop (Py.split_dot k) 3 ;;
    global_layer_offset <- Py.int (fst r) ;;
    Ok (Py.join_dot (snd r), [(0%Z, global_layer_offset, num_layers)],
        allow_shape_mismatch)
  else Ok (k, [], allow_shape_mismatch).

Fixpoint for_items (items : list (string * value)) (state_dict : list (string * value))
    (num_layers : Z) (prefix : string) : result (list (string * value)) :=
  match items with
  | [] => Ok state_dict
  | (k, v) :: rest =>
      a <- key_args k num_layers ;;
      let '(sh_key, prepend_offsets, allow_shape_mismatch) := a in
      state_dict' <- convert_save v state_dict k sh_key prepend_offsets prefix
                       allow_shape_mismatch ;;
      for_items rest state_dict' num_layers prefix
  end.

Definition pyt_to_mcore_state_dict (state_dict : list (string * value))
    (prefix : string) : result (list (string * value)) :=
  num_layers <- count_layers (dict_keys state_dict) 0 ;;
  Py.assert_ (negb (Z.eqb num_layers 0)) ;;;
  for_items state_dict state_dict num_layers prefix.

End Translation.

(** * Vocabulary of the statements *)

Local Open Scope Z_scope.

(** What [validate_metadata_integrity] accepts. *)
Definition consistent (sh : ShardedTensor) : Prop :=
  Mcore.data_matches sh = true /\
  List.length (global_shape sh) = List.length (global_offset sh) /\
  (List.length (local_shape sh) + prepend_axis_num sh)%nat = List.length (global_shape sh) /\
  Forall (fun p => snd p <> 0 /\ fst p mod snd p = 0)
         (combine (skipn (prepend_axis_num sh) (global_offset sh)) (local_shape sh)).

(** The axis a rank offset names. *)
Definition ro_axis (x : RankOffset) : Z := fst (fst x).

(** [allow_shape_mismatch] is only recorded on the descriptor. *)
Definition with_allow (b : bool) (d : ShardedTensor) : ShardedTensor :=
  mkShardedTensor (key d) (data d) (dtype d) (local_shape d) (global_shape d)
    (global_offset d) (axis_fragmentations d) (replica_id d) (prepend_axis_num d) b.


(** ** Sample inputs *)


(** One rank's shard of a length-10 axis cut into chunks of 3. *)
Definition uneven_tensor : TorchShardedTensor :=
  mkTorchShardedTensor [10]
    [mkShard (mkTensor 1 [3] 0) (mkShardMetadata [0] [3] "rank:0/cuda")].

(** The second of three row blocks of a 12 x 4 matrix. *)
Definition even_tensor : TorchShardedTensor :=
  mkTorchShardedTensor [12; 4]
    [mkShard (mkTensor 1 [4; 4] 0) (mkShardMetadata [4; 0] [4; 4] "rank:1/cuda")].

(** Two local shards of one rank that sit on different devices. *)
Definition mixed_placement_tensor : TorchShardedTensor :=
  mkTorchShardedTensor [4]
    [mkShard (mkTensor 1 [2] 0) (mkShardMetadata [0] [2] "rank:0/cuda:0");
     mkShard (mkTensor 2 [2] 0) (mkShardMetadata [2] [2] "rank:0/cuda:1")].

(** ** Round trip *)

(** The offsets and extents of a local shard record. *)
Definition shard_geometry (ls : Shard) : list Z * list Z :=
  (shard_offsets (metadata ls), shard_sizes (metadata ls)).

(** A Dialect-B tensor cut evenly: every local shard record has one offset
    and one extent per axis of the declared size, its buffer has the shape
    the record declares, and on every axis the extent divides the declared
    global extent and the shard's offset. *)
Definition evenly_sharded (t : TorchShardedTensor) : Prop :=
  Forall (fun ls =>
            List.length (shard_offsets (metadata ls)) = List.length (size t) /\
            List.length (shard_sizes (metadata ls)) = List.length (size t) /\
            shape (tensor ls) = shard_sizes (metadata ls) /\
            forall j g o s,
              nth_error (size t) j = Some g ->
              nth_error (shard_offsets (metadata ls)) j = Some o ->
              nth_error (shard_sizes (metadata ls)) j = Some s ->
              g mod s = 0 /\ o mod s = 0)
         (local_shards t).

(** A descriptor of a (3,)-shaped buffer, first of three chunks. *)
Definition chunk_descriptor : ShardedTensor :=
  mkShardedTensor "w" (Some (mkTensor 1 [3] 0)) 0 [3] [9] [0] [3] (ReplicaInt 0) 0 false.

(** ** Layer keys *)

(** The layer index a key carries: [int(k.split('.')[3])]. *)
Definition layer_index (k : string) : result Z :=
  c <- Py.getitem (Py.split_dot k) 3 ;; Py.int c.

(** A key of the layer stack. *)
Definition is_layer_key (k : string) : bool := Py.startswith k layer_prefix.

(** ** Leaves of a state dict *)

(** [leaves P Q v]: every Dialect-A tensor descriptor held in [v], at any
    depth, satisfies [P] and every opaque object shard satisfies [Q]. *)
Fixpoint leaves (P : ShardedTensor -> Prop) (Q : ShardedObject -> Prop) (v : value)
  {struct v} : Prop :=
  match v with
  | VDict d =>
      (fix all (d : list (string * value)) : Prop :=
         match d with
         | [] => True
         | (_, vv) :: rest => leaves P Q vv /\ all rest
         end) d
  | VShardedTensors l => Forall P l
  | VShardedObject o => Q o
  | _ => True
  end.

(** The same for the values of a dict, the property depending on the key
    the value sits under. *)
Definition dict_leaves (P : string -> ShardedTensor -> Prop)
    (Q : string -> ShardedObject -> Prop) (d : list (string * value)) : Prop :=
  Forall (fun kv => leaves (P (fst kv)) (Q (fst kv)) (snd kv)) d.

(** A state dict as the model's parameter collection hands it over: it
    holds no Dialect-A descriptor and no opaque object shard yet. *)
Definition fresh (d : list (string * value)) : Prop :=
  dict_leaves (fun _ _ => False) (fun _ _ => False) d.

(** What [pyt_to_mcore_state_dict] puts on the leaves it builds. *)
Definition tensor_made (prepend_axes : nat) (allow : bool) (d : ShardedTensor) : Prop :=
  replica_id d = ReplicaInt 0 /\
  prepend_axis_num d = prepend_axes /\
  allow_shape_mismatch d = allow.

Definition object_made (data_parallel_rank : Z) (o : ShardedObject) : Prop :=
  obj_replica_id o = ReplicaTuple [0; 0; data_parallel_rank].

(** The recursion of [_convert] over the items of a mapping. *)
Definition convert_items (data_parallel_rank : Z) (sh_key : string)
    (prepend_offsets : list RankOffset) (allow_shape_mismatch : bool) (prefix : string)
  : list (string * value) -> list (string * value) -> result (list (string * value)) :=
  fix each (items cur : list (string * value)) {struct items}
    : result (list (string * value)) :=
    match items with
    | [] => Ok cur
    | (kk, vv) :: rest =>
        cur' <- convert_save data_parallel_rank vv cur kk sh_key prepend_offsets
                  (prefix ++ kk ++ ".") allow_shape_mismatch ;;
        each rest cur'
    end.


(** A state dict with two layer keys, a top-level vocabulary table, and
    tensors nested under the keys "model" and "weight". *)
Definition save_sample : list (string * value) :=
  [("module.decoder.layers.0.w", VTorch even_tensor);
   ("module.decoder.layers.3.extra", VBytes (mkBytesIO [7%nat]));
   ("embedding.word_embeddings.weight", VTorch uneven_tensor);
   ("model", VDict [("embedding.word_embeddings.weight", VTorch uneven_tensor)]);
   ("weight", VDict [("embedding.word_embeddings", VTorch uneven_tensor)])]%string.


(** ** What the load walk requires of the checkpoint *)

(** [required tv checkpoint k]: what converting the key [k], whose template
    value is [tv], needs to find in [checkpoint]: for a descriptor list the
    key itself; for a non-empty sub-mapping the key, holding a mapping that
    has what the sub-mapping's entries require; nothing for an opaque-object
    placeholder or an empty sub-mapping. *)
Fixpoint required (tv : tmpl_value) (checkpoint : ckpt_value) (k : string)
  {struct tv} : Prop :=
  match tv with
  | TDict items =>
      items = [] \/
      exists sub,
        subscript checkpoint k = Ok sub /\
        (fix all (items : list (string * tmpl_value)) : Prop :=
           match items with
           | [] => True
           | (kk, tvv) :: rest => required tvv sub kk /\ all rest
           end) items
  | TObject _ => True
  | TTensors _ => exists v, subscript checkpoint k = Ok v
  end.

(** Two loaded values with the same mappings and keys at every depth. *)
Fixpoint same_shape (a b : ckpt_value) {struct a} : Prop :=
  match a, b with
  | CDict d, CDict d' =>
      (fix go (d d' : list (string * ckpt_value)) : Prop :=
         match d, d' with
         | [], [] => True
         | (k, v) :: r, (k', v') :: r' => k = k' /\ same_shape v v' /\ go r r'
         | _, _ => False
         end) d d'
  | CDict _, _ => False
  | _, CDict _ => False
  | _, _ => True
  end.

(** A template with a descriptor list nested under "decoder", and a
    checkpoint that lacks it. *)
Definition nested_template : list (string * tmpl_value) :=
  [("decoder", TDict [("bias", TObject (mkShardedObject "b" (mkBytesIO []) [1] [0]
                                          (ReplicaTuple [0; 0; 0])));
                      ("weight", TTensors [chunk_descriptor])])]%string.

Definition checkpoint_without_leaf : list (string * ckpt_value) :=
  [("decoder", CDict [("bias", CBytes (mkBytesIO []))])]%string.

Definition checkpoint_with_leaf : list (string * ckpt_value) :=
  [("decoder", CDict [("bias", CBytes (mkBytesIO []));
                      ("weight", CTensors [mkTensor 7 [3] 0])])]%string.

(** The loop of [_convert] over the keys of a template sub-mapping. *)
Definition convert_each (my_placement : string) (k : string)
  : list (string * tmpl_value) -> ckpt_value -> result ckpt_value :=
  fix each (items : list (string * tmpl_value)) (checkpoint : ckpt_value)
    {struct items} : result ckpt_value :=
    match items with
    | [] => Ok checkpoint
    | (kk, tvv) :: rest =>
        sub <- subscript checkpoint k ;;
        sub' <- convert_at my_placement tvv sub kk ;;
        checkpoint' <- store checkpoint k sub' ;;
        each rest checkpoint'
    end.

(** A checkpoint that lacks the opaque-object key "bias" of the template. *)
Definition checkpoint_without_object : list (string * ckpt_value) :=
  [("decoder", CDict [("weight", CTensors [mkTensor 7 [3] 0])])]%string.

(** Both halves of a length-4 axis held by one rank. *)
Definition two_shard_tensor : TorchShardedTensor :=
  mkTorchShardedTensor [4]
    [mkShard (mkTensor 1 [2] 0) (mkShardMetadata [0] [2] "rank:0/cuda");
     mkShard (mkTensor 2 [2] 0) (mkShardMetadata [2] [2] "rank:0/cuda")].

(** ** Dotted keys *)

(** A key component: a string without a dot. *)
Fixpoint no_dot (s : string) : bool :=
  match s with
  | EmptyString => true
  | String c r => negb (Ascii.eqb c "."%char) && no_dot r
  end.

(** ** Descriptors whose geometry is exact *)

(** Behind its prepended axes, a descriptor with one fragmentation per axis
    whose global extent is fragmentation * local extent on every axis. *)
Definition exact_geometry (d : ShardedTensor) : Prop :=
  List.length (axis_fragmentations d) = List.length (global_shape d) /\
  forall j g e f,
    nth_error (skipn (prepend_axis_num d) (global_shape d)) j = Some g ->
    nth_error (local_shape d) j = Some e ->
    nth_error (skipn (prepend_axis_num d) (axis_fragmentations d)) j = Some f ->
    g = f * e.

(** A descriptor is as the template had it, or as some earlier load left
    it. *)
Definition loaded_from (d x : ShardedTensor) : Prop :=
  x = d \/ exists ten, x = rebind ten d.

(** Layer 2 of 5 of the first of three chunks of a length-9 axis. *)
Definition layer_descriptor : ShardedTensor :=
  mkShardedTensor "w" (Some (mkTensor 1 [3] 0)) 0 [3] [5; 9] [2; 0] [5; 3]
    (ReplicaInt 0) 1 false.

(** ** What a merge may change *)

(** [merged_from a b]: [b] has the mappings and keys of [a], in the same
    order at every depth, with every leaf unchanged except that a list of
    loaded buffers may have become a Dialect-B tensor. *)
Fixpoint merged_from (a b : ckpt_value) {struct a} : Prop :=
  match a, b with
  | CDict d, CDict d' =>
      (fix go (d d' : list (string * ckpt_value)) : Prop :=
         match d, d' with
         | [], [] => True
         | (k, v) :: r, (k', v') :: r' => k = k' /\ merged_from v v' /\ go r r'
         | _, _ => False
         end) d d'
  | CTensors l, CTensors l' => l = l'
  | CTensors _, CTorch _ => True
  | CBytes x, CBytes y => x = y
  | CTorch t, CTorch t' => t = t'
  | _, _ => False
  end.

(** [merged_by tv out k]: in [out], every descriptor-list leaf that the
    template value [tv] of the key [k] has holds a Dialect-B tensor. *)
Fixpoint merged_by (tv : tmpl_value) (out : ckpt_value) (k : string)
  {struct tv} : Prop :=
  match tv with
  | TDict items =>
      items = [] \/
      exists sub,
        subscript out k = Ok sub /\
        (fix all (items : list (string * tmpl_value)) : Prop :=
           match items with
           | [] => True
           | (kk, tvv) :: rest => merged_by tvv sub kk /\ all rest
           end) items
  | TObject _ => True
  | TTensors _ => exists t, subscript out k = Ok (CTorch t)
  end.

(** ** The leaf-wise reading of [pyt_to_mcore_state_dict] *)

(** What [_convert] makes of one value, as a function from the value to the
    new value: a mapping is rebuilt entry by entry, in order, a Dialect-B
    tensor becomes its descriptors, a byte blob its object shard, and any
    other leaf stays. *)
Fixpoint save_value (data_parallel_rank : Z) (sh_key : string)
    (prepend_offsets : list RankOffset) (allow_shape_mismatch : bool)
    (prefix : string) (v : value) {struct v} : result value :=
  match v with
  | VDict items =>
      items' <- (fix each (items : list (string * value)) {struct items}
                   : result (list (string * value)) :=
                   match items with
                   | [] => Ok []
                   | (kk, vv) :: rest =>
                       vv' <- save_value data_parallel_rank sh_key prepend_offsets
                                allow_shape_mismatch (prefix ++ kk ++ ".") vv ;;
                       rest' <- each rest ;;
                       Ok ((kk, vv') :: rest')
                   end) items ;;
      Ok (VDict items')
  | VTorch t =>
      l <- _torch_to_mcore_sharded_tensor sh_key t prepend_offsets prefix
             allow_shape_mismatch ;;
      Ok (VShardedTensors l)
  | VBytes b =>
      o <- _torch_to_mcore_sharded_object data_parallel_rank sh_key b
             prepend_offsets prefix ;;
      Ok (VShardedObject o)
  | _ => Ok v
  end.

Definition save_items (data_parallel_rank : Z) (sh_key : string)
    (prepend_offsets : list RankOffset) (allow_shape_mismatch : bool) (prefix : string)
  : list (string * value) -> result (list (string * value)) :=
  fix each (items : list (string * value)) {struct items}
    : result (list (string * value)) :=
    match items with
    | [] => Ok []
    | (kk, vv) :: rest =>
        vv' <- save_value data_parallel_rank sh_key prepend_offsets
                 allow_shape_mismatch (prefix ++ kk ++ ".") vv ;;
        rest' <- each rest ;;
        Ok ((kk, vv') :: rest')
    end.

Fixpoint save_top_items (data_parallel_rank : Z) (num_layers : Z) (prefix : string)
    (items : list (string * value)) : result (list (string * value)) :=
  match items with
  | [] => Ok []
  | (k, v) :: rest =>
      a <- key_args k num_layers ;;
      let '(sh_key, prepend_offsets, allow_shape_mismatch) := a in
      v' <- save_value data_parallel_rank sh_key prepend_offsets
              allow_shape_mismatch prefix v ;;
      rest' <- save_top_items data_parallel_rank num_layers prefix rest ;;
      Ok ((k, v') :: rest')
  end.

Definition save_state_dict (data_parallel_rank : Z) (state_dict : list (string * value))
    (prefix : string) : result (list (string * value)) :=
  num_layers <- count_layers (dict_keys state_dict) 0 ;;
  Py.assert_ (negb (Z.eqb num_layers 0)) ;;;
  save_top_items data_parallel_rank num_layers prefix state_dict.

(** A value whose mappings, at every depth, have pairwise distinct keys. *)
Fixpoint well_keyed (v : value) {struct v} : Prop :=
  match v with
  | VDict d =>
      NoDup (List.map fst d) /\
      (fix all (d : list (string * value)) : Prop :=
         match d with
         | [] => True
         | (_, vv) :: rest => well_keyed vv /\ all rest
         end) d
  | _ => True
  end.

(** [saved_from v v']: [v'] has the mappings and keys of [v], in the same
    order at every depth; where [v] has a Dialect-B tensor [v'] has one
    descriptor per local shard, in order, each holding the buffer of its
    shard; where [v] has a byte blob [v'] has an object shard holding that
    blob; and every other leaf is the same. *)
Fixpoint saved_from (v v' : value) {struct v} : Prop :=
  match v, v' with
  | VDict d, VDict d' =>
      (fix go (d d' : list (string * value)) : Prop :=
         match d, d' with
         | [], [] => True
         | (k, x) :: r, (k', x') :: r' => k = k' /\ saved_from x x' /\ go r r'
         | _, _ => False
         end) d d'
  | VTorch t, VShardedTensors l =>
      List.map data l = List.map (fun ls => Some (tensor ls)) (local_shards t)
  | VBytes b, VShardedObject o => obj_data o = b
  | VShardedTensors l, VShardedTensors l' => l = l'
  | VShardedObject o, VShardedObject o' => o = o'
  | VOther t, VOther t' => t = t'
  | _, _ => False
  end.


(** * Checkpoint directories: [ckpt_to_dir] *)

(** The part of [pathlib] that [ckpt_to_dir] uses, on pure POSIX paths as
    [Path(filepath)] holds them once parsed: the root and the components
    after it.  The properties follow CPython's [pathlib] (3.8 to 3.13). *)
Module Pathlib.

Record Path : Type := mkPath {
  root : string;
  parts : list string
}.

(** [name.rfind('.')] *)
Fixpoint rfind_dot (s : string) : Z :=
  match s with
  | EmptyString => -1
  | String c r =>
      let i := rfind_dot r in
      if 0 <=? i then i + 1
      else if Ascii.eqb c "."%char then 0 else -1
  end.

(** ['/' in s] *)
Fixpoint has_sep (s : string) : bool :=
  match s with
  | EmptyString => false
  | String c r => Ascii.eqb c "/"%char || has_sep r
  end.

(** [s[:i]] and [s[i:]] for [0 <= i <= len(s)] *)
Definition slice_to (i : Z) (s : string) : string := substring 0 (Z.to_nat i) s.

Definition slice_from (i : Z) (s : string) : string :=
  substring (Z.to_nat i) (String.length s - Z.to_nat i) s.

(** [path.name]: the final component, empty when there is none. *)
Definition name (p : Path) : string := List.last (parts p) EmptyString.

(** [path.suffix] *)
Definition suffix (p : Path) : string :=
  let name := name p in
  let i := rfind_dot name in
  if (0 <? i) && (i <? Z.of_nat (String.length name) - 1)
  then slice_from i name
  else EmptyString.

(** [path.stem] *)
Definition stem (p : Path) : string :=
  let name := name p in
  let i := rfind_dot name in
  if (0 <? i) && (i <? Z.of_nat (String.length name) - 1)
  then slice_to i name
  else name.

(** [path.with_name(name)]: a path without a name has none to replace, and
    the new name must be a single component: not empty, not ".", and
    without a separator. *)
Definition with_name (p : Path) (new : string) : result Path :=
  if String.eqb (name p) EmptyString then Raise ValueError
  else if String.eqb new EmptyString || has_sep new || String.eqb new "."
  then Raise ValueError
  else Ok (mkPath (root p) (List.removelast (parts p) ++ [new])).

(** The components of a parsed path hold no separator. *)
Definition parsed (p : Path) : Prop :=
  Forall (fun s => has_sep s = false) (parts p).

End Pathlib.

(** [ckpt_to_dir], on the path [Path(filepath)]. *)
Definition ckpt_to_dir (filepath : Pathlib.Path) : result Pathlib.Path :=
  if String.eqb (Pathlib.suffix filepath) ".ckpt"
  then Pathlib.with_name filepath (Pathlib.stem filepath)
  else Ok filepath.

(** The path [filepath] with its final component replaced by [new]. *)
Definition sibling (filepath : Pathlib.Path) (new : string) : Pathlib.Path :=
  Pathlib.mkPath (Pathlib.root filepath)
    (List.removelast (Pathlib.parts filepath) ++ [new]).

Definition ckpt_path : Pathlib.Path :=
  Pathlib.mkPath "/" ["results"; "step=10.ckpt"; "model.v2.ckpt"]%string.

(** * The progress bar: [fix_progress_bar] *)

(** The callbacks of a trainer, over any collection of classes: [class_eq]
    is [==] on classes, [issubclass] the subclass test behind [isinstance],
    and a callback carries its class and the rest of its state. *)
Section ProgressBar.

Variable class : Type.
Variable class_eq : class -> class -> bool.
Variable issubclass : class -> class -> bool.
Variable TQDMProgressBar : class.
Variable MegatronProgressBar : class.

Record Callback : Type := mkCallback {
  class_of : class;
  attributes : nat
}.

Definition isinstance (callback : Callback) (k : class) : bool :=
  issubclass (class_of callback) k.

(** [callback.__class__ = k] *)
Definition set_class (callback : Callback) (k : class) : Callback :=
  mkCallback k (attributes callback).

(** The first loop, on the flags
    [(contains_megatron_progress, contains_progress)]. *)
Fixpoint scan_callbacks (callbacks : list Callback) (flags : bool * bool)
  : bool * bool :=
  match callbacks with
  | [] => flags
  | callback :: rest =>
      let contains_megatron_progress :=
        if isinstance callback MegatronProgressBar then true else fst flags in
      let contains_progress :=
        if class_eq (class_of callback) TQDMProgressBar then true else snd flags in
      scan_callbacks rest (contains_megatron_progress, contains_progress)
  end.

(** The second loop, which stops at the first callback it converts. *)
Fixpoint convert_first (callbacks : list Callback) : list Callback :=
  match callbacks with
  | [] => []
  | callback :: rest =>
      if isinstance callback TQDMProgressBar
      then set_class callback MegatronProgressBar :: rest
      else callback :: convert_first rest
  end.

(** [fix_progress_bar], as the list [trainer.callbacks] it leaves when the
    class assignment is accepted. *)
Definition fix_progress_bar (callbacks : list Callback) : list Callback :=
  let flags := scan_callbacks callbacks (false, false) in
  let contains_megatron_progress := fst flags in
  let contains_progress := snd flags in
  if negb contains_megatron_progress && contains_progress
  then convert_first callbacks
  else callbacks.

(** The same with the error of the class assignment: Python accepts
    [callback.__class__ = k] when the object layouts of the two classes
    agree, [layout_compatible], and raises [TypeError] otherwise, the
    callback keeping its class. *)
Variable layout_compatible : class -> class -> bool.

Definition assign_class (callback : Callback) (k : class) : result Callback :=
  if layout_compatible (class_of callback) k
  then Ok (set_class callback k)
  else Raise TypeError.

Fixpoint convert_first_or_raise (callbacks : list Callback)
  : result (list Callback) :=
  match callbacks with
  | [] => Ok []
  | callback :: rest =>
      if isinstance callback TQDMProgressBar
      then
        callback' <- assign_class callback MegatronProgressBar ;;
        Ok (callback' :: rest)
      else
        rest' <- convert_first_or_raise rest ;;
        Ok (callback :: rest')
  end.

Definition fix_progress_bar_or_raise (callbacks : list Callback)
  : result (list Callback) :=
  let flags := scan_callbacks callbacks (false, false) in
  let contains_megatron_progress := fst flags in
  let contains_progress := snd flags in
  if negb contains_megatron_progress && contains_progress
  then convert_first_or_raise callbacks
  else Ok callbacks.

(** Some callback is an instance of [MegatronProgressBar]. *)
Definition has_megatron (callbacks : list Callback) : bool :=
  existsb (fun c => isinstance c MegatronProgressBar) callbacks.

(** Some callback has exactly the class [TQDMProgressBar]. *)
Definition has_plain (callbacks : list Callback) : bool :=
  existsb (fun c => class_eq (class_of c) TQDMProgressBar) callbacks.

(** [callbacks] splits at its first instance of [TQDMProgressBar]. *)
Definition first_bar (callbacks pre : list Callback) (c : Callback)
    (post : list Callback) : Prop :=
  callbacks = pre ++ c :: post /\
  Forall (fun x => isinstance x TQDMProgressBar = false) pre /\
  isinstance c TQDMProgressBar = true.

End ProgressBar.

(** A class collection for the examples: the two progress bars, with
    [MegatronBar] a subclass of [TQDMBar], a user's subclass of [TQDMBar],
    and an unrelated callback class. *)
Inductive sample_class : Type :=
| TQDMBar
| MegatronBar
| CustomBar
| Checkpointer.

Definition sample_class_eq (a b : sample_class) : bool :=
  match a, b with
  | TQDMBar, TQDMBar | MegatronBar, MegatronBar
  | CustomBar, CustomBar | Checkpointer, Checkpointer => true
  | _, _ => false
  end.

Definition sample_issubclass (a b : sample_class) : bool :=
  match a, b with
  | MegatronBar, TQDMBar | CustomBar, TQDMBar => true
  | _, _ => sample_class_eq a b
  end.

Definition sample_fix_progress_bar
  : list (Callback sample_class) -> list (Callback sample_class) :=
  fix_progress_bar sample_class_eq sample_issubclass TQDMBar MegatronBar.

(** The user's subclass declares [__slots__], so its instances have
    another object layout than those of the progress bars. *)
Definition sample_layout_compatible (a b : sample_class) : bool :=
  match a, b with
  | CustomBar, CustomBar => true
  | CustomBar, _ | _, CustomBar => false
  | _, _ => true
  end.

Definition sample_callbacks : list (Callback sample_class) :=
  [mkCallback Checkpointer 0; mkCallback CustomBar 1; mkCallback TQDMBar 2].

(** ** Checkpoints that follow their template *)

(** [lists_at_tensor_keys tv cv]: the loaded value [cv] holds a list of
    buffers wherever the template value [tv] of its key holds a list of
    descriptors, at any depth, as the declared type of the checkpoint,
    [Dict[str, List[torch.Tensor]]], has it.  Keys of the template that the
    checkpoint lacks, and object shards, ask for nothing. *)
Fixpoint lists_at_tensor_keys (tv : tmpl_value) (cv : ckpt_value) {struct tv} : Prop :=
  match tv with
  | TTensors _ =>
      match cv with
      | CTensors _ => True
      | _ => False
      end
  | TObject _ => True
  | TDict items =>
      match cv with
      | CDict d =>
          (fix all (items : list (string * tmpl_value)) : Prop :=
             match items with
             | [] => True
             | (kk, tvv) :: rest =>
                 match dict_get d kk with
                 | Some cvv => lists_at_tensor_keys tvv cvv
                 | None => True
                 end /\ all rest
             end) items
      | _ => True
      end
  end.


(** ** State dicts without shared objects *)

(** The lists of local shards the save walk overwrites in [v]: those of
    its Dialect-B tensors, at any depth, that are not empty. *)
Fixpoint shard_lists (v : value) {struct v} : list (list Shard) :=
  match v with
  | VDict d =>
      (fix each (d : list (string * value)) : list (list Shard) :=
         match d with
         | [] => []
         | (_, vv) :: rest => shard_lists vv ++ each rest
         end) d
  | VTorch t =>
      match local_shards t with
      | [] => []
      | l => [l]
      end
  | _ => []
  end.

(** The mappings the save walk writes into in [v]: [v] itself and the
    mappings it holds, at any depth, that are not empty. *)
Fixpoint mappings (v : value) {struct v} : list (list (string * value)) :=
  match v with
  | VDict d =>
      match d with
      | [] => []
      | _ => [d]
      end
      ++ (fix each (d : list (string * value)) : list (list (string * value)) :=
            match d with
            | [] => []
            | (_, vv) :: rest => mappings vv ++ each rest
            end) d
  | _ => []
  end.

(** No object that the save walk updates in place is reachable twice in
    [v]: the non-empty lists of local shards are pairwise different, and so
    are the non-empty mappings.  An object held at two places has one
    content, so this excludes it. *)
Definition unshared (v : value) : Prop :=
  NoDup (shard_lists v) /\ NoDup (mappings v).

(** A state dict with two layer keys, a vocabulary table and a nested
    tensor, every tensor with a buffer of its own. *)
Definition unshared_sample : list (string * value) :=
  [("module.decoder.layers.0.w", VTorch even_tensor);
   ("module.decoder.layers.3.extra", VBytes (mkBytesIO [7%nat]));
   ("embedding.word_embeddings.weight", VTorch uneven_tensor);
   ("model",
    VDict [("head",
            VTorch (mkTorchShardedTensor [6]
                      [mkShard (mkTensor 2 [3] 0)
                         (mkShardMetadata [3] [3] "rank:0/cuda")]))])]%string.


(** * Properties *)

Unset Implicit Arguments.

(** ** The result monad *)

Lemma bind_Ok_inv {A B : Type} (m : result A) (f : A -> result B) (b : B) :
  bind m f = Ok b -> exists a, m = Ok a /\ f a = Ok b.
Proof.
  destruct m as [a|e]; simpl; intros H; [exists a; auto | discriminate].
Qed.

Ltac bind_inv H :=
  let a := fresh "a" in
  let Ha := fresh "Ha" in
  apply bind_Ok_inv in H; destruct H as [a [Ha H]].

Tactic Notation "bind_as" hyp(H) ident(a) ident(Ha) :=
  apply bind_Ok_inv in H; destruct H as [a [Ha H]].

Lemma mapM_length {A B : Type} (f : A -> result B) (l : list A) (r : list B) :
  mapM f l = Ok r -> List.length r = List.length l.
Proof.
  revert r; induction l as [|a l IH]; simpl; intros r H.
  - inversion H; reflexivity.
  - bind_inv H. bind_inv H. inversion H; subst; simpl. f_equal; auto.
Qed.

Lemma mapM_nth_error {A B : Type} (f : A -> result B) (l : list A) (r : list B) :
  mapM f l = Ok r ->
  forall i a, nth_error l i = Some a ->
              exists b, nth_error r i = Some b /\ f a = Ok b.
Proof.
  revert r; induction l as [|x l IH]; simpl; intros r H i a Hi.
  - destruct i; discriminate.
  - bind_inv H. bind_inv H. inversion H; subst.
    destruct i as [|i]; simpl in *.
    + inversion Hi; subst. eauto.
    + eauto.
Qed.

(** ** Validation of a descriptor *)

Lemma offsets_divisible_true (offs shp : list Z) :
  Mcore.offsets_divisible offs shp = Ok true <->
  Forall (fun p => snd p <> 0 /\ fst p mod snd p = 0) (combine offs shp).
Proof.
  revert shp; induction offs as [|off offs IH]; intros shp; simpl.
  - split; auto.
  - destruct shp as [|sh shp]; simpl.
    + split; auto.
    + unfold Py.mod_. destruct (Z.eqb_spec sh 0) as [E|E]; simpl.
      * split; [discriminate|]. intros H; inversion H; subst; simpl in *. tauto.
      * destruct (Z.eqb_spec (off mod sh) 0) as [E'|E'].
        -- rewrite IH. split; intros H.
           ++ constructor; auto.
           ++ inversion H; auto.
        -- split; [discriminate|]. intros H; inversion H; subst; simpl in *. tauto.
Qed.


Lemma validate_Ok_iff (sh : ShardedTensor) :
  Mcore.validate_metadata_integrity sh = Ok tt <-> consistent sh.
Proof.
  unfold Mcore.validate_metadata_integrity, consistent.
  destruct (Mcore.data_matches sh); simpl.
  2:{ split; [discriminate | intros [H _]; discriminate]. }
  destruct (Nat.eqb_spec (List.length (global_shape sh)) (List.length (global_offset sh)))
    as [E1|E1]; simpl.
  2:{ split; [discriminate | intros (_ & H & _); contradiction]. }
  destruct (Nat.eqb_spec (List.length (local_shape sh) + prepend_axis_num sh)
                         (List.length (global_shape sh))) as [E2|E2]; simpl.
  2:{ split; [discriminate | intros (_ & _ & H & _); contradiction]. }
  rewrite <- offsets_divisible_true.
  destruct (Mcore.offsets_divisible _ _) as [[|]|e]; simpl.
  - tauto.
  - split; [discriminate | intros (_ & _ & _ & H); discriminate].
  - split; [discriminate | intros (_ & _ & _ & H); discriminate].
Qed.


(** ** C4: the effect of toDialectB on one descriptor *)


(** ** List assignment *)

Lemma setitem_Ok {A : Type} (l : list A) (i : nat) (v : A) (l' : list A) :
  Py.setitem l i v = Ok l' ->
  List.length l' = List.length l /\
  nth_error l' i = Some v /\
  (forall j, j <> i -> nth_error l' j = nth_error l j).
Proof.
  revert i l'; induction l as [|a l IH]; intros i l' H; simpl in H.
  - discriminate.
  - destruct i as [|i].
    + inversion H; subst; simpl. repeat split; auto.
      intros [|j] Hj; [contradiction | reflexivity].
    + bind_inv H. inversion H; subst; simpl.
      destruct (IH _ _ Ha) as (Hl & Hi & Hf).
      repeat split; auto.
      intros [|j] Hj; simpl; auto.
Qed.

(** ** [from_rank_offsets] *)

Lemma place_axes_Ok (ro : list RankOffset) (shp : list Z) (p : nat) :
  forall (seen gs go af gs' go' af' : list Z),
    Mcore.place_axes ro shp p seen gs go af = Ok (gs', go', af') ->
    (List.length gs' = List.length gs /\ List.length go' = List.length go /\
     List.length af' = List.length af) /\
    (forall axis off f, In (axis, off, f) ro ->
       0 <= axis /\ 0 <= off < f /\ ~ In axis seen /\
       exists las, Mcore.local_axis_shape shp p (Z.to_nat axis) = Ok las /\
                   nth_error gs' (Z.to_nat axis) = Some (f * las) /\
                   nth_error go' (Z.to_nat axis) = Some (off * las) /\
                   nth_error af' (Z.to_nat axis) = Some f) /\
    NoDup (List.map ro_axis ro) /\
    (forall a : nat, (forall x, In x ro -> Z.to_nat (ro_axis x) <> a) ->
       nth_error gs' a = nth_error gs a /\ nth_error go' a = nth_error go a /\
       nth_error af' a = nth_error af a).
Proof.
  induction ro as [|[[axis off] f] ro IH]; intros seen gs go af gs' go' af' H;
    simpl in H.
  - inversion H; subst. split; [|split; [|split]].
    + repeat split; reflexivity.
    + intros ? ? ? [].
    + constructor.
    + intros; repeat split; reflexivity.
  - unfold Py.assert_ in H.
    destruct ((0 <=? axis) && (0 <=? off) && (0 <=? f)) eqn:Hnn; simpl in H;
      [|discriminate].
    destruct (off <? f) eqn:Hlt; simpl in H; [|discriminate].
    destruct (existsb (Z.eqb axis) seen) eqn:Hseen; [discriminate|].
    bind_inv H. rename a into las, Ha into Hlas.
    bind_inv H. rename a into gs1, Ha into Hgs1.
    bind_inv H. rename a into go1, Ha into Hgo1.
    bind_inv H. rename a into af1, Ha into Haf1.
    apply andb_prop in Hnn. destruct Hnn as [Hnn Hf0].
    apply andb_prop in Hnn. destruct Hnn as [Hax0 Hoff0].
    apply Z.leb_le in Hax0, Hoff0, Hf0. apply Z.ltb_lt in Hlt.
    assert (Hns : ~ In axis seen).
    { intros Hin. assert (existsb (Z.eqb axis) seen = true).
      { apply existsb_exists. exists axis. split; auto. apply Z.eqb_refl. }
      congruence. }
    destruct (setitem_Ok _ _ _ _ Hgs1) as (Lg & Ng & Fg).
    destruct (setitem_Ok _ _ _ _ Hgo1) as (Lo & No & Fo).
    destruct (setitem_Ok _ _ _ _ Haf1) as (Lf & Nf & Ff).
    destruct (IH _ _ _ _ _ _ _ H) as ((L1 & L2 & L3) & Hin & Hnd & Hframe).
    assert (Hrest : forall x, In x ro -> Z.to_nat (ro_axis x) <> Z.to_nat axis).
    { intros [[ax' off'] f'] Hx. destruct (Hin _ _ _ Hx) as (Hax' & _ & Hns' & _).
      unfold ro_axis; simpl. intros E. apply Z2Nat.inj in E; auto.
      subst. apply Hns'. simpl; auto. }
    split; [|split; [|split]].
    + repeat split; congruence.
    + intros axis' off' f' [E|Hx].
      * inversion E; subst.
        split; [lia|]. split; [lia|]. split; [assumption|].
        exists las. destruct (Hframe _ Hrest) as (F1 & F2 & F3).
        split; [assumption|]. repeat split; congruence.
      * destruct (Hin _ _ _ Hx) as (H1 & H2 & H3 & H4).
        split; [lia|]. split; [lia|]. split; [|assumption].
        intros Hs. apply H3. simpl; auto.
    + simpl. constructor; auto.
      intros Hm. apply in_map_iff in Hm. destruct Hm as ([[ax' off'] f'] & E & Hx).
      unfold ro_axis in E; simpl in E; subst.
      destruct (Hin _ _ _ Hx) as (_ & _ & Hns' & _). apply Hns'. simpl; auto.
    + intros a Ha.
      assert (Ha0 : Z.to_nat axis <> a).
      { apply (Ha (axis, off, f)). simpl; auto. }
      destruct (Hframe a) as (F1 & F2 & F3).
      { intros x Hx. apply Ha. simpl; auto. }
      rewrite F1, F2, F3. repeat split; [apply Fg | apply Fo | apply Ff]; auto.
Qed.

Lemma from_rank_offsets_Ok (k : string) (ten : Tensor) (ro : list RankOffset)
      (rid : ReplicaId) (p : nat) (allow : bool) (d : ShardedTensor) :
  Mcore.from_rank_offsets k ten ro rid p allow = Ok d ->
  (key d = k /\ data d = Some ten /\ dtype d = ten_dtype ten /\
   local_shape d = shape ten /\ replica_id d = rid /\ prepend_axis_num d = p /\
   allow_shape_mismatch d = allow) /\
  Mcore.place_axes ro (shape ten) p []
    (repeat 1 p ++ shape ten)
    (repeat 0 (List.length (shape ten) + p))
    (repeat 1 (List.length (shape ten) + p))
  = Ok (global_shape d, global_offset d, axis_fragmentations d) /\
  consistent d.
Proof.
  unfold Mcore.from_rank_offsets. intros H.
  bind_inv H. destruct a as [[gs go] af].
  bind_inv H. inversion H; subst; simpl.
  repeat split; auto.
  all: destruct a; apply validate_Ok_iff in Ha0; destruct Ha0 as (C1 & C2 & C3 & C4); auto.
Qed.

(** ** The loops of [_torch_to_mcore_sharded_tensor] *)

Lemma getitem_Ok {A : Type} (l : list A) (i : nat) (a : A) :
  Py.getitem l i = Ok a <-> nth_error l i = Some a.
Proof.
  unfold Py.getitem. destruct (nth_error l i); split; intros H; inversion H; auto.
Qed.

Lemma floordiv_Ok (a b q : Z) :
  Py.floordiv a b = Ok q <-> b <> 0 /\ q = a / b.
Proof.
  unfold Py.floordiv. destruct (Z.eqb_spec b 0); split.
  - discriminate.
  - intros [H _]; contradiction.
  - intros H; inversion H; auto.
  - intros [_ H]; subst; reflexivity.
Qed.

Lemma nth_error_seq (start len i : nat) :
  (i < len)%nat -> nth_error (seq start len) i = Some (start + i)%nat.
Proof.
  revert start i; induction len as [|len IH]; intros start i Hi; [lia|].
  destruct i as [|i]; simpl.
  - f_equal; lia.
  - rewrite IH by lia. f_equal; lia.
Qed.

Lemma axis_fragm_of_Ok (gs : list Z) (shards : list Shard) (fr : list Z) :
  axis_fragm_of gs shards = Ok fr ->
  List.length fr = List.length gs /\
  forall j, (j < List.length gs)%nat ->
    exists g ls0 s,
      nth_error gs j = Some g /\ nth_error shards 0 = Some ls0 /\
      nth_error (shard_sizes (metadata ls0)) j = Some s /\ s <> 0 /\
      nth_error fr j = Some (g / s).
Proof.
  unfold axis_fragm_of. intros H. split.
  - rewrite (mapM_length _ _ _ H). apply length_seq.
  - intros j Hj.
    destruct (mapM_nth_error _ _ _ H j j) as (b & Hb & Hf).
    { rewrite nth_error_seq by assumption. reflexivity. }
    bind_inv Hf. bind_inv Hf. bind_inv Hf.
    apply getitem_Ok in Ha, Ha0, Ha1. apply floordiv_Ok in Hf.
    destruct Hf as [Hnz ->]. exists a, a0, a1. auto.
Qed.

Lemma shard_rank_offsets_Ok (meta : ShardMetadata) (fr : list Z) (p : nat)
      (new : list RankOffset) :
  shard_rank_offsets meta fr p = Ok new ->
  List.length new = List.length fr /\
  forall j, (j < List.length fr)%nat ->
    exists o s f,
      nth_error (shard_offsets meta) j = Some o /\
      nth_error (shard_sizes meta) j = Some s /\ s <> 0 /\
      nth_error fr j = Some f /\
      nth_error new j = Some (Z.of_nat (j + p), o / s, f).
Proof.
  unfold shard_rank_offsets. intros H. split.
  - rewrite (mapM_length _ _ _ H). apply length_seq.
  - intros j Hj.
    destruct (mapM_nth_error _ _ _ H j j) as (b & Hb & Hf).
    { rewrite nth_error_seq by assumption. reflexivity. }
    bind_inv Hf. bind_inv Hf. bind_inv Hf. bind_inv Hf.
    apply getitem_Ok in Ha, Ha0, Ha2. apply floordiv_Ok in Ha1.
    destruct Ha1 as [Hnz ->]. inversion Hf; subst.
    exists a, a0, a2. auto.
Qed.

(** Two non-empty triple lists built for the same axes cannot both be
    handed to [from_rank_offsets]. *)
Lemma from_rank_offsets_twice (k : string) (ten : Tensor) (pre new1 new2 : list RankOffset)
      (rid : ReplicaId) (p : nat) (allow : bool) (x1 x2 : RankOffset) (d : ShardedTensor) :
  nth_error new1 0 = Some x1 -> nth_error new2 0 = Some x2 ->
  ro_axis x1 = ro_axis x2 ->
  Mcore.from_rank_offsets k ten (pre ++ (new1 ++ new2)) rid p allow <> Ok d.
Proof.
  intros H1 H2 Hax E.
  destruct (from_rank_offsets_Ok _ _ _ _ _ _ _ E) as (_ & Hp & _).
  destruct (place_axes_Ok _ _ _ _ _ _ _ _ _ _ Hp) as (_ & _ & Hnd & _).
  rewrite !map_app in Hnd. apply NoDup_app_remove_l in Hnd.
  destruct new1 as [|y1 new1]; [discriminate|].
  destruct new2 as [|y2 new2]; [discriminate|].
  simpl in H1, H2. inversion H1; inversion H2; subst.
  simpl in Hnd. inversion Hnd as [|? ? Hnin _]; subst.
  apply Hnin. apply in_or_app. right. simpl. auto.
Qed.

Lemma shards_loop_Ok (k prefix : string) (prepend : list RankOffset) (allow : bool)
      (fr : list Z) (shards : list Shard) :
  forall (descs : list ShardedTensor),
    shards_loop k prefix prepend allow fr shards [] = Ok descs ->
    Forall2 (fun ls d =>
               exists new,
                 shard_rank_offsets (metadata ls) fr (List.length prepend) = Ok new /\
                 Mcore.from_rank_offsets (prefix ++ k) (tensor ls) (prepend ++ new)
                   (ReplicaInt 0) (List.length prepend) allow = Ok d)
            shards descs.
Proof.
  induction shards as [|ls rest IH]; intros descs H; simpl in H.
  - inversion H; constructor.
  - bind_inv H. rename a into new, Ha into Hnew.
    bind_inv H. rename a into d, Ha into Hd.
    bind_inv H. rename a into ds, Ha into Hds.
    inversion H; subst. simpl in Hd.
    constructor; [exists new; auto|].
    destruct new as [|x new'].
    + apply IH; assumption.
    + destruct rest as [|ls2 rest']; [inversion Hds; constructor|].
      exfalso. simpl in Hds.
      bind_inv Hds. rename a into new2, Ha into Hnew2.
      bind_inv Hds. rename a into d2, Ha into Hd2.
      destruct (shard_rank_offsets_Ok _ _ _ _ Hnew) as (L1 & N1).
      destruct (shard_rank_offsets_Ok _ _ _ _ Hnew2) as (L2 & N2).
      assert (Hfr : (0 < List.length fr)%nat) by (rewrite <- L1; simpl; lia).
      destruct (N1 _ Hfr) as (o1 & s1 & f1 & _ & _ & _ & _ & E1).
      destruct (N2 _ Hfr) as (o2 & s2 & f2 & _ & _ & _ & _ & E2).
      apply (from_rank_offsets_twice (prefix ++ k) (tensor ls2) prepend
               (x :: new') new2 (ReplicaInt 0) (List.length prepend) allow
               _ _ d2 E1 E2 eq_refl).
      exact Hd2.
Qed.

(** The geometry of one descriptor built from the prepend offsets followed
    by one local shard's triples. *)
Lemma descriptor_geometry (k : string) (ls : Shard) (prepend new : list RankOffset)
      (fr : list Z) (allow : bool) (d : ShardedTensor) :
  shard_rank_offsets (metadata ls) fr (List.length prepend) = Ok new ->
  Mcore.from_rank_offsets k (tensor ls) (prepend ++ new) (ReplicaInt 0)
    (List.length prepend) allow = Ok d ->
  let p := List.length prepend in
  (forall j f, nth_error fr j = Some f ->
     exists o s e,
       nth_error (shard_offsets (metadata ls)) j = Some o /\
       nth_error (shard_sizes (metadata ls)) j = Some s /\ s <> 0 /\
       nth_error (shape (tensor ls)) j = Some e /\
       nth_error (axis_fragmentations d) (p + j) = Some f /\
       nth_error (global_shape d) (p + j) = Some (f * e) /\
       nth_error (global_offset d) (p + j) = Some (o / s * e)) /\
  (forall a off f, In (a, off, f) prepend -> a < Z.of_nat p ->
     nth_error (axis_fragmentations d) (Z.to_nat a) = Some f /\
     nth_error (global_shape d) (Z.to_nat a) = Some (f * 1) /\
     nth_error (global_offset d) (Z.to_nat a) = Some (off * 1)) /\
  (List.length (global_shape d) = (p + List.length (shape (tensor ls)))%nat /\
   List.length (global_offset d) = (p + List.length (shape (tensor ls)))%nat /\
   List.length (axis_fragmentations d) = (p + List.length (shape (tensor ls)))%nat).
Proof.
  intros Hnew Hd p.
  destruct (from_rank_offsets_Ok _ _ _ _ _ _ _ Hd) as (_ & Hp & _).
  destruct (place_axes_Ok _ _ _ _ _ _ _ _ _ _ Hp) as ((L1 & L2 & L3) & Hin & _ & _).
  destruct (shard_rank_offsets_Ok _ _ _ _ Hnew) as (Ln & Nn).
  split; [|split].
  - intros j f Hf.
    assert (Hj : (j < List.length fr)%nat) by (apply nth_error_Some; congruence).
    destruct (Nn j Hj) as (o & s & f' & Ho & Hs & Hnz & Hf' & Hx).
    assert (f' = f) by congruence. subst f'.
    destruct (Hin (Z.of_nat (j + p)) (o / s) f) as (_ & _ & _ & las & Hlas & G1 & G2 & G3).
    { apply in_or_app. right. eapply nth_error_In; eauto. }
    rewrite Nat2Z.id in *. unfold Mcore.local_axis_shape in Hlas.
    fold p in Hlas. destruct (Nat.ltb_spec (j + p) p) as [Hlt|Hge]; [lia|].
    replace (j + p - p)%nat with j in Hlas by lia.
    apply getitem_Ok in Hlas. replace (p + j)%nat with (j + p)%nat by lia.
    exists o, s, las. auto 10.
  - intros a off f Hx Ha.
    destruct (Hin a off f) as (Ha0 & _ & _ & las & Hlas & G1 & G2 & G3).
    { apply in_or_app. left. assumption. }
    unfold Mcore.local_axis_shape in Hlas. fold p in Hlas.
    destruct (Nat.ltb_spec (Z.to_nat a) p) as [Hlt|Hge]; [|lia].
    inversion Hlas; subst. auto.
  - rewrite L1, L2, L3. rewrite length_app, !repeat_length. subst p. lia.
Qed.

Lemma from_rank_offsets_allow (k : string) (ten : Tensor) (ro : list RankOffset)
      (rid : ReplicaId) (p : nat) (a b : bool) (d : ShardedTensor) :
  Mcore.from_rank_offsets k ten ro rid p a = Ok d ->
  Mcore.from_rank_offsets k ten ro rid p b = Ok (with_allow b d).
Proof.
  unfold Mcore.from_rank_offsets. intros H.
  bind_inv H. rewrite Ha. simpl. destruct a0 as [[gs go] af].
  bind_inv H. inversion H; subst.
  unfold Mcore.validate_metadata_integrity, Mcore.data_matches in *. simpl in *.
  rewrite Ha0. reflexivity.
Qed.

Lemma shards_loop_allow (k prefix : string) (prepend : list RankOffset) (a b : bool)
      (fr : list Z) (shards : list Shard) :
  forall (acc : list RankOffset) (descs : list ShardedTensor),
    shards_loop k prefix prepend a fr shards acc = Ok descs ->
    shards_loop k prefix prepend b fr shards acc = Ok (List.map (with_allow b) descs).
Proof.
  induction shards as [|ls rest IH]; intros acc descs H; simpl in *.
  - inversion H; reflexivity.
  - bind_as H new Hnew. rewrite Hnew. simpl.
    bind_as H d Hd. rewrite (from_rank_offsets_allow _ _ _ _ _ _ b _ Hd). simpl.
    bind_as H ds Hds. rewrite (IH _ _ Hds). simpl.
    inversion H; reflexivity.
Qed.

(** ** C9: the placement assertion of toDialectA *)

Lemma placements_agree_false_nonempty (shards : list Shard) :
  placements_agree shards = false -> exists ls rest, shards = ls :: rest.
Proof.
  destruct shards as [|ls rest]; [discriminate | eauto].
Qed.

Lemma placements_agree_true (shards : list Shard) :
  placements_agree shards = true <->
  forall ls ls0, In ls shards -> nth_error shards 0 = Some ls0 ->
                 placement (metadata ls) = placement (metadata ls0).
Proof.
  unfold placements_agree. rewrite forallb_forall. split.
  - intros H ls ls0 Hin H0. specialize (H ls Hin).
    destruct shards as [|x rest]; [discriminate|].
    inversion H0; subst. apply String.eqb_eq. assumption.
  - intros H ls Hin. destruct shards as [|x rest]; [contradiction|].
    apply String.eqb_eq. apply H; auto.
Qed.

Lemma placements_agree_false (shards : list Shard) :
  (exists ls1 ls2, In ls1 shards /\ In ls2 shards /\
                   placement (metadata ls1) <> placement (metadata ls2)) ->
  placements_agree shards = false.
Proof.
  intros (ls1 & ls2 & H1 & H2 & Hne).
  destruct (placements_agree shards) eqn:E; [|reflexivity].
  exfalso. apply Hne.
  destruct shards as [|ls0 rest]; [contradiction|].
  pose proof (proj1 (placements_agree_true (ls0 :: rest)) E) as Hall.
  rewrite (Hall ls1 ls0 H1 eq_refl), (Hall ls2 ls0 H2 eq_refl). reflexivity.
Qed.

(** C9.  When two local shard records of a Dialect-B tensor differ in their
    placement, [_torch_to_mcore_sharded_tensor] stops before the
    fragmentation is computed and before any descriptor is built, but with
    [AttributeError], not [AssertionError]: building the assertion's
    message reads the attribute [meta], which a [Shard] does not have.
    When all local shard records have one placement the assertion passes
    and the function is the rest of its body. *)
Theorem C9_placement_assertion :
  forall (key : string) (sh_ten : TorchShardedTensor) (prepend_offsets : list RankOffset)
         (prefix : string) (allow : bool),
    ((exists ls1 ls2,
        In ls1 (local_shards sh_ten) /\ In ls2 (local_shards sh_ten) /\
        placement (metadata ls1) <> placement (metadata ls2)) ->
     _torch_to_mcore_sharded_tensor key sh_ten prepend_offsets prefix allow
     = Raise AttributeError) /\
    ((forall ls1 ls2,
        In ls1 (local_shards sh_ten) -> In ls2 (local_shards sh_ten) ->
        placement (metadata ls1) = placement (metadata ls2)) ->
     _torch_to_mcore_sharded_tensor key sh_ten prepend_offsets prefix allow
     = (axis_fragm <- axis_fragm_of (size sh_ten) (local_shards sh_ten) ;;
        shards_loop key prefix prepend_offsets allow axis_fragm
          (local_shards sh_ten) [])).
Proof.
  intros key sh_ten prepend prefix allow.
  unfold _torch_to_mcore_sharded_tensor. split; intros H.
  - pose proof (placements_agree_false _ H) as E. rewrite E. simpl.
    destruct (placements_agree_false_nonempty _ E) as (ls & rest & E').
    rewrite E'. reflexivity.
  - assert (E : placements_agree (local_shards sh_ten) = true).
    { apply placements_agree_true. intros ls ls0 Hin H0.
      apply H; [exact Hin | eapply nth_error_In; exact H0]. }
    rewrite E. reflexivity.
Qed.

(** The failing input of C9: two local shards placed on different devices. *)
Lemma C9_failing_input :
  _torch_to_mcore_sharded_tensor "w" mixed_placement_tensor [] EmptyString false
  = Raise AttributeError.
Proof.
  apply (proj1 (C9_placement_assertion "w" mixed_placement_tensor [] EmptyString false)).
  exists (mkShard (mkTensor 1 [2] 0) (mkShardMetadata [0] [2] "rank:0/cuda:0")),
         (mkShard (mkTensor 2 [2] 0) (mkShardMetadata [2] [2] "rank:0/cuda:1")).
  split; [left; reflexivity|]. split; [right; left; reflexivity|].
  simpl. discriminate.
Defined.

(** ** C3: the geometry toDialectA computes *)

Lemma torch_to_mcore_Ok (k : string) (t : TorchShardedTensor) (prepend : list RankOffset)
      (prefix : string) (allow : bool) (descs : list ShardedTensor) :
  _torch_to_mcore_sharded_tensor k t prepend prefix allow = Ok descs ->
  placements_agree (local_shards t) = true /\
  exists fr, axis_fragm_of (size t) (local_shards t) = Ok fr /\
             shards_loop k prefix prepend allow fr (local_shards t) [] = Ok descs.
Proof.
  unfold _torch_to_mcore_sharded_tensor, Py.assert_msg. intros H.
  destruct (placements_agree (local_shards t)).
  - simpl in H. bind_as H fr Hfr. split; [reflexivity|]. exists fr. auto.
  - simpl in H. bind_as H u Hu. bind_as Hu m Hm. discriminate Hu.
Qed.

Lemma torch_to_mcore_allow (k : string) (t : TorchShardedTensor) (prepend : list RankOffset)
      (prefix : string) (a b : bool) (descs : list ShardedTensor) :
  _torch_to_mcore_sharded_tensor k t prepend prefix a = Ok descs ->
  _torch_to_mcore_sharded_tensor k t prepend prefix b
  = Ok (List.map (with_allow b) descs).
Proof.
  intros H. destruct (torch_to_mcore_Ok _ _ _ _ _ _ H) as (Hp & fr & Hfr & Hl).
  unfold _torch_to_mcore_sharded_tensor. rewrite Hp, Hfr. simpl.
  apply shards_loop_allow with (a := a). assumption.
Qed.

(** C3 (amended).  Whenever [_torch_to_mcore_sharded_tensor] returns
    descriptors: on every axis [j] the fragmentation is the floor of the
    declared global extent by the first local shard's extent (the extent
    being non-zero), with no divisibility check; the flag
    [allow_shape_mismatch] is only recorded, the other value of the flag
    giving the same descriptors; there is one descriptor per local shard,
    carrying [prepend_axis_num = len(prepend_offsets)]; on the computed axis
    [j], found at position [len(prepend_offsets) + j], it has that
    fragmentation, global extent fragmentation * local buffer extent and
    global offset floor(shard_offset / shard_extent) * local buffer extent,
    so its global extent is the declared one exactly when fragmentation *
    buffer extent gives it back; a prepend offset [(a, off, f)] naming a
    prepended axis gives fragmentation [f], global extent [f * 1] and
    global offset [off * 1] there, so the single prepend offset (0, 2, 5)
    yields [global_shape[0] = 5 * 1] and [global_offset[0] = 2 * 1]. *)
Theorem C3_to_dialect_a_geometry :
  forall (k : string) (t : TorchShardedTensor) (prepend : list RankOffset)
         (prefix : string) (allow : bool) (descs : list ShardedTensor),
    _torch_to_mcore_sharded_tensor k t prepend prefix allow = Ok descs ->
    let p := List.length prepend in
    exists fr : list Z,
      (List.length fr = List.length (size t) /\
       forall j g, nth_error (size t) j = Some g ->
         exists ls0 s,
           nth_error (local_shards t) 0 = Some ls0 /\
           nth_error (shard_sizes (metadata ls0)) j = Some s /\ s <> 0 /\
           nth_error fr j = Some (g / s)) /\
      _torch_to_mcore_sharded_tensor k t prepend prefix (negb allow)
      = Ok (List.map (with_allow (negb allow)) descs) /\
      Forall2
        (fun ls d =>
           (prepend_axis_num d = p /\ allow_shape_mismatch d = allow /\
            key d = (prefix ++ k)%string) /\
           (forall j f, nth_error fr j = Some f ->
              exists o s e,
                nth_error (shard_offsets (metadata ls)) j = Some o /\
                nth_error (shard_sizes (metadata ls)) j = Some s /\ s <> 0 /\
                nth_error (shape (tensor ls)) j = Some e /\
                nth_error (axis_fragmentations d) (p + j) = Some f /\
                nth_error (global_shape d) (p + j) = Some (f * e) /\
                nth_error (global_offset d) (p + j) = Some (o / s * e) /\
                (forall g, nth_error (size t) j = Some g ->
                   (nth_error (global_shape d) (p + j) = Some g <-> f * e = g))) /\
           (forall a off f, In (a, off, f) prepend -> a < Z.of_nat p ->
              nth_error (axis_fragmentations d) (Z.to_nat a) = Some f /\
              nth_error (global_shape d) (Z.to_nat a) = Some (f * 1) /\
              nth_error (global_offset d) (Z.to_nat a) = Some (off * 1)) /\
           (prepend = [(0, 2, 5)] ->
              nth_error (global_shape d) 0 = Some (5 * 1) /\
              nth_error (global_offset d) 0 = Some (2 * 1)))
        (local_shards t) descs.
Proof.
  intros k t prepend prefix allow descs H p.
  destruct (torch_to_mcore_Ok _ _ _ _ _ _ H) as (Hp & fr & Hfr & Hl).
  exists fr. split; [|split].
  - destruct (axis_fragm_of_Ok _ _ _ Hfr) as (L & N). split; [exact L|].
    intros j g Hg.
    assert (Hj : (j < List.length (size t))%nat) by (apply nth_error_Some; congruence).
    destruct (N j Hj) as (g' & ls0 & s & Hg' & H0 & Hs & Hnz & Hq).
    assert (g' = g) by congruence. subst g'. exists ls0, s. auto.
  - apply torch_to_mcore_allow with (a := allow). assumption.
  - apply shards_loop_Ok in Hl.
    eapply Forall2_impl; [|exact Hl].
    intros ls d (new & Hnew & Hd). simpl in *.
    destruct (from_rank_offsets_Ok _ _ _ _ _ _ _ Hd) as ((K1 & _ & _ & _ & _ & K2 & K3) & _).
    destruct (descriptor_geometry _ _ _ _ _ _ _ Hnew Hd) as (G1 & G2 & _).
    split; [auto|]. split; [|split].
    + intros j f Hf. destruct (G1 j f Hf) as (o & s & e & Ho & Hs & Hnz & He & A & B & C).
      exists o, s, e. fold p in A, B, C. repeat (split; [assumption|]).
      intros g Hg. rewrite B. split; intros E; [inversion E; reflexivity | congruence].
    + intros a off f Hin Ha. apply (G2 a off f Hin Ha).
    + intros E. destruct (G2 0 2 5) as (_ & B & C).
      * rewrite E. simpl. auto.
      * subst p. rewrite E. simpl. lia.
      * simpl in B, C. auto.
Qed.

(** C3 at the second of three row blocks of a 12 x 4 matrix, stacked as
    layer 2 of 5. *)
Lemma C3_witness :
  exists descs,
    _torch_to_mcore_sharded_tensor "w" even_tensor [(0, 2, 5)] EmptyString false = Ok descs /\
    exists fr : list Z,
      (List.length fr = List.length (size even_tensor) /\
       forall j g, nth_error (size even_tensor) j = Some g ->
         exists ls0 s,
           nth_error (local_shards even_tensor) 0 = Some ls0 /\
           nth_error (shard_sizes (metadata ls0)) j = Some s /\ s <> 0 /\
           nth_error fr j = Some (g / s)) /\
      _torch_to_mcore_sharded_tensor "w" even_tensor [(0, 2, 5)] EmptyString (negb false)
      = Ok (List.map (with_allow (negb false)) descs) /\
      Forall2
        (fun ls d =>
           (prepend_axis_num d = 1%nat /\ allow_shape_mismatch d = false /\
            key d = "w"%string) /\
           (forall j f, nth_error fr j = Some f ->
              exists o s e,
                nth_error (shard_offsets (metadata ls)) j = Some o /\
                nth_error (shard_sizes (metadata ls)) j = Some s /\ s <> 0 /\
                nth_error (shape (tensor ls)) j = Some e /\
                nth_error (axis_fragmentations d) (1 + j) = Some f /\
                nth_error (global_shape d) (1 + j) = Some (f * e) /\
                nth_error (global_offset d) (1 + j) = Some (o / s * e) /\
                (forall g, nth_error (size even_tensor) j = Some g ->
                   (nth_error (global_shape d) (1 + j) = Some g <-> f * e = g))) /\
           (forall a off f, In (a, off, f) [(0, 2, 5)] -> a < Z.of_nat 1 ->
              nth_error (axis_fragmentations d) (Z.to_nat a) = Some f /\
              nth_error (global_shape d) (Z.to_nat a) = Some (f * 1) /\
              nth_error (global_offset d) (Z.to_nat a) = Some (off * 1)) /\
           ([(0, 2, 5)] = [(0, 2, 5)] ->
              nth_error (global_shape d) 0 = Some (5 * 1) /\
              nth_error (global_offset d) 0 = Some (2 * 1)))
        (local_shards even_tensor) descs.
Proof.
  eexists. split; [reflexivity|].
  apply (C3_to_dialect_a_geometry "w" even_tensor [(0, 2, 5)] EmptyString false).
  reflexivity.
Defined.

(** C3 as stated fails: with a length-10 axis held in a chunk of 3 the
    conversion succeeds whether or not a shape mismatch is allowed, nothing
    checks that 3 divides 10, the fragmentation is the truncated 3, and the
    descriptor's global shape is (9,), not the declared (10,). *)
Lemma C3_counterexample :
  _torch_to_mcore_sharded_tensor "w" uneven_tensor [] EmptyString false
  = Ok [mkShardedTensor "w" (Some (mkTensor 1 [3] 0)) 0 [3] [9] [0] [3]
          (ReplicaInt 0) 0 false] /\
  _torch_to_mcore_sharded_tensor "w" uneven_tensor [] EmptyString true
  = Ok [mkShardedTensor "w" (Some (mkTensor 1 [3] 0)) 0 [3] [9] [0] [3]
          (ReplicaInt 0) 0 true] /\
  size uneven_tensor = [10] /\ 10 mod 3 <> 0.
Proof.
  split; [reflexivity|]. split; [reflexivity|]. split; [reflexivity|]. discriminate.
Qed.

(** The list [rank_offsets] is created once, before the loop over the
    local shards: the second shard of a tensor with an axis is handed the
    first shard's triples as well, and the axis is named twice. *)
Example two_local_shards_rejected :
  _torch_to_mcore_sharded_tensor "w" two_shard_tensor [] EmptyString false
  = Raise CheckpointingException.
Proof. reflexivity. Qed.

(** ** C1: toDialectA followed by toDialectB *)

Lemma shards_loop_single (k prefix : string) (prepend : list RankOffset) (allow : bool)
      (fr : list Z) (shards : list Shard) (descs : list ShardedTensor) :
  shards_loop k prefix prepend allow fr shards [] = Ok descs ->
  fr <> [] -> (List.length shards <= 1)%nat.
Proof.
  intros H Hfr.
  destruct shards as [|ls1 [|ls2 rest]]; simpl; try lia.
  exfalso. simpl in H.
  bind_as H new1 Hnew1. bind_as H d1 Hd1. bind_as H ds Hds.
  bind_as Hds new2 Hnew2. bind_as Hds d2 Hd2.
  destruct (shard_rank_offsets_Ok _ _ _ _ Hnew1) as (L1 & N1).
  destruct (shard_rank_offsets_Ok _ _ _ _ Hnew2) as (L2 & N2).
  assert (Hlen : (0 < List.length fr)%nat) by (destruct fr; [contradiction | simpl; lia]).
  destruct (N1 _ Hlen) as (o1 & s1 & f1 & _ & _ & _ & _ & E1).
  destruct (N2 _ Hlen) as (o2 & s2 & f2 & _ & _ & _ & _ & E2).
  apply (from_rank_offsets_twice (prefix ++ k) (tensor ls2) prepend
           new1 new2 (ReplicaInt 0) (List.length prepend) allow
           _ _ d2 E1 E2 eq_refl).
  exact Hd2.
Qed.

Lemma zip_loop_Ok (tens : list Tensor) :
  forall (descs : list ShardedTensor),
    List.length tens = List.length descs ->
    snd (zip_loop tens descs) = Ok tt ->
    fst (zip_loop tens descs)
    = List.map (fun x => rebind (fst x) (snd x)) (combine tens descs) /\
    Forall (fun x => consistent (rebind (fst x) (snd x))) (combine tens descs).
Proof.
  induction tens as [|ten tens IH]; intros [|d descs] Hlen H; simpl in *;
    try discriminate; auto.
  destruct (Mcore.validate_metadata_integrity (rebind ten d)) as [[]|e] eqn:E;
    simpl in *; [|discriminate].
  destruct (IH descs) as (F & C); [lia | assumption |].
  rewrite F. split; [reflexivity|].
  constructor; [apply validate_Ok_iff; assumption | assumption].
Qed.

Lemma mapM_to_local_shard (pl : string) (tens : list Tensor) :
  forall (descs : list ShardedTensor) (rs : list Shard),
    mapM (Mcore.to_local_shard pl)
         (List.map (fun x => rebind (fst x) (snd x)) (combine tens descs)) = Ok rs ->
    List.map shard_geometry rs
    = List.map (fun d => (skipn (prepend_axis_num d) (global_offset d), local_shape d))
               (firstn (List.length tens) descs).
Proof.
  induction tens as [|ten tens IH]; intros [|d descs] rs H; simpl in *;
    try (inversion H; reflexivity).
  bind_as H rs' Hrs. inversion H; subst. simpl.
  unfold shard_geometry at 1. simpl. f_equal. apply IH. assumption.
Qed.

Lemma Forall2_impl_In_l {A B : Type} (P Q : A -> B -> Prop) (l : list A) (l' : list B) :
  Forall2 P l l' -> (forall a b, In a l -> P a b -> Q a b) -> Forall2 Q l l'.
Proof.
  induction 1 as [|a b l l' Hab _ IH]; intros Himp; constructor.
  - apply Himp; simpl; auto.
  - apply IH. intros; apply Himp; simpl; auto.
Qed.

Lemma div_mul_exact (g s : Z) : s <> 0 -> g mod s = 0 -> g / s * s = g.
Proof.
  intros Hs Hm. apply Z.div_exact in Hm; [|assumption]. lia.
Qed.

Lemma list_Z_eqb_refl (l : list Z) : Mcore.list_Z_eqb l l = true.
Proof.
  unfold Mcore.list_Z_eqb. destruct (list_eq_dec Z.eq_dec l l); [reflexivity | contradiction].
Qed.

Lemma rebind_consistent (ten : Tensor) (d : ShardedTensor) :
  consistent d -> shape ten = local_shape d -> ten_dtype ten = dtype d ->
  consistent (rebind ten d).
Proof.
  intros (_ & L1 & L2 & Hdiv) Hs Hd. unfold consistent, rebind, Mcore.data_matches.
  simpl. split; [|split; [|split]].
  - rewrite Hs, Hd, Nat.eqb_refl, list_Z_eqb_refl. reflexivity.
  - rewrite !length_skipn. lia.
  - rewrite length_skipn. lia.
  - exact Hdiv.
Qed.

Lemma zip_loop_succeeds (tens : list Tensor) :
  forall (descs : list ShardedTensor),
    Forall2 (fun ten d => shape ten = local_shape d /\ ten_dtype ten = dtype d) tens descs ->
    Forall consistent descs ->
    snd (zip_loop tens descs) = Ok tt.
Proof.
  induction tens as [|ten tens IH]; intros descs HF HC; inversion HF; subst;
    [reflexivity|].
  simpl. destruct H1 as (Hs & Hd).
  pose proof (rebind_consistent ten y (Forall_inv HC) Hs Hd) as Hc.
  apply validate_Ok_iff in Hc. rewrite Hc. simpl.
  apply IH; [assumption | exact (Forall_inv_tail HC)].
Qed.

Lemma mapM_to_local_shard_succeeds (pl : string) (tens : list Tensor) :
  forall (descs : list ShardedTensor),
    exists rs,
      mapM (Mcore.to_local_shard pl)
           (List.map (fun x => rebind (fst x) (snd x)) (combine tens descs)) = Ok rs.
Proof.
  induction tens as [|ten tens IH]; intros [|d descs]; simpl; eauto.
  destruct (IH descs) as (rs & Hrs). rewrite Hrs. simpl. eauto.
Qed.

Lemma produced_consistent (k : string) (t : TorchShardedTensor) (prepend : list RankOffset)
      (prefix : string) (allow : bool) (l : list ShardedTensor) :
  _torch_to_mcore_sharded_tensor k t prepend prefix allow = Ok l ->
  Forall consistent l /\ List.length l = List.length (local_shards t).
Proof.
  intros H. destruct (torch_to_mcore_Ok _ _ _ _ _ _ H) as (_ & fr & _ & Hl).
  apply shards_loop_Ok in Hl. clear H. split.
  - induction Hl as [|ls d shards ds (new & _ & Hd) _ IH]; constructor; [|exact IH].
    apply (from_rank_offsets_Ok _ _ _ _ _ _ _ Hd).
  - symmetry. eapply Forall2_length. exact Hl.
Qed.

(** C1 (amended).  For a Dialect-B tensor that is cut evenly, the
    descriptors [_torch_to_mcore_sharded_tensor] returns, handed to
    [_mcore_to_pyt_sharded_tensor] with as many buffers, give back a
    Dialect-B tensor with the original global shape and, shard by shard,
    the original offsets and extents; and they do give one back when the
    tensor has a local shard and each buffer has the shape and element type
    of its descriptor. *)
Theorem C1_round_trip :
  forall (my_placement k : string) (t : TorchShardedTensor) (prepend : list RankOffset)
         (prefix : string) (allow : bool) (descs : list ShardedTensor)
         (tens : list Tensor),
    evenly_sharded t ->
    _torch_to_mcore_sharded_tensor k t prepend prefix allow = Ok descs ->
    List.length tens = List.length descs ->
    (forall r,
       snd (_mcore_to_pyt_sharded_tensor my_placement tens descs) = Ok r ->
       size r = size t /\
       List.map shard_geometry (local_shards r)
       = List.map shard_geometry (local_shards t)) /\
    (local_shards t <> [] ->
     Forall2 (fun ten d => shape ten = local_shape d /\ ten_dtype ten = dtype d)
             tens descs ->
     exists r, snd (_mcore_to_pyt_sharded_tensor my_placement tens descs) = Ok r).
Proof.
  intros pl k t prepend prefix allow descs tens Hev HA Hlen.
  split.
  2:{ intros Hne HF.
      destruct (produced_consistent _ _ _ _ _ _ HA) as (HC & HL).
      pose proof (zip_loop_succeeds _ _ HF HC) as Hz.
      unfold _mcore_to_pyt_sharded_tensor. simpl. rewrite Hz. simpl.
      destruct (zip_loop_Ok _ _ Hlen Hz) as (Hfst & _). rewrite Hfst.
      unfold Mcore.sharded_tensor_to_torch_sharded_tensor.
      destruct (mapM_to_local_shard_succeeds pl tens descs) as (rs & Hrs).
      rewrite Hrs.
      destruct tens as [|ten tens], descs as [|d ds]; simpl in *; try discriminate.
      - exfalso. destruct (local_shards t); [contradiction | discriminate].
      - eauto. }
  intros r HB.
  destruct (torch_to_mcore_Ok _ _ _ _ _ _ HA) as (_ & fr & Hfr & Hl).
  destruct (axis_fragm_of_Ok _ _ _ Hfr) as (Lfr & Nfr).
  pose proof (shards_loop_Ok _ _ _ _ _ _ _ Hl) as HF.
  set (p := List.length prepend) in *.
  (* what every descriptor looks like behind its prepended axes *)
  assert (HR : Forall2 (fun ls d =>
              prepend_axis_num d = p /\
              skipn p (global_shape d) = size t /\
              skipn p (global_offset d) = shard_offsets (metadata ls) /\
              local_shape d = shard_sizes (metadata ls)) (local_shards t) descs).
  { assert (Hone : fr <> [] -> (List.length (local_shards t) <= 1)%nat)
      by (apply (shards_loop_single _ _ _ _ _ _ _ Hl)).
    unfold evenly_sharded in Hev. rewrite Forall_forall in Hev.
    apply (Forall2_impl_In_l _ _ _ _ HF).
    intros ls d Hin (new & Hnew & Hd).
    destruct (from_rank_offsets_Ok _ _ _ _ _ _ _ Hd) as ((_ & _ & _ & K4 & _ & K6 & _) & _).
    destruct (descriptor_geometry _ _ _ _ _ _ _ Hnew Hd) as (G1 & _ & (M1 & M2 & _)).
    fold p in G1, M1, M2, K6.
    destruct (Hev ls Hin) as (E1 & E2 & E3 & E4).
    assert (Hls0 : fr <> [] -> nth_error (local_shards t) 0 = Some ls).
    { intros Hne. specialize (Hone Hne).
      destruct (local_shards t) as [|x [|y rest]]; simpl in *; try lia; try contradiction.
      destruct Hin as [->|[]]. reflexivity. }
    split; [assumption|]. split; [|split].
    - apply nth_error_ext. intros j. rewrite nth_error_skipn.
      destruct (nth_error (size t) j) as [g|] eqn:Hg.
      + assert (Hj : (j < List.length (size t))%nat) by (apply nth_error_Some; congruence).
        destruct (Nfr j Hj) as (g' & ls0 & s0 & Hg' & H0 & Hs0 & Hnz0 & Hq).
        assert (g' = g) by congruence. subst g'.
        assert (Hne : fr <> []) by (intros ->; simpl in Lfr; lia).
        rewrite (Hls0 Hne) in H0. inversion H0; subst ls0.
        destruct (G1 _ _ Hq) as (o & s & e & Ho & Hs & Hnz & He & _ & B & _).
        rewrite E3 in He. assert (s = s0) by congruence. assert (e = s0) by congruence.
        subst s e. destruct (E4 j g o s0 Hg Ho Hs) as (D1 & _).
        rewrite B. f_equal. apply div_mul_exact; assumption.
      + apply nth_error_None in Hg. apply nth_error_None.
        rewrite M1, E3, E2. lia.
    - apply nth_error_ext. intros j. rewrite nth_error_skipn.
      destruct (nth_error fr j) as [f|] eqn:Hf.
      + destruct (G1 _ _ Hf) as (o & s & e & Ho & Hs & Hnz & He & _ & _ & C).
        rewrite E3 in He. assert (e = s) by congruence. subst e.
        assert (Hj : (j < List.length (size t))%nat)
          by (rewrite <- Lfr; apply nth_error_Some; congruence).
        destruct (nth_error (size t) j) as [g|] eqn:Hg;
          [|apply nth_error_None in Hg; lia].
        destruct (E4 j g o s Hg Ho Hs) as (_ & D2).
        rewrite C, Ho. f_equal. apply div_mul_exact; assumption.
      + apply nth_error_None in Hf. rewrite E3 in M2.
        transitivity (@None Z); [|symmetry]; apply nth_error_None; lia.
    - rewrite K4. exact E3. }
  (* the load direction *)
  unfold _mcore_to_pyt_sharded_tensor in HB. simpl in HB.
  destruct (snd (zip_loop tens descs)) as [[]|e] eqn:Hz; simpl in HB; [|discriminate].
  destruct (zip_loop_Ok _ _ Hlen Hz) as (Hfst & _).
  rewrite Hfst in HB. unfold Mcore.sharded_tensor_to_torch_sharded_tensor in HB.
  bind_as HB d0 Hd0. bind_as HB rs Hrs. inversion HB; subst r. simpl.
  apply mapM_to_local_shard in Hrs.
  rewrite Hlen, firstn_all in Hrs.
  split.
  - apply getitem_Ok in Hd0.
    destruct tens as [|ten tens], descs as [|d ds]; simpl in *; try discriminate.
    inversion Hd0; subst d0. simpl.
    inversion HR as [|? ? ? ? (P1 & P2 & _) _]; subst. rewrite P1. exact P2.
  - rewrite Hrs. clear - HR.
    induction HR as [|ls d shards ds (P1 & _ & P3 & P4) _ IH]; simpl; [reflexivity|].
    rewrite P1, P3, P4. unfold shard_geometry at 2. f_equal. exact IH.
Qed.

Lemma even_tensor_evenly_sharded : evenly_sharded even_tensor.
Proof.
  unfold evenly_sharded, even_tensor; simpl.
  constructor; [|constructor]. simpl.
  split; [reflexivity|]. split; [reflexivity|]. split; [reflexivity|].
  intros [|[|j]] g o s Hg Ho Hs; simpl in *;
    try (destruct j; discriminate);
    inversion Hg; inversion Ho; inversion Hs; subst; split; reflexivity.
Qed.

(** C1 at the second of three row blocks of a 12 x 4 matrix, stacked as
    layer 2 of 5 and loaded back into a fresh buffer. *)
Lemma C1_witness :
  exists descs r,
    _torch_to_mcore_sharded_tensor "w" even_tensor [(0, 2, 5)] EmptyString false = Ok descs /\
    snd (_mcore_to_pyt_sharded_tensor "rank:1/cuda" [mkTensor 9 [4; 4] 0] descs) = Ok r /\
    size r = size even_tensor /\
    List.map shard_geometry (local_shards r)
    = List.map shard_geometry (local_shards even_tensor).
Proof.
  eexists. eexists. split; [reflexivity|]. split; [reflexivity|].
  eapply (proj1 (C1_round_trip "rank:1/cuda" "w" even_tensor [(0, 2, 5)] EmptyString
                   false _ [mkTensor 9 [4; 4] 0] even_tensor_evenly_sharded
                   eq_refl eq_refl)).
  reflexivity.
Defined.

(** C1 as stated fails: a length-10 axis held in a chunk of 3 comes back
    from the round trip with global shape (9,). *)
Lemma C1_counterexample :
  exists descs r,
    _torch_to_mcore_sharded_tensor "w" uneven_tensor [] EmptyString false = Ok descs /\
    snd (_mcore_to_pyt_sharded_tensor "rank:0/cuda" [mkTensor 1 [3] 0] descs) = Ok r /\
    size r = [9] /\ size uneven_tensor = [10].
Proof.
  eexists. eexists. split; [reflexivity|]. split; [reflexivity|].
  split; reflexivity.
Qed.

(** ** C8: how toDialectB pairs buffers with descriptors *)

Lemma zip_loop_fst_Ok (tens : list Tensor) :
  forall (descs : list ShardedTensor),
    snd (zip_loop tens descs) = Ok tt ->
    fst (zip_loop tens descs)
    = List.map (fun x => rebind (fst x) (snd x)) (combine tens descs)
      ++ skipn (List.length tens) descs.
Proof.
  induction tens as [|ten tens IH]; intros [|d descs] H; simpl in *; auto.
  destruct (Mcore.validate_metadata_integrity (rebind ten d)) as [[]|e];
    simpl in *; [|discriminate].
  rewrite IH by assumption. reflexivity.
Qed.

Lemma zip_loop_Raise (tens : list Tensor) :
  forall (descs : list ShardedTensor) (e : exn),
    snd (zip_loop tens descs) = Raise e ->
    exists i ten d,
      nth_error tens i = Some ten /\ nth_error descs i = Some d /\
      Mcore.validate_metadata_integrity (rebind ten d) = Raise e.
Proof.
  induction tens as [|ten tens IH]; intros [|d descs] e H; simpl in *;
    try discriminate.
  destruct (Mcore.validate_metadata_integrity (rebind ten d)) as [[]|e'] eqn:E;
    simpl in *.
  - destruct (IH _ _ H) as (i & ten' & d' & H1 & H2 & H3).
    exists (S i), ten', d'. auto.
  - inversion H; subst. exists 0%nat, ten, d. auto.
Qed.

Lemma zip_loop_firstn (tens : list Tensor) :
  forall (descs : list ShardedTensor),
    let m := Nat.min (List.length tens) (List.length descs) in
    snd (zip_loop tens descs) = snd (zip_loop (firstn m tens) (firstn m descs)).
Proof.
  induction tens as [|ten tens IH]; intros [|d descs]; simpl; auto.
  destruct (Mcore.validate_metadata_integrity (rebind ten d)) as [[]|e];
    simpl; [apply IH | reflexivity].
Qed.

(** C8 (amended).  [_mcore_to_pyt_sharded_tensor] does not compare the
    lengths of the two sequences: [zip] pairs them position by position up
    to the shorter one, so the loop ends the same way as on the two
    sequences cut to the shorter length, and when it fails the error is the
    validation error of some pair.  When the loop succeeds every paired
    descriptor has been rebound to its buffer and every descriptor beyond
    the buffers is left as it was; with equal lengths the i-th descriptor
    holds the i-th buffer. *)
Theorem C8_pairing :
  forall (tens : list Tensor) (descs : list ShardedTensor),
    snd (zip_loop tens descs)
    = snd (zip_loop (firstn (Nat.min (List.length tens) (List.length descs)) tens)
                    (firstn (Nat.min (List.length tens) (List.length descs)) descs)) /\
    (forall e, snd (zip_loop tens descs) = Raise e ->
       exists i ten d,
         nth_error tens i = Some ten /\ nth_error descs i = Some d /\
         Mcore.validate_metadata_integrity (rebind ten d) = Raise e) /\
    (snd (zip_loop tens descs) = Ok tt ->
       fst (zip_loop tens descs)
       = List.map (fun x => rebind (fst x) (snd x)) (combine tens descs)
         ++ skipn (List.length tens) descs) /\
    (snd (zip_loop tens descs) = Ok tt ->
     List.length tens = List.length descs ->
     forall i ten d,
       nth_error tens i = Some ten -> nth_error descs i = Some d ->
       exists d', nth_error (fst (zip_loop tens descs)) i = Some d' /\
                  d' = rebind ten d /\ data d' = Some ten).
Proof.
  intros tens descs. split; [apply zip_loop_firstn|].
  split; [apply zip_loop_Raise|]. split; [apply zip_loop_fst_Ok|].
  intros Hok Hlen i ten d Ht Hd.
  exists (rebind ten d). split; [|split; reflexivity].
  rewrite zip_loop_fst_Ok by assumption.
  rewrite Hlen, skipn_all, app_nil_r.
  clear Hok. revert descs i Hlen Ht Hd.
  induction tens as [|t0 tens IH]; intros [|d0 descs] i Hlen Ht Hd;
    destruct i; simpl in *; try discriminate.
  - inversion Ht; inversion Hd; subst. reflexivity.
  - apply IH; auto.
Qed.

(** C8 as stated fails: two buffers against one descriptor raise nothing;
    the first buffer is bound, the second ignored, and the Dialect-B tensor
    is built. *)
Lemma C8_counterexample :
  List.length [mkTensor 7 [3] 0; mkTensor 8 [3] 0] <> List.length [chunk_descriptor] /\
  _mcore_to_pyt_sharded_tensor "rank:0/cuda"
    [mkTensor 7 [3] 0; mkTensor 8 [3] 0] [chunk_descriptor]
  = ([rebind (mkTensor 7 [3] 0) chunk_descriptor],
     Ok (mkTorchShardedTensor [9]
           [mkShard (mkTensor 7 [3] 0) (mkShardMetadata [0] [3] "rank:0/cuda")])).
Proof.
  split; [discriminate | reflexivity].
Qed.

(** C8 at two buffers and two descriptors. *)
Lemma C8_witness :
  exists d',
    nth_error (fst (zip_loop [mkTensor 7 [3] 0; mkTensor 8 [3] 0]
                             [chunk_descriptor; chunk_descriptor])) 1 = Some d' /\
    d' = rebind (mkTensor 8 [3] 0) chunk_descriptor /\
    data d' = Some (mkTensor 8 [3] 0).
Proof.
  apply (proj2 (proj2 (proj2
           (C8_pairing [mkTensor 7 [3] 0; mkTensor 8 [3] 0]
                       [chunk_descriptor; chunk_descriptor])))).
  - reflexivity.
  - reflexivity.
  - reflexivity.
  - reflexivity.
Defined.

(** ** C5: the layer count *)

Lemma count_layers_cons (k : string) (rest : list string) (acc : Z) :
  count_layers (k :: rest) acc
  = if is_layer_key k
    then n <- layer_index k ;; count_layers rest (Z.max acc (n + 1))
    else count_layers rest acc.
Proof.
  unfold is_layer_key, layer_index. simpl.
  destruct (Py.startswith k layer_prefix); [|reflexivity].
  destruct (Py.getitem (Py.split_dot k) 3); reflexivity.
Qed.

Lemma count_layers_app (l1 l2 : list string) :
  forall acc, count_layers (l1 ++ l2) acc = (r <- count_layers l1 acc ;; count_layers l2 r).
Proof.
  induction l1 as [|k l1 IH]; intros acc; [reflexivity|].
  rewrite <- app_comm_cons, !count_layers_cons.
  destruct (is_layer_key k); [|apply IH].
  destruct (layer_index k) as [n|e]; simpl; [apply IH | reflexivity].
Qed.

Lemma count_layers_max (keys : list string) :
  forall acc,
    (forall k, In k keys -> is_layer_key k = true ->
               exists n, layer_index k = Ok n /\ 0 <= n) ->
    exists r,
      count_layers keys acc = Ok r /\ acc <= r /\
      (r = acc \/
       exists k, In k keys /\ is_layer_key k = true /\ layer_index k = Ok (r - 1)) /\
      (forall k n, In k keys -> is_layer_key k = true -> layer_index k = Ok n ->
                   n + 1 <= r).
Proof.
  induction keys as [|k keys IH]; intros acc Hconv.
  - exists acc. simpl. split; [reflexivity|]. split; [lia|].
    split; [left; reflexivity|]. intros ? ? [].
  - rewrite count_layers_cons.
    assert (Hconv' : forall k', In k' keys -> is_layer_key k' = true ->
                                exists n, layer_index k' = Ok n /\ 0 <= n)
      by (intros; apply Hconv; simpl; auto).
    destruct (is_layer_key k) eqn:Hk.
    + destruct (Hconv k (or_introl eq_refl) Hk) as (n & Hn & Hn0).
      rewrite Hn. simpl.
      destruct (IH (Z.max acc (n + 1)) Hconv') as (r & Hr & Hle & Hor & Hall).
      exists r. split; [assumption|]. split; [lia|]. split.
      * destruct Hor as [E|(k' & Hin & Hk' & Hi)].
        -- destruct (Z.max_spec acc (n + 1)) as [[_ M]|[_ M]].
           ++ right. exists k. split; [simpl; auto|]. split; [assumption|].
              rewrite Hn. f_equal. lia.
           ++ left. lia.
        -- right. exists k'. simpl; auto.
      * intros k' n' [<-|Hin] Hk' Hi.
        -- rewrite Hn in Hi. inversion Hi; subst. lia.
        -- eapply Hall; eauto.
    + destruct (IH acc Hconv') as (r & Hr & Hle & Hor & Hall).
      exists r. split; [assumption|]. split; [assumption|]. split.
      * destruct Hor as [E|(k' & Hin & Hk' & Hi)]; [left; assumption|].
        right. exists k'. simpl; auto.
      * intros k' n' [<-|Hin] Hk' Hi; [congruence|]. eapply Hall; eauto.
Qed.

(** C5.  On a state dict whose layer-stack keys (those starting with
    "module.decoder.layers.") carry a non-negative integer N as their fourth
    dot-separated component, and which has at least one such key, the first
    loop of [pyt_to_mcore_state_dict] returns max(N) + 1: the result minus
    one is the index of some layer key and no layer key has a larger index.
    Given the keys module.decoder.layers.0.x and module.decoder.layers.3.y
    it returns 4.  The scan is a function of the key sequence that goes
    through it once, left to right: scanning a concatenation is scanning
    the first part and continuing on the second with the count reached. *)
Theorem C5_layer_count :
  (forall (state_dict : list (string * value)),
     (forall k, In k (dict_keys state_dict) -> is_layer_key k = true ->
                exists n, layer_index k = Ok n /\ 0 <= n) ->
     (exists k, In k (dict_keys state_dict) /\ is_layer_key k = true) ->
     exists r,
       count_layers (dict_keys state_dict) 0 = Ok r /\
       (exists k, In k (dict_keys state_dict) /\ is_layer_key k = true /\
                  layer_index k = Ok (r - 1)) /\
       (forall k n, In k (dict_keys state_dict) -> is_layer_key k = true ->
                    layer_index k = Ok n -> n + 1 <= r)) /\
  count_layers ["module.decoder.layers.0.x"; "module.decoder.layers.3.y"]%string 0
  = Ok 4 /\
  (forall (l1 l2 : list string) (acc : Z),
     count_layers (l1 ++ l2) acc = (r <- count_layers l1 acc ;; count_layers l2 r)).
Proof.
  split; [|split; [reflexivity | intros; apply count_layers_app]].
  intros sd Hconv (k0 & Hin0 & Hk0).
  destruct (count_layers_max (dict_keys sd) 0 Hconv) as (r & Hr & Hle & Hor & Hall).
  exists r. split; [assumption|]. split; [|assumption].
  destruct Hor as [E|H]; [|assumption].
  exfalso. destruct (Hconv k0 Hin0 Hk0) as (n & Hn & Hn0).
  specialize (Hall k0 n Hin0 Hk0 Hn). lia.
Qed.

(** ** Nested state dicts *)

Lemma value_nested_ind (P : value -> Prop) :
  (forall d, Forall (fun kv => P (snd kv)) d -> P (VDict d)) ->
  (forall t, P (VTorch t)) ->
  (forall b, P (VBytes b)) ->
  (forall l, P (VShardedTensors l)) ->
  (forall o, P (VShardedObject o)) ->
  (forall t, P (VOther t)) ->
  forall v, P v.
Proof.
  intros HD HT HB HL HO HX.
  fix IH 1. intros [d|t|b|l|o|t];
    [|apply HT|apply HB|apply HL|apply HO|apply HX].
  apply HD. induction d as [|[k v] d IHd]; constructor; [apply IH | exact IHd].
Qed.

Lemma leaves_VDict (P : ShardedTensor -> Prop) (Q : ShardedObject -> Prop)
      (d : list (string * value)) :
  leaves P Q (VDict d) <-> Forall (fun kv => leaves P Q (snd kv)) d.
Proof.
  simpl. induction d as [|[k v] d IH]; simpl.
  - split; auto.
  - rewrite IH. split.
    + intros [H1 H2]. constructor; assumption.
    + intros H. inversion H; subst. auto.
Qed.

Lemma leaves_impl (P P' : ShardedTensor -> Prop) (Q Q' : ShardedObject -> Prop) :
  (forall d, P d -> P' d) -> (forall o, Q o -> Q' o) ->
  forall v, leaves P Q v -> leaves P' Q' v.
Proof.
  intros HP HQ. induction v as [d IH|t|b|l|o|t] using value_nested_ind;
    intros H; try exact I.
  - apply leaves_VDict. apply leaves_VDict in H.
    induction IH as [|kv d Hkv _ IHd]; inversion H; subst; constructor; auto.
  - simpl in *. eapply Forall_impl; eauto.
  - simpl in *. auto.
Qed.

Lemma dict_setitem_Forall {V : Type} (P : V -> Prop) (d : list (string * V))
      (k : string) (v : V) :
  Forall (fun kv => P (snd kv)) d -> P v ->
  Forall (fun kv => P (snd kv)) (dict_setitem d k v).
Proof.
  induction d as [|[k' v'] d IH]; intros Hd Hv; simpl.
  - constructor; auto.
  - inversion Hd; subst. destruct (String.eqb k k'); constructor; auto.
Qed.

Lemma dict_setitem_keys {V : Type} (d : list (string * V)) (k : string) (v : V) :
  In k (dict_keys d) -> dict_keys (dict_setitem d k v) = dict_keys d.
Proof.
  induction d as [|[k' v'] d IH]; intros Hin; simpl in *; [contradiction|].
  destruct (String.eqb_spec k k') as [E|E]; simpl; [reflexivity|].
  f_equal. apply IH. destruct Hin as [E'|Hin]; [congruence | assumption].
Qed.

Lemma dict_setitem_middle {V : Type} (done rest : list (string * V)) (k : string) (v v' : V) :
  ~ In k (dict_keys done) ->
  dict_setitem (done ++ (k, v) :: rest) k v' = done ++ (k, v') :: rest.
Proof.
  induction done as [|[k0 v0] done IH]; intros Hn; simpl in *.
  - rewrite String.eqb_refl. reflexivity.
  - destruct (String.eqb_spec k k0) as [E|E]; [exfalso; auto|].
    f_equal. apply IH. auto.
Qed.

(** ** The walk of [pyt_to_mcore_state_dict] *)

Lemma convert_save_VDict (dp : Z) (items sd : list (string * value)) (k sh_key : string)
      (prepend : list RankOffset) (prefix : string) (allow : bool) :
  convert_save dp (VDict items) sd k sh_key prepend prefix allow
  = (v' <- convert_items dp sh_key prepend allow prefix items items ;;
     Ok (dict_setitem sd k (VDict v'))).
Proof. reflexivity. Qed.

Lemma produced_descriptors (k : string) (t : TorchShardedTensor) (prepend : list RankOffset)
      (prefix : string) (allow : bool) (l : list ShardedTensor) :
  _torch_to_mcore_sharded_tensor k t prepend prefix allow = Ok l ->
  Forall (tensor_made (List.length prepend) allow) l.
Proof.
  intros H. destruct (torch_to_mcore_Ok _ _ _ _ _ _ H) as (_ & fr & _ & Hl).
  apply shards_loop_Ok in Hl. clear H.
  induction Hl as [|ls d shards ds (new & _ & Hd) _ IH]; constructor; [|exact IH].
  destruct (from_rank_offsets_Ok _ _ _ _ _ _ _ Hd) as ((_ & _ & _ & _ & R & N & A) & _).
  unfold tensor_made. auto.
Qed.

Lemma produced_object (dp : Z) (k : string) (b : BytesIO) (offs : list RankOffset)
      (prefix : string) (o : ShardedObject) :
  _torch_to_mcore_sharded_object dp k b offs prefix = Ok o -> object_made dp o.
Proof.
  unfold _torch_to_mcore_sharded_object, Mcore.new_ShardedObject. intros H.
  bind_as H r Hr. destruct (Nat.eqb _ _); [|discriminate].
  inversion H; subst. reflexivity.
Qed.

Section Walk.
Variable dp : Z.
Variable sh_key : string.
Variable prepend : list RankOffset.
Variable allow : bool.

Variable P : ShardedTensor -> Prop.
Variable Q : ShardedObject -> Prop.
Hypothesis tensors_made :
    forall t prefix l,
      _torch_to_mcore_sharded_tensor sh_key t prepend prefix allow = Ok l -> Forall P l.
Hypothesis objects_made :
    forall b prefix o,
      _torch_to_mcore_sharded_object dp sh_key b prepend prefix = Ok o -> Q o.

Lemma convert_save_keeps :
  forall (v : value) (sd : list (string * value)) (k prefix : string)
         (sd' : list (string * value)),
    leaves P Q v ->
    Forall (fun kv => leaves P Q (snd kv)) sd ->
    convert_save dp v sd k sh_key prepend prefix allow = Ok sd' ->
    Forall (fun kv => leaves P Q (snd kv)) sd'.
Proof.
  induction v as [d IH|t|b|l|o|t] using value_nested_ind;
    intros sd k prefix sd' Hv Hsd H.
  - rewrite convert_save_VDict in H. bind_as H v' Hv'. inversion H; subst.
    apply dict_setitem_Forall; [assumption|].
    apply leaves_VDict. apply leaves_VDict in Hv.
    assert (Hgen : forall items cur out,
               Forall (fun kv => forall sd k prefix sd',
                         leaves P Q (snd kv) ->
                         Forall (fun kv => leaves P Q (snd kv)) sd ->
                         convert_save dp (snd kv) sd k sh_key prepend prefix allow = Ok sd' ->
                         Forall (fun kv => leaves P Q (snd kv)) sd') items ->
               Forall (fun kv => leaves P Q (snd kv)) items ->
               Forall (fun kv => leaves P Q (snd kv)) cur ->
               convert_items dp sh_key prepend allow prefix items cur = Ok out ->
               Forall (fun kv => leaves P Q (snd kv)) out).
    { induction items as [|[kk vv] items IHi]; intros cur out HIH Hit Hcur Hrun;
        simpl in Hrun.
      - inversion Hrun; subst; assumption.
      - bind_as Hrun cur' Hcur'.
        apply (IHi cur' out (Forall_inv_tail HIH) (Forall_inv_tail Hit));
          [|exact Hrun].
        apply (Forall_inv HIH cur kk (prefix ++ kk ++ ".")%string cur'
                 (Forall_inv Hit) Hcur Hcur'). }
    apply (Hgen d d v'); assumption.
  - simpl in H. bind_as H l Hl. inversion H; subst.
    apply dict_setitem_Forall; [assumption|]. simpl.
    apply (tensors_made _ _ _ Hl).
  - simpl in H. bind_as H o Ho. inversion H; subst.
    apply dict_setitem_Forall; [assumption|]. simpl.
    apply (objects_made _ _ _ Ho).
  - simpl in H. inversion H; subst; assumption.
  - simpl in H. inversion H; subst; assumption.
  - simpl in H. inversion H; subst; assumption.
Qed.



End Walk.

Lemma pop_getitem {A : Type} (l : list A) :
  forall (i : nat) (r : A * list A), Py.pop l i = Ok r -> Py.getitem l i = Ok (fst r).
Proof.
  unfold Py.getitem.
  induction l as [|a l IH]; intros i r H; simpl in H; [discriminate|].
  destruct i as [|i]; simpl.
  - inversion H; reflexivity.
  - bind_as H r' Hr'. inversion H; subst; simpl. apply IH; assumption.
Qed.

Lemma key_args_Ok (k : string) (n : Z) (sh_key : string) (prepend : list RankOffset)
      (allow : bool) :
  key_args k n = Ok (sh_key, prepend, allow) ->
  allow = Py.endswith k vocab_suffix /\
  List.length prepend = (if is_layer_key k then 1%nat else 0%nat) /\
  (is_layer_key k = false -> sh_key = k /\ prepend = []) /\
  (is_layer_key k = true ->
   exists i, layer_index k = Ok i /\ prepend = [(0, i, n)]).
Proof.
  unfold key_args, is_layer_key, layer_index. intros H.
  destruct (Py.startswith k layer_prefix).
  - bind_as H r Hr. bind_as H off Hoff. inversion H; subst.
    split; [reflexivity|]. split; [reflexivity|]. split; [discriminate|].
    intros _. exists off. rewrite (pop_getitem _ _ _ Hr). simpl. auto.
  - inversion H; subst. split; [reflexivity|]. split; [reflexivity|].
    split; [auto | discriminate].
Qed.



Lemma pyt_to_mcore_Ok (dp : Z) (sd : list (string * value)) (prefix : string)
      (sd' : list (string * value)) :
  pyt_to_mcore_state_dict dp sd prefix = Ok sd' ->
  exists n, count_layers (dict_keys sd) 0 = Ok n /\ n <> 0 /\
            for_items dp sd sd n prefix = Ok sd'.
Proof.
  unfold pyt_to_mcore_state_dict, Py.assert_. intros H.
  bind_as H n Hn. exists n. destruct (Z.eqb_spec n 0); simpl in H; [discriminate|].
  auto.
Qed.


Ltac distinct_keys :=
  repeat (constructor;
          [simpl; let H := fresh in
                  intros H; repeat (destruct H as [H|H]; [discriminate H|]); exact H|]);
  constructor.

Lemma save_sample_keys : NoDup (dict_keys save_sample).
Proof. unfold save_sample, dict_keys; simpl. distinct_keys. Qed.

Lemma save_sample_fresh : fresh save_sample.
Proof. unfold fresh, dict_leaves, save_sample. repeat constructor. Qed.

(** ** C6: the layer-count assertion of splitForSave *)





(** ** C7: where allow_shape_mismatch comes from *)




(** ** C10: replica ids *)

Lemma for_items_keeps (dp n : Z) (prefix : string) (P : ShardedTensor -> Prop)
      (Q : ShardedObject -> Prop) :
  (forall k t prepend pre allow l,
     _torch_to_mcore_sharded_tensor k t prepend pre allow = Ok l -> Forall P l) ->
  (forall k b offs pre o,
     _torch_to_mcore_sharded_object dp k b offs pre = Ok o -> Q o) ->
  forall (items cur out : list (string * value)),
    Forall (fun kv => leaves P Q (snd kv)) items ->
    Forall (fun kv => leaves P Q (snd kv)) cur ->
    for_items dp items cur n prefix = Ok out ->
    Forall (fun kv => leaves P Q (snd kv)) out.
Proof.
  intros HP HQ. induction items as [|[k v] items IH]; intros cur out Hit Hcur H;
    simpl in H.
  - inversion H; subst; assumption.
  - bind_as H a Ha. destruct a as [[sh_key prepend] allow].
    bind_as H cur' Hcur'.
    apply (IH cur' out (Forall_inv_tail Hit)); [|exact H].
    apply (convert_save_keeps dp sh_key prepend allow P Q
             (fun t pre l => HP sh_key t prepend pre allow l)
             (fun b pre o => HQ sh_key b prepend pre o)
             v cur k prefix cur' (Forall_inv Hit) Hcur Hcur').
Qed.

(** C10.  Every Dialect-A tensor descriptor [_torch_to_mcore_sharded_tensor]
    builds has [replica_id = 0], and every opaque object shard
    [_torch_to_mcore_sharded_object] builds has
    [replica_id = (0, 0, data-parallel rank)], the rank being the one taken
    with context parallelism; hence, whatever that rank is, in the state
    dict [pyt_to_mcore_state_dict] returns for a state dict that held no
    Dialect-A leaf, all tensor descriptors and all object shards, at any
    depth, carry these replica ids. *)
Theorem C10_replica_ids :
  forall (data_parallel_rank : Z),
    (forall k t prepend prefix allow l,
       _torch_to_mcore_sharded_tensor k t prepend prefix allow = Ok l ->
       Forall (fun d => replica_id d = ReplicaInt 0) l) /\
    (forall k b offs prefix o,
       _torch_to_mcore_sharded_object data_parallel_rank k b offs prefix = Ok o ->
       obj_replica_id o = ReplicaTuple [0; 0; data_parallel_rank]) /\
    (forall state_dict prefix out,
       fresh state_dict ->
       pyt_to_mcore_state_dict data_parallel_rank state_dict prefix = Ok out ->
       dict_leaves (fun _ d => replica_id d = ReplicaInt 0)
                   (fun _ o => obj_replica_id o = ReplicaTuple [0; 0; data_parallel_rank])
                   out).
Proof.
  intros dp.
  assert (HP : forall k t prepend prefix allow l,
             _torch_to_mcore_sharded_tensor k t prepend prefix allow = Ok l ->
             Forall (fun d => replica_id d = ReplicaInt 0) l).
  { intros k t prepend prefix allow l H.
    eapply Forall_impl; [|apply (produced_descriptors _ _ _ _ _ _ H)].
    intros d (R & _). exact R. }
  assert (HQ : forall k b offs prefix o,
             _torch_to_mcore_sharded_object dp k b offs prefix = Ok o ->
             obj_replica_id o = ReplicaTuple [0; 0; dp]).
  { intros k b offs prefix o H. apply (produced_object _ _ _ _ _ _ H). }
  split; [exact HP|]. split; [exact HQ|].
  intros sd prefix out Hfresh H.
  destruct (pyt_to_mcore_Ok _ _ _ _ H) as (n & _ & _ & Hf).
  assert (Hsd : Forall (fun kv => leaves (fun d => replica_id d = ReplicaInt 0)
                          (fun o => obj_replica_id o = ReplicaTuple [0; 0; dp])
                          (snd kv)) sd).
  { unfold fresh, dict_leaves in Hfresh. eapply Forall_impl; [|exact Hfresh].
    intros kv Hv. eapply leaves_impl; [| |exact Hv]; simpl; contradiction. }
  unfold dict_leaves.
  apply (for_items_keeps dp n prefix _ _ HP HQ sd sd out Hsd Hsd Hf).
Qed.

(** C10 on a state dict with tensors and an opaque object, on data-parallel
    rank 3. *)
Lemma C10_witness :
  exists out,
    pyt_to_mcore_state_dict 3 save_sample EmptyString = Ok out /\
    dict_leaves (fun _ d => replica_id d = ReplicaInt 0)
                (fun _ o => obj_replica_id o = ReplicaTuple [0; 0; 3]) out.
Proof.
  eexists. split; [reflexivity|].
  apply (proj2 (proj2 (C10_replica_ids 3)) save_sample EmptyString).
  - exact save_sample_fresh.
  - reflexivity.
Defined.

(** ** The walk of [mcore_to_pyt_sharded_state_dict] *)

Lemma tmpl_value_nested_ind (P : tmpl_value -> Prop) :
  (forall d, Forall (fun kv => P (snd kv)) d -> P (TDict d)) ->
  (forall o, P (TObject o)) ->
  (forall l, P (TTensors l)) ->
  forall tv, P tv.
Proof.
  intros HD HO HL. fix IH 1. intros [d|o|l]; [|apply HO|apply HL].
  apply HD. induction d as [|[k v] d IHd]; constructor; [apply IH | exact IHd].
Qed.

Lemma ckpt_value_nested_ind (P : ckpt_value -> Prop) :
  (forall d, Forall (fun kv => P (snd kv)) d -> P (CDict d)) ->
  (forall l, P (CTensors l)) ->
  (forall b, P (CBytes b)) ->
  (forall t, P (CTorch t)) ->
  forall v, P v.
Proof.
  intros HD HL HB HT. fix IH 1. intros [d|l|b|t]; [|apply HL|apply HB|apply HT].
  apply HD. induction d as [|[k v] d IHd]; constructor; [apply IH | exact IHd].
Qed.

Lemma same_shape_CDict (d d' : list (string * ckpt_value)) :
  same_shape (CDict d) (CDict d') <->
  Forall2 (fun x y => fst x = fst y /\ same_shape (snd x) (snd y)) d d'.
Proof.
  simpl. revert d'. induction d as [|[k v] d IH]; intros [|[k' v'] d']; simpl.
  - split; auto.
  - split; [contradiction | intros H; inversion H].
  - split; [contradiction | intros H; inversion H].
  - rewrite IH. split.
    + intros (E & S & F). constructor; auto.
    + intros H. inversion H; subst. simpl in *. tauto.
Qed.

Lemma same_shape_refl (a : ckpt_value) : same_shape a a.
Proof.
  induction a as [d IH|l|b|t] using ckpt_value_nested_ind; try exact I.
  apply same_shape_CDict. induction IH; constructor; auto.
Qed.

Lemma same_shape_sym (a : ckpt_value) : forall b, same_shape a b -> same_shape b a.
Proof.
  induction a as [d IH|l|b0|t] using ckpt_value_nested_ind; intros b H;
    try (destruct b; simpl in *; auto; fail).
  destruct b as [d'|?|?|?]; try contradiction.
  apply same_shape_CDict. apply same_shape_CDict in H.
  revert IH. induction H as [|x y d d' (E & S) _ IHF]; intros IH; constructor.
  - split; [auto|]. apply (Forall_inv IH). exact S.
  - apply IHF. exact (Forall_inv_tail IH).
Qed.

Lemma same_shape_trans (a : ckpt_value) :
  forall b c, same_shape a b -> same_shape b c -> same_shape a c.
Proof.
  induction a as [d IH|l|b0|t] using ckpt_value_nested_ind; intros b c H1 H2;
    try (destruct b, c; simpl in *; auto; contradiction).
  destruct b as [d'|?|?|?]; try contradiction.
  destruct c as [d''|?|?|?]; try contradiction.
  apply same_shape_CDict. apply same_shape_CDict in H1. apply same_shape_CDict in H2.
  revert d'' H2 IH. induction H1 as [|x y d d' (E & S) _ IHF]; intros d'' H2 IH;
    inversion H2 as [|? z ? d3 (E' & S') H3]; subst; constructor.
  - split; [congruence|]. apply (Forall_inv IH) with (b := snd y); assumption.
  - apply IHF; [assumption | exact (Forall_inv_tail IH)].
Qed.

Lemma subscript_same_shape (a b : ckpt_value) (k : string) (v : ckpt_value) :
  same_shape a b -> subscript a k = Ok v ->
  exists v', subscript b k = Ok v' /\ same_shape v v'.
Proof.
  intros H Hs. destruct a as [d|?|?|?]; try discriminate.
  destruct b as [d'|?|?|?]; try contradiction.
  apply same_shape_CDict in H. simpl in *. unfold dict_getitem in *.
  induction H as [|[k1 v1] [k2 v2] d d' (E & S) _ IH]; simpl in *; [discriminate|].
  subst k2. destruct (String.eqb k k1).
  - inversion Hs; subst. eauto.
  - apply IH; assumption.
Qed.

Lemma dict_setitem_same_shape (d : list (string * ckpt_value)) (k : string)
      (v v' : ckpt_value) :
  dict_get d k = Some v -> same_shape v v' ->
  Forall2 (fun x y => fst x = fst y /\ same_shape (snd x) (snd y))
          d (dict_setitem d k v').
Proof.
  intros Hs Hv. induction d as [|[k1 v1] d IH]; simpl in Hs |- *; [discriminate|].
  destruct (String.eqb k k1).
  - inversion Hs; subst. constructor; [simpl; auto|].
    apply same_shape_CDict. apply same_shape_refl.
  - constructor; [simpl; split; [reflexivity | apply same_shape_refl]|].
    apply IH. exact Hs.
Qed.

Lemma store_same_shape (a : ckpt_value) (k : string) (v v' a' : ckpt_value) :
  subscript a k = Ok v -> same_shape v v' -> store a k v' = Ok a' ->
  same_shape a a'.
Proof.
  intros Hs Hv Hst. destruct a as [d|?|?|?]; try discriminate.
  unfold subscript, dict_getitem in Hs. unfold store in Hst.
  inversion Hst; subst. apply same_shape_CDict.
  destruct (dict_get d k) as [v0|] eqn:E; [|discriminate].
  inversion Hs; subst. apply dict_setitem_same_shape with (v := v); assumption.
Qed.

Lemma required_TDict (items : list (string * tmpl_value)) (ck : ckpt_value) (k : string) :
  required (TDict items) ck k <->
  items = [] \/
  exists sub, subscript ck k = Ok sub /\
              Forall (fun kt => required (snd kt) sub (fst kt)) items.
Proof.
  simpl.
  assert (E : forall sub (l : list (string * tmpl_value)),
             (fix all (items : list (string * tmpl_value)) : Prop :=
                match items with
                | [] => True
                | (kk, tvv) :: rest => required tvv sub kk /\ all rest
                end) l
             <-> Forall (fun kt => required (snd kt) sub (fst kt)) l).
  { intros sub l. induction l as [|[kk tvv] l IH]; simpl.
    - split; auto.
    - rewrite IH. split.
      + intros [H1 H2]; constructor; assumption.
      + intros H; inversion H; subst; auto. }
  split; (intros [H|(sub & Hs & H)]; [left; exact H | right; exists sub]);
    (split; [exact Hs | apply E; exact H]).
Qed.

Lemma required_same_shape (tv : tmpl_value) :
  forall a b k, same_shape a b -> required tv a k -> required tv b k.
Proof.
  induction tv as [items IH|o|l] using tmpl_value_nested_ind; intros a b k Hab H.
  - apply required_TDict. apply required_TDict in H.
    destruct H as [H|(sub & Hs & H)]; [left; exact H | right].
    destruct (subscript_same_shape _ _ _ _ Hab Hs) as (sub' & Hs' & Hsub).
    exists sub'. split; [exact Hs'|].
    clear Hs Hs'. induction IH as [|kt items Hkt _ IHi]; [constructor|].
    constructor.
    + apply Hkt with (a := sub); [exact Hsub | exact (Forall_inv H)].
    + apply IHi. exact (Forall_inv_tail H).
  - exact I.
  - destruct H as (v & Hv).
    destruct (subscript_same_shape _ _ _ _ Hab Hv) as (v' & Hv' & _).
    exists v'. exact Hv'.
Qed.

Lemma convert_at_TDict (pl : string) (items : list (string * tmpl_value))
      (ck : ckpt_value) (k : string) :
  convert_at pl (TDict items) ck k = convert_each pl k items ck.
Proof. reflexivity. Qed.

Lemma convert_at_required (pl : string) (tv : tmpl_value) :
  forall ck k ck',
    convert_at pl tv ck k = Ok ck' -> required tv ck k /\ same_shape ck ck'.
Proof.
  induction tv as [items IH|o|l] using tmpl_value_nested_ind; intros ck k ck' H.
  - rewrite convert_at_TDict in H. rewrite required_TDict.
    revert ck ck' H. induction IH as [|[kk tvv] items Hkt _ IHi]; intros ck ck' H;
      simpl in H.
    + inversion H; subst. split; [left; reflexivity | apply same_shape_refl].
    + bind_as H sub Hsub. bind_as H sub' Hsub'. bind_as H ck1 Hck1.
      destruct (Hkt _ _ _ Hsub') as (Rq & Sh). simpl in Rq.
      pose proof (store_same_shape _ _ _ _ _ Hsub Sh Hck1) as Sh1.
      destruct (IHi _ _ H) as (Rrest & Sh2).
      split; [|apply same_shape_trans with (b := ck1); assumption].
      right. exists sub. split; [exact Hsub|]. constructor; [exact Rq|].
      destruct Rrest as [->|(sub1 & Hsub1 & Hall)]; [constructor|].
      destruct (subscript_same_shape _ _ _ _ Sh1 Hsub) as (sub2 & Hsub2 & Sh3).
      assert (sub2 = sub1) by congruence. subst sub2.
      eapply Forall_impl; [|exact Hall].
      intros kt Hr. apply required_same_shape with (a := sub1);
        [apply same_shape_sym; exact Sh3 | exact Hr].
  - simpl in H. inversion H; subst. split; [exact I | apply same_shape_refl].
  - simpl in H. bind_as H v Hv. bind_as H tens Htens. bind_as H r Hr.
    split; [exists v; exact Hv|].
    apply (store_same_shape ck k v (CTorch r) ck' Hv); [|exact H].
    destruct v; try discriminate. exact I.
Qed.

Lemma for_keys_required (pl : string) (tmpl : list (string * tmpl_value))
      (keys : list string) :
  forall ck ck',
    for_keys pl keys ck tmpl = Ok ck' ->
    same_shape ck ck' /\
    forall k, In k keys ->
              exists tv, dict_get tmpl k = Some tv /\ required tv ck k.
Proof.
  induction keys as [|k keys IH]; intros ck ck' H; simpl in H.
  - inversion H; subst. split; [apply same_shape_refl | intros ? []].
  - bind_as H ck1 Hck1. unfold _convert in Hck1.
    destruct (dict_get tmpl k) as [tv|] eqn:Htv; [|discriminate].
    destruct (convert_at_required _ _ _ _ _ Hck1) as (Rq & Sh).
    destruct (IH _ _ H) as (Sh' & Hall).
    split; [apply same_shape_trans with (b := ck1); assumption|].
    intros k' [<-|Hin].
    + exists tv. auto.
    + destruct (Hall k' Hin) as (tv' & Htv' & Rq').
      exists tv'. split; [exact Htv'|].
      apply required_same_shape with (a := ck1);
        [apply same_shape_sym; exact Sh | exact Rq'].
Qed.

Lemma convert_each_app (pl k : string) (l1 l2 : list (string * tmpl_value)) :
  forall c,
    convert_each pl k (l1 ++ l2) c
    = (c1 <- convert_each pl k l1 c ;; convert_each pl k l2 c1).
Proof.
  induction l1 as [|[kk tvv] l1 IH]; intros c; [reflexivity|].
  simpl. destruct (subscript c k) as [sub|e]; [|reflexivity]. simpl.
  destruct (convert_at pl tvv sub kk) as [sub'|e]; [|reflexivity]. simpl.
  destruct (store c k sub') as [c'|e]; [|reflexivity]. simpl.
  apply IH.
Qed.

(** ** C2: what mergeLoaded requires of the checkpoint *)

(** C2 (amended).  [mcore_to_pyt_sharded_state_dict] walks the top-level
    keys of the checkpoint, not of the template, and asserts that each is
    in the template; below such a key it walks the template.  So when it
    returns, every top-level checkpoint key is a template key and the
    checkpoint has what that key's template value requires: at any depth,
    each key holding a descriptor list and each key holding a non-empty
    sub-mapping.  A checkpoint key missing from the template is an
    [AssertionError]; a missing key that holds a descriptor list or a
    non-empty sub-mapping is a [KeyError] naming that key; the entries of a
    sub-mapping are walked in order and the first failure is the failure
    of the walk.  Opaque-object placeholders and empty sub-mappings require
    nothing, and neither do template keys that the checkpoint does not have
    at top level.  With a descriptor list nested under "decoder" and a
    checkpoint lacking that leaf, the error is [KeyError "weight"]. *)
Theorem C2_merge_loaded_requirements :
  forall (my_placement : string) (checkpoint : list (string * ckpt_value))
         (sharded_state_dict : list (string * tmpl_value)),
    (forall out,
       mcore_to_pyt_sharded_state_dict my_placement checkpoint sharded_state_dict = Ok out ->
       forall k, In k (dict_keys checkpoint) ->
         exists tv, dict_get sharded_state_dict k = Some tv /\
                    required tv (CDict checkpoint) k) /\
    (forall c k, dict_get sharded_state_dict k = None ->
                 _convert my_placement c sharded_state_dict k = Raise AssertionError) /\
    (forall d k sh_tens, dict_get d k = None ->
       convert_at my_placement (TTensors sh_tens) (CDict d) k = Raise (KeyError k)) /\
    (forall d k kk tvv rest, dict_get d k = None ->
       convert_at my_placement (TDict ((kk, tvv) :: rest)) (CDict d) k
       = Raise (KeyError k)) /\
    (forall c k l1 l2,
       convert_at my_placement (TDict (l1 ++ l2)) c k
       = (c1 <- convert_at my_placement (TDict l1) c k ;;
          convert_at my_placement (TDict l2) c1 k)) /\
    (forall c k kk tvv rest sub e,
       subscript c k = Ok sub -> convert_at my_placement tvv sub kk = Raise e ->
       convert_at my_placement (TDict ((kk, tvv) :: rest)) c k = Raise e) /\
    (forall c k o, convert_at my_placement (TObject o) c k = Ok c) /\
    (forall c k, convert_at my_placement (TDict []) c k = Ok c) /\
    mcore_to_pyt_sharded_state_dict my_placement [] sharded_state_dict = Ok (CDict []) /\
    mcore_to_pyt_sharded_state_dict my_placement checkpoint_without_leaf nested_template
    = Raise (KeyError "weight").
Proof.
  intros pl ck tmpl.
  split; [|split; [|split; [|split; [|split; [|split; [|split; [|split; [|split]]]]]]]].
  - intros out H k Hin. unfold mcore_to_pyt_sharded_state_dict in H.
    destruct (for_keys_required _ _ _ _ _ H) as (_ & Hall). apply Hall. exact Hin.
  - intros c k Hk. unfold _convert. rewrite Hk. reflexivity.
  - intros d k sh_tens Hk. simpl. unfold dict_getitem. rewrite Hk. reflexivity.
  - intros d k kk tvv rest Hk. rewrite convert_at_TDict. simpl.
    unfold dict_getitem. rewrite Hk. reflexivity.
  - intros c k l1 l2. rewrite !convert_at_TDict. apply convert_each_app.
  - intros c k kk tvv rest sub e Hs He. rewrite convert_at_TDict. simpl.
    rewrite Hs. simpl. rewrite He. reflexivity.
  - reflexivity.
  - reflexivity.
  - reflexivity.
  - reflexivity.
Qed.

(** C2 on a checkpoint that has the nested leaf. *)
Lemma C2_witness :
  exists out,
    mcore_to_pyt_sharded_state_dict "rank:0/cuda" checkpoint_with_leaf nested_template
    = Ok out /\
    forall k, In k (dict_keys checkpoint_with_leaf) ->
      exists tv, dict_get nested_template k = Some tv /\
                 required tv (CDict checkpoint_with_leaf) k.
Proof.
  eexists. split; [reflexivity|].
  eapply (proj1 (C2_merge_loaded_requirements "rank:0/cuda" checkpoint_with_leaf
                   nested_template)).
  reflexivity.
Defined.

(** C2 as stated fails: the template has the key "decoder", the empty
    checkpoint does not, and nothing is raised; and a checkpoint that lacks
    the opaque-object leaf "bias" of the template's sub-mapping is merged
    without complaint. *)
Lemma C2_counterexample :
  dict_in nested_template "decoder" = true /\
  mcore_to_pyt_sharded_state_dict "rank:0/cuda" [] nested_template = Ok (CDict []) /\
  subscript (CDict checkpoint_without_object) "decoder"
  = Ok (CDict [("weight"%string, CTensors [mkTensor 7 [3] 0])]) /\
  exists out,
    mcore_to_pyt_sharded_state_dict "rank:0/cuda" checkpoint_without_object
      nested_template = Ok out.
Proof.
  split; [reflexivity|]. split; [reflexivity|]. split; [reflexivity|].
  eexists. reflexivity.
Qed.



(** C5 on the two keys of the example. *)
Lemma C5_witness :
  exists r,
    count_layers (dict_keys [("module.decoder.layers.0.x"%string, VOther (mkTensor 0 [] 0));
                             ("module.decoder.layers.3.y"%string, VOther (mkTensor 0 [] 0))])
                 0 = Ok r /\
    (exists k, In k (dict_keys [("module.decoder.layers.0.x"%string, VOther (mkTensor 0 [] 0));
                                ("module.decoder.layers.3.y"%string, VOther (mkTensor 0 [] 0))]) /\
               is_layer_key k = true /\ layer_index k = Ok (r - 1)) /\
    (forall k n,
       In k (dict_keys [("module.decoder.layers.0.x"%string, VOther (mkTensor 0 [] 0));
                        ("module.decoder.layers.3.y"%string, VOther (mkTensor 0 [] 0))]) ->
       is_layer_key k = true -> layer_index k = Ok n -> n + 1 <= r).
Proof.
  apply (proj1 C5_layer_count).
  - intros k [<-|[<-|[]]] _; eexists; (split; [reflexivity | lia]).
  - exists "module.decoder.layers.0.x"%string. split; [left; reflexivity | reflexivity].
Defined.

(** C5 as stated fails: the scan of a state dict whose only layer key
    carries the index -5 returns 0 and not max(N) + 1 = -4, the scan of a
    state dict without a layer key returns 0 where there is no N, and the
    scan of a state dict with a layer key whose fourth component is not an
    integer returns nothing and raises [ValueError]. *)
Lemma C5_counterexample :
  (layer_index "module.decoder.layers.-5.x" = Ok (-5) /\
   count_layers (dict_keys [("module.decoder.layers.-5.x"%string,
                             VOther (mkTensor 0 [] 0))]) 0 = Ok 0 /\
   0 <> -5 + 1) /\
  count_layers (dict_keys [("embedding.position_embeddings.weight"%string,
                            VOther (mkTensor 0 [] 0))]) 0 = Ok 0 /\
  (is_layer_key "module.decoder.layers.final.w" = true /\
   count_layers (dict_keys [("module.decoder.layers.final.w"%string,
                             VOther (mkTensor 0 [] 0))]) 0 = Raise ValueError).
Proof.
  split; [split; [reflexivity | split; [reflexivity | discriminate]]|].
  split; [reflexivity|]. split; reflexivity.
Qed.

(** * Further properties of the translation *)

(** ** Splitting and joining keys *)

Lemma split_dot_nonempty (s : string) : Py.split_dot s <> [].
Proof.
  destruct s as [|c r]; simpl; [discriminate|].
  destruct (Ascii.eqb c "."%char); [discriminate|].
  destruct (Py.split_dot r); discriminate.
Qed.

(** ['.'.join(s.split('.')) == s]. *)
Theorem join_split_dot (s : string) : Py.join_dot (Py.split_dot s) = s.
Proof.
  induction s as [|c r IH]; [reflexivity|]. simpl.
  destruct (Ascii.eqb_spec c "."%char) as [->|Hc].
  - pose proof (split_dot_nonempty r) as Hne.
    simpl. destruct (Py.split_dot r) as [|h t]; [contradiction|].
    simpl in *. rewrite IH. reflexivity.
  - pose proof (split_dot_nonempty r) as Hne.
    destruct (Py.split_dot r) as [|h t]; [contradiction|].
    simpl in *. destruct t as [|h' t'].
    + rewrite IH. reflexivity.
    + simpl. rewrite <- IH. reflexivity.
Qed.

Lemma split_dot_component (a r : string) :
  no_dot a = true ->
  Py.split_dot (a ++ String "."%char r) = a :: Py.split_dot r.
Proof.
  induction a as [|c a IH]; intros H; simpl in *.
  - reflexivity.
  - apply andb_prop in H. destruct H as [Hc Ha].
    destruct (Ascii.eqb c "."%char); [discriminate|].
    rewrite (IH Ha). reflexivity.
Qed.

Lemma split_dot_last (a : string) : no_dot a = true -> Py.split_dot a = [a].
Proof.
  induction a as [|c a IH]; intros H; simpl in *; [reflexivity|].
  apply andb_prop in H. destruct H as [Hc Ha].
  destruct (Ascii.eqb c "."%char); [discriminate|].
  rewrite (IH Ha). reflexivity.
Qed.

Lemma prefix_append (p s : string) :
  String.prefix p s = true -> exists r, s = (p ++ r)%string.
Proof.
  revert s; induction p as [|c p IH]; intros s H; simpl in *.
  - exists s. reflexivity.
  - destruct s as [|c' s]; [discriminate|]. simpl in H.
    destruct (Ascii.ascii_dec c c') as [->|]; [|discriminate].
    destruct (IH s H) as (r & ->). exists r. reflexivity.
Qed.

Lemma append_prefix (p r : string) : String.prefix p (p ++ r) = true.
Proof.
  induction p as [|c p IH]; simpl.
  - destruct r; reflexivity.
  - destruct (Ascii.ascii_dec c c); [exact IH | contradiction].
Qed.

Lemma layer_key_split (k : string) :
  is_layer_key k = true ->
  exists r, k = (layer_prefix ++ r)%string /\
            Py.split_dot k
            = "module"%string :: "decoder"%string :: "layers"%string :: Py.split_dot r.
Proof.
  unfold is_layer_key, Py.startswith. intros H.
  destruct (prefix_append _ _ H) as (r & ->). exists r. split; [reflexivity|].
  unfold layer_prefix. simpl.
  destruct (Py.split_dot r) as [|h t] eqn:E; [exfalso; exact (split_dot_nonempty r E)|].
  reflexivity.
Qed.

(** ** The layer loop *)

Lemma layer_index_ValueError (k : string) (e : exn) :
  is_layer_key k = true -> layer_index k = Raise e -> e = ValueError.
Proof.
  intros Hk H. destruct (layer_key_split k Hk) as (r & _ & Hs).
  unfold layer_index in H. rewrite Hs in H.
  destruct (Py.split_dot r) as [|c t] eqn:E; [exfalso; exact (split_dot_nonempty r E)|].
  simpl in H. unfold Py.int in H.
  destruct (match Py.rstrip (Py.lstrip c) with
            | String "-"%char r0 => option_map Z.opp (Py.digits r0 0 false)
            | String "+"%char r0 => Py.digits r0 0 false
            | _ => Py.digits (Py.rstrip (Py.lstrip c)) 0 false
            end); [discriminate|]. inversion H; reflexivity.
Qed.

(** X1.  The first loop of [pyt_to_mcore_state_dict] can fail in one way
    only: a key that starts with "module.decoder.layers." always has a
    fourth dot-separated component, so [k.split('.')[3]] never raises, and
    the loop stops exactly with the [ValueError] of [int] on the first layer
    key whose component is not an integer. *)
Theorem X1_layer_loop_errors :
  forall (keys : list string) (acc : Z) (e : exn),
    count_layers keys acc = Raise e ->
    e = ValueError /\
    exists k, In k keys /\ is_layer_key k = true /\ layer_index k = Raise ValueError.
Proof.
  induction keys as [|k keys IH]; intros acc e H; [discriminate|].
  rewrite count_layers_cons in H.
  destruct (is_layer_key k) eqn:Hk.
  - destruct (layer_index k) as [n|e'] eqn:Hn; simpl in H.
    + destruct (IH _ _ H) as (He & k' & Hin & Hk' & Hi).
      split; [exact He|]. exists k'. simpl; auto.
    + inversion H; subst e'.
      pose proof (layer_index_ValueError k e Hk Hn) as ->.
      split; [reflexivity|]. exists k. simpl; auto.
  - destruct (IH _ _ H) as (He & k' & Hin & Hk' & Hi).
    split; [exact He|]. exists k'. simpl; auto.
Qed.

Lemma X1_witness :
  ValueError = ValueError /\
  exists k, In k ["a"; "module.decoder.layers.final.w"]%string /\
            is_layer_key k = true /\ layer_index k = Raise ValueError.
Proof.
  apply (X1_layer_loop_errors ["a"; "module.decoder.layers.final.w"]%string 0 ValueError).
  reflexivity.
Defined.

Lemma count_layers_swap (a b : string) (l : list string) (acc : Z) :
  count_layers (a :: b :: l) acc = count_layers (b :: a :: l) acc.
Proof.
  rewrite (count_layers_cons a (b :: l)), (count_layers_cons b (a :: l)).
  destruct (is_layer_key a) eqn:Ha, (is_layer_key b) eqn:Hb.
  - destruct (layer_index a) as [n|ea] eqn:Hna, (layer_index b) as [m|eb] eqn:Hnb;
      cbn [bind].
    + rewrite (count_layers_cons b l), (count_layers_cons a l), Ha, Hb, Hna, Hnb.
      cbn [bind].
      replace (Z.max (Z.max acc (n + 1)) (m + 1))
        with (Z.max (Z.max acc (m + 1)) (n + 1)) by lia.
      reflexivity.
    + rewrite (count_layers_cons b l), Hb, Hnb. reflexivity.
    + rewrite (count_layers_cons a l), Ha, Hna. reflexivity.
    + rewrite (layer_index_ValueError a ea Ha Hna), (layer_index_ValueError b eb Hb Hnb).
      reflexivity.
  - rewrite (count_layers_cons a l), Ha.
    destruct (layer_index a) as [n|ea] eqn:Hna; cbn [bind]; [|reflexivity].
    rewrite (count_layers_cons b l), Hb. reflexivity.
  - rewrite (count_layers_cons b l), Hb.
    destruct (layer_index b) as [m|eb] eqn:Hnb; cbn [bind]; [|reflexivity].
    rewrite (count_layers_cons a l), Ha. reflexivity.
  - rewrite (count_layers_cons b l), (count_layers_cons a l), Ha, Hb. reflexivity.
Qed.

(** X2.  The layer count does not depend on the order of the keys: two
    state dicts with the same keys in different orders resolve to the same
    count, or fail alike. *)
Theorem X2_layer_count_order :
  forall (keys keys' : list string) (acc : Z),
    Permutation keys keys' ->
    count_layers keys acc = count_layers keys' acc.
Proof.
  intros keys keys' acc HP. revert acc.
  induction HP as [|k l l' _ IH|a b l|l1 l2 l3 _ IH1 _ IH2]; intros acc.
  - reflexivity.
  - rewrite !count_layers_cons. destruct (is_layer_key k); [|apply IH].
    destruct (layer_index k); simpl; [apply IH | reflexivity].
  - apply count_layers_swap.
  - rewrite IH1. apply IH2.
Qed.

Lemma X2_witness :
  count_layers ["module.decoder.layers.3.y"; "a"; "module.decoder.layers.0.x"]%string 0
  = count_layers ["a"; "module.decoder.layers.0.x"; "module.decoder.layers.3.y"]%string 0.
Proof.
  apply X2_layer_count_order.
  apply perm_trans
    with (l' := ["a"; "module.decoder.layers.3.y"; "module.decoder.layers.0.x"]%string).
  - apply perm_swap.
  - apply perm_skip. apply perm_swap.
Defined.

Lemma count_layers_bound (keys : list string) :
  forall acc r,
    count_layers keys acc = Ok r ->
    acc <= r /\
    (forall k, In k keys -> is_layer_key k = true ->
               exists n, layer_index k = Ok n /\ n < r) /\
    (r = acc \/
     exists k n, In k keys /\ is_layer_key k = true /\ layer_index k = Ok n /\ r = n + 1).
Proof.
  induction keys as [|k keys IH]; intros acc r H.
  - inversion H; subst. split; [lia|]. split; [intros ? []|]. left; reflexivity.
  - rewrite count_layers_cons in H. destruct (is_layer_key k) eqn:Hk.
    + destruct (layer_index k) as [n|e] eqn:Hn; simpl in H; [|discriminate].
      destruct (IH _ _ H) as (Hle & Hall & Hor).
      split; [lia|]. split.
      * intros k' [<-|Hin] Hk'.
        -- exists n. split; [exact Hn | lia].
        -- apply Hall; assumption.
      * destruct Hor as [E|(k' & n' & Hin & Hk' & Hi & E)].
        -- destruct (Z.max_spec acc (n + 1)) as [[_ M]|[_ M]].
           ++ right. exists k, n. simpl. repeat split; auto. lia.
           ++ left. lia.
        -- right. exists k', n'. simpl. auto.
    + destruct (IH _ _ H) as (Hle & Hall & Hor).
      split; [exact Hle|]. split.
      * intros k' [<-|Hin] Hk'; [congruence|]. apply Hall; assumption.
      * destruct Hor as [E|(k' & n' & Hin & Hk' & Hi & E)]; [left; exact E|].
        right. exists k', n'. simpl. auto.
Qed.

(** X3.  When the first loop of [pyt_to_mcore_state_dict] returns a count,
    the count is not negative, every layer key of the state dict carries
    an integer index below the count, and the count is 0 exactly when no
    layer key has a non-negative index.  So past the assertion every
    prepend offset [(0, index, num_layers)] the second loop builds has its
    index below its fragmentation. *)
Theorem X3_layer_count_bounds :
  forall (keys : list string) (r : Z),
    count_layers keys 0 = Ok r ->
    0 <= r /\
    (forall k, In k keys -> is_layer_key k = true ->
       exists n, layer_index k = Ok n /\ n < r /\
                 exists sh_key allow, key_args k r = Ok (sh_key, [(0, n, r)], allow)) /\
    (r = 0 <->
     forall k n, In k keys -> is_layer_key k = true -> layer_index k = Ok n -> n < 0).
Proof.
  intros keys r H. destruct (count_layers_bound keys 0 r H) as (Hle & Hall & Hor).
  split; [exact Hle|]. split; [|split].
  - intros k Hin Hk. destruct (Hall k Hin Hk) as (n & Hn & Hlt).
    exists n. split; [exact Hn|]. split; [exact Hlt|].
    destruct (key_args k r) as [[[sh_key prepend] allow]|e] eqn:E.
    + destruct (key_args_Ok _ _ _ _ _ E) as (_ & _ & _ & Hl).
      destruct (Hl Hk) as (i & Hi & ->). assert (i = n) by congruence. subst i.
      eauto.
    + exfalso. unfold key_args in E. unfold is_layer_key in Hk. rewrite Hk in E.
      destruct (layer_key_split k Hk) as (tail & _ & Hs).
      unfold layer_index in Hn. rewrite Hs in *.
      destruct (Py.split_dot tail) as [|c t] eqn:Et;
        [exact (split_dot_nonempty tail Et)|].
      simpl in E, Hn. rewrite Hn in E. discriminate.
  - intros -> k n Hin Hk Hn. destruct (Hall k Hin Hk) as (n' & Hn' & Hlt).
    congruence.
  - intros Hneg. destruct Hor as [E|(k & n & Hin & Hk & Hn & E)]; [exact E|].
    specialize (Hneg k n Hin Hk Hn). lia.
Qed.

Lemma X3_witness :
  0 <= 4 /\
  (forall k, In k ["module.decoder.layers.3.y"; "a"; "module.decoder.layers.0.x"]%string ->
     is_layer_key k = true ->
     exists n, layer_index k = Ok n /\ n < 4 /\
               exists sh_key allow, key_args k 4 = Ok (sh_key, [(0, n, 4)], allow)) /\
  (4 = 0 <->
   forall k n, In k ["module.decoder.layers.3.y"; "a"; "module.decoder.layers.0.x"]%string ->
               is_layer_key k = true -> layer_index k = Ok n -> n < 0).
Proof.
  apply (X3_layer_count_bounds
           ["module.decoder.layers.3.y"; "a"; "module.decoder.layers.0.x"]%string 4).
  reflexivity.
Defined.

(** X4.  For a layer key "module.decoder.layers.N.rest" the second loop
    drops the component N: the descriptor key is
    "module.decoder.layers.rest", the same for every layer, and the one
    prepend offset is (0, int(N), num_layers); for "module.decoder.layers.N"
    alone the descriptor key is "module.decoder.layers". *)
Theorem X4_layer_key_stripped :
  forall (n rest : string) (num_layers i : Z),
    no_dot n = true -> Py.int n = Ok i ->
    key_args (layer_prefix ++ n ++ "." ++ rest) num_layers
    = Ok ((layer_prefix ++ rest)%string, [(0, i, num_layers)],
          Py.endswith (layer_prefix ++ n ++ "." ++ rest) vocab_suffix) /\
    key_args (layer_prefix ++ n) num_layers
    = Ok ("module.decoder.layers"%string, [(0, i, num_layers)],
          Py.endswith (layer_prefix ++ n) vocab_suffix).
Proof.
  intros n rest num i Hn Hi. unfold key_args, Py.startswith.
  rewrite !append_prefix. split.
  - assert (E : Py.split_dot (layer_prefix ++ n ++ "." ++ rest)
                = "module"%string :: "decoder"%string :: "layers"%string :: n
                  :: Py.split_dot rest).
    { unfold layer_prefix. simpl. rewrite (split_dot_component n rest Hn). reflexivity. }
    rewrite E. simpl. rewrite Hi. simpl. f_equal. f_equal. f_equal.
    pose proof (split_dot_nonempty rest) as Hne. pose proof (join_split_dot rest) as J.
    destruct (Py.split_dot rest) as [|h t]; [contradiction|].
    unfold layer_prefix. simpl in *. rewrite J. reflexivity.
  - assert (E : Py.split_dot (layer_prefix ++ n)
                = ["module"; "decoder"; "layers"; n]%string).
    { unfold layer_prefix. simpl. rewrite (split_dot_last n Hn). reflexivity. }
    rewrite E. simpl. rewrite Hi. reflexivity.
Qed.

Lemma X4_witness :
  key_args (layer_prefix ++ "3" ++ "." ++ "mlp.weight") 4
  = Ok ((layer_prefix ++ "mlp.weight")%string, [(0, 3, 4)],
        Py.endswith (layer_prefix ++ "3" ++ "." ++ "mlp.weight") vocab_suffix) /\
  key_args (layer_prefix ++ "3") 4
  = Ok ("module.decoder.layers"%string, [(0, 3, 4)],
        Py.endswith (layer_prefix ++ "3") vocab_suffix).
Proof.
  apply (X4_layer_key_stripped "3" "mlp.weight" 4 3); reflexivity.
Defined.

(** ** Edge behaviour of [_torch_to_mcore_sharded_tensor] *)

Lemma mapM_Raise {A B : Type} (f : A -> result B) (e : exn) (l : list A) :
  (forall x, In x l -> (exists b, f x = Ok b) \/ f x = Raise e) ->
  (exists x, In x l /\ f x = Raise e) ->
  mapM f l = Raise e.
Proof.
  induction l as [|a l IH]; intros Hall (x & Hin & Hx); [contradiction|].
  simpl. destruct (Hall a (or_introl eq_refl)) as [(b & Hb)|Ha].
  - rewrite Hb. simpl. rewrite IH; [reflexivity | |].
    + intros y Hy. apply Hall. simpl; auto.
    + destruct Hin as [<-|Hin]; [congruence|]. eauto.
  - rewrite Ha. reflexivity.
Qed.

(** X5.  A first local shard with an empty extent on some axis makes
    [_torch_to_mcore_sharded_tensor] raise [ZeroDivisionError]: the
    fragmentation of that axis is a floor division by the extent. *)
Theorem X5_zero_extent :
  forall (k : string) (t : TorchShardedTensor) (prepend : list RankOffset)
         (prefix : string) (allow : bool) (ls0 : Shard) (rest : list Shard) (j : nat),
    local_shards t = ls0 :: rest ->
    placements_agree (local_shards t) = true ->
    (List.length (size t) <= List.length (shard_sizes (metadata ls0)))%nat ->
    (j < List.length (size t))%nat ->
    nth_error (shard_sizes (metadata ls0)) j = Some 0 ->
    _torch_to_mcore_sharded_tensor k t prepend prefix allow = Raise ZeroDivisionError.
Proof.
  intros k t prepend prefix allow ls0 rest j Hls Hp Hlen Hj Hz.
  unfold _torch_to_mcore_sharded_tensor. rewrite Hp. simpl.
  unfold axis_fragm_of. rewrite mapM_Raise with (e := ZeroDivisionError); [reflexivity| |].
  - intros i Hi. apply in_seq in Hi. rewrite Hls. simpl.
    destruct (nth_error (size t) i) as [g|] eqn:Hg;
      [|apply nth_error_None in Hg; lia].
    destruct (nth_error (shard_sizes (metadata ls0)) i) as [s|] eqn:Hs;
      [|apply nth_error_None in Hs; lia].
    unfold Py.getitem. rewrite Hg, Hs. simpl. unfold Py.floordiv.
    destruct (s =? 0); [right; reflexivity | left; eauto].
  - exists j. split; [apply in_seq; lia|]. rewrite Hls. simpl.
    destruct (nth_error (size t) j) as [g|] eqn:Hg;
      [|apply nth_error_None in Hg; lia].
    unfold Py.getitem. rewrite Hg, Hz. reflexivity.
Qed.

Lemma X5_witness :
  _torch_to_mcore_sharded_tensor "w"
    (mkTorchShardedTensor [4; 8]
       [mkShard (mkTensor 1 [2; 0] 0) (mkShardMetadata [0; 8] [2; 0] "rank:0/cuda")])
    [] EmptyString false
  = Raise ZeroDivisionError.
Proof.
  apply (X5_zero_extent "w"
           (mkTorchShardedTensor [4; 8]
              [mkShard (mkTensor 1 [2; 0] 0) (mkShardMetadata [0; 8] [2; 0] "rank:0/cuda")])
           [] EmptyString false
           (mkShard (mkTensor 1 [2; 0] 0) (mkShardMetadata [0; 8] [2; 0] "rank:0/cuda"))
           [] 1%nat).
  - reflexivity.
  - reflexivity.
  - simpl. lia.
  - simpl. lia.
  - reflexivity.
Defined.

(** X6.  [rank_offsets] is created once, before the loop over the local
    shards, and every iteration appends to it; so for a tensor with at
    least one axis and at least two local shards the second call of
    [from_rank_offsets] names every axis twice, and
    [_torch_to_mcore_sharded_tensor] never returns descriptors. *)
Theorem X6_several_local_shards :
  forall (k : string) (t : TorchShardedTensor) (prepend : list RankOffset)
         (prefix : string) (allow : bool) (descs : list ShardedTensor),
    (2 <= List.length (local_shards t))%nat ->
    (1 <= List.length (size t))%nat ->
    _torch_to_mcore_sharded_tensor k t prepend prefix allow <> Ok descs.
Proof.
  intros k t prepend prefix allow descs H2 H1 H.
  destruct (torch_to_mcore_Ok _ _ _ _ _ _ H) as (_ & fr & Hfr & Hl).
  destruct (axis_fragm_of_Ok _ _ _ Hfr) as (Lfr & _).
  assert (Hne : fr <> []) by (intros ->; simpl in Lfr; lia).
  pose proof (shards_loop_single _ _ _ _ _ _ _ Hl Hne). lia.
Qed.

Lemma X6_witness :
  _torch_to_mcore_sharded_tensor "w" two_shard_tensor [] EmptyString false <> Ok [].
Proof.
  apply (X6_several_local_shards "w" two_shard_tensor [] EmptyString false []);
    simpl; lia.
Defined.

Lemma local_axis_shape_init (shp : list Z) (p a : nat) (le : Z) :
  Mcore.local_axis_shape shp p a = Ok le ->
  nth_error (repeat 1 p ++ shp) a = Some le /\
  nth_error (repeat 0 (List.length shp + p)) a = Some 0.
Proof.
  unfold Mcore.local_axis_shape. intros H.
  destruct (Nat.ltb_spec a p) as [Hlt|Hge].
  - inversion H; subst. split.
    + rewrite nth_error_app1 by (rewrite repeat_length; exact Hlt).
      apply nth_error_repeat. exact Hlt.
    + apply nth_error_repeat. lia.
  - apply getitem_Ok in H. split.
    + rewrite nth_error_app2 by (rewrite repeat_length; exact Hge).
      rewrite repeat_length. exact H.
    + apply nth_error_repeat.
      assert ((a - p < List.length shp)%nat) by (apply nth_error_Some; congruence). lia.
Qed.

Lemma local_axis_shape_nonneg (shp : list Z) (p a : nat) (le : Z) :
  Forall (fun e => 0 <= e) shp ->
  Mcore.local_axis_shape shp p a = Ok le -> 0 <= le.
Proof.
  unfold Mcore.local_axis_shape. intros Hnn H.
  destruct (a <? p)%nat.
  - inversion H; lia.
  - apply getitem_Ok in H. apply nth_error_In in H.
    rewrite Forall_forall in Hnn. apply Hnn. exact H.
Qed.

(** X7.  Every descriptor [_torch_to_mcore_sharded_tensor] returns borrows
    the buffer of its local shard (it is the descriptor's data, with the
    buffer's shape as local shape and its element type), passes the
    library's validation, has one entry per prepended axis and per buffer
    axis in its three geometry sequences, and, when the buffer's extents are
    not negative, lies inside its global shape on every axis: the global
    offset is not negative and offset + local extent does not exceed the
    global extent. *)
Theorem X7_descriptors_in_bounds :
  forall (k : string) (t : TorchShardedTensor) (prepend : list RankOffset)
         (prefix : string) (allow : bool) (descs : list ShardedTensor),
    _torch_to_mcore_sharded_tensor k t prepend prefix allow = Ok descs ->
    Forall2
      (fun ls d =>
         (data d = Some (tensor ls) /\ local_shape d = shape (tensor ls) /\
          dtype d = ten_dtype (tensor ls)) /\
         consistent d /\
         (List.length (global_shape d)
          = (List.length prepend + List.length (shape (tensor ls)))%nat /\
          List.length (global_offset d) = List.length (global_shape d) /\
          List.length (axis_fragmentations d) = List.length (global_shape d)) /\
         (Forall (fun e => 0 <= e) (shape (tensor ls)) ->
          forall a le,
            Mcore.local_axis_shape (shape (tensor ls)) (List.length prepend) a = Ok le ->
            exists go gs,
              nth_error (global_offset d) a = Some go /\
              nth_error (global_shape d) a = Some gs /\
              0 <= go /\ go + le <= gs))
      (local_shards t) descs.
Proof.
  intros k t prepend prefix allow descs H.
  destruct (torch_to_mcore_Ok _ _ _ _ _ _ H) as (_ & fr & _ & Hl).
  apply shards_loop_Ok in Hl.
  eapply Forall2_impl; [|exact Hl].
  intros ls d (new & Hnew & Hd). simpl in *.
  destruct (from_rank_offsets_Ok _ _ _ _ _ _ _ Hd)
    as ((_ & K2 & K3 & K4 & _) & Hp & Hc).
  destruct (descriptor_geometry _ _ _ _ _ _ _ Hnew Hd) as (_ & _ & (M1 & M2 & M3)).
  destruct (place_axes_Ok _ _ _ _ _ _ _ _ _ _ Hp) as (_ & Hin & _ & Hframe).
  split; [auto|]. split; [exact Hc|]. split; [rewrite M1, M2, M3; auto|].
  intros Hnn a le Hle.
  pose proof (local_axis_shape_nonneg _ _ _ _ Hnn Hle) as Hle0.
  destruct (existsb (fun x => Nat.eqb (Z.to_nat (ro_axis x)) a) (prepend ++ new)) eqn:E.
  - apply existsb_exists in E. destruct E as ([[axis off] f] & Hx & Heq).
    apply Nat.eqb_eq in Heq. unfold ro_axis in Heq. simpl in Heq.
    destruct (Hin axis off f Hx) as (_ & Hoff & _ & las & Hlas & G1 & G2 & _).
    rewrite Heq in *. assert (las = le) by congruence. subst las.
    exists (off * le), (f * le). split; [exact G2|]. split; [exact G1|]. nia.
  - destruct (Hframe a) as (F1 & F2 & _).
    { intros x Hx Heq.
      assert (existsb (fun x => Nat.eqb (Z.to_nat (ro_axis x)) a) (prepend ++ new) = true).
      { apply existsb_exists. exists x. split; [exact Hx | apply Nat.eqb_eq; exact Heq]. }
      congruence. }
    destruct (local_axis_shape_init _ _ _ _ Hle) as (I1 & I2).
    exists 0, le. rewrite F1, F2. split; [exact I2|]. split; [exact I1|]. lia.
Qed.

Lemma X7_witness :
  exists descs,
    _torch_to_mcore_sharded_tensor "w" even_tensor [(0, 2, 5)] EmptyString false = Ok descs /\
    Forall2
      (fun ls d =>
         (data d = Some (tensor ls) /\ local_shape d = shape (tensor ls) /\
          dtype d = ten_dtype (tensor ls)) /\
         consistent d /\
         (List.length (global_shape d)
          = (List.length [(0, 2, 5)] + List.length (shape (tensor ls)))%nat /\
          List.length (global_offset d) = List.length (global_shape d) /\
          List.length (axis_fragmentations d) = List.length (global_shape d)) /\
         (Forall (fun e => 0 <= e) (shape (tensor ls)) ->
          forall a le,
            Mcore.local_axis_shape (shape (tensor ls)) (List.length [(0, 2, 5)]) a = Ok le ->
            exists go gs,
              nth_error (global_offset d) a = Some go /\
              nth_error (global_shape d) a = Some gs /\
              0 <= go /\ go + le <= gs))
      (local_shards even_tensor) descs.
Proof.
  eexists. split; [reflexivity|].
  apply (X7_descriptors_in_bounds "w" even_tensor [(0, 2, 5)] EmptyString false).
  reflexivity.
Defined.

(** ** Loading twice through one template *)

Lemma rebind_rebind (t1 t2 : Tensor) (d : ShardedTensor) :
  rebind t2 (rebind t1 d) = rebind t2 d.
Proof. reflexivity. Qed.

Lemma zip_loop_loaded_from (tens : list Tensor) :
  forall (descs : list ShardedTensor),
    Forall2 loaded_from descs (fst (zip_loop tens descs)).
Proof.
  induction tens as [|ten tens IH]; intros [|d descs]; simpl.
  - constructor.
  - apply Forall2_flip. apply Forall2_flip.
    induction (d :: descs); constructor; [left; reflexivity | assumption].
  - constructor.
  - destruct (Mcore.validate_metadata_integrity (rebind ten d)) as [[]|e]; simpl.
    + constructor; [right; eexists; reflexivity | apply IH].
    + constructor; [right; eexists; reflexivity|].
      induction descs; constructor; [left; reflexivity | assumption].
Qed.

Lemma zip_loop_after_load (tens : list Tensor) :
  forall (descs xs : list ShardedTensor),
    Forall2 loaded_from descs xs ->
    snd (zip_loop tens xs) = snd (zip_loop tens descs) /\
    ((List.length descs <= List.length tens)%nat ->
     snd (zip_loop tens descs) = Ok tt ->
     fst (zip_loop tens xs) = fst (zip_loop tens descs)).
Proof.
  induction tens as [|ten tens IH]; intros descs xs HF.
  - simpl. split; [reflexivity|]. intros Hlen _.
    destruct HF; [reflexivity | simpl in Hlen; lia].
  - destruct HF as [|d x descs xs Hx HF]; [simpl; auto|].
    assert (E : rebind ten x = rebind ten d).
    { destruct Hx as [->|(t1 & ->)]; reflexivity. }
    simpl. rewrite E.
    destruct (IH _ _ HF) as (S1 & S2).
    destruct (Mcore.validate_metadata_integrity (rebind ten d)) as [[]|e]; simpl.
    + split; [exact S1|]. intros Hlen Hok. rewrite S2; [reflexivity | lia | exact Hok].
    + split; [reflexivity|]. intros _ Hok. discriminate.
Qed.

(** X8.  The in-place stripping of [_mcore_to_pyt_sharded_tensor] is not
    repeated: after a first pass over a template's descriptors, with any
    buffers and however it ended, a second pass with as many buffers as
    descriptors ends like a pass over the untouched template would, with
    the same Dialect-B tensor or the same error; the prepended axes are
    dropped once. *)
Theorem X8_template_reuse :
  forall (my_placement : string) (tens1 tens2 : list Tensor) (descs : list ShardedTensor),
    (List.length descs <= List.length tens2)%nat ->
    snd (_mcore_to_pyt_sharded_tensor my_placement tens2
           (fst (_mcore_to_pyt_sharded_tensor my_placement tens1 descs)))
    = snd (_mcore_to_pyt_sharded_tensor my_placement tens2 descs).
Proof.
  intros pl tens1 tens2 descs Hlen.
  unfold _mcore_to_pyt_sharded_tensor. simpl.
  destruct (zip_loop_after_load tens2 descs (fst (zip_loop tens1 descs))
              (zip_loop_loaded_from tens1 descs)) as (S1 & S2).
  rewrite S1. destruct (snd (zip_loop tens2 descs)) as [[]|e] eqn:E; simpl;
    [|reflexivity].
  rewrite S2; [reflexivity | exact Hlen | reflexivity].
Qed.

Lemma X8_witness :
  snd (_mcore_to_pyt_sharded_tensor "rank:0/cuda" [mkTensor 8 [3] 0]
         (fst (_mcore_to_pyt_sharded_tensor "rank:0/cuda" [mkTensor 7 [3] 0]
                 [layer_descriptor])))
  = snd (_mcore_to_pyt_sharded_tensor "rank:0/cuda" [mkTensor 8 [3] 0] [layer_descriptor]).
Proof.
  apply (X8_template_reuse "rank:0/cuda" [mkTensor 7 [3] 0] [mkTensor 8 [3] 0]
           [layer_descriptor]).
  simpl. lia.
Defined.

(** ** toDialectB followed by toDialectA *)

Lemma mul_div_exact (f e : Z) : e <> 0 -> f * e / e = f.
Proof. intros He. apply Z.div_mul. exact He. Qed.

(** X9.  Loading one descriptor whose geometry is exact and translating the
    Dialect-B tensor back without prepend offsets gives one descriptor
    with the loaded buffer and the geometry of the template descriptor
    behind its prepended axes: the same global shape, global offset, axis
    fragmentation and local shape. *)
Theorem X9_load_then_save :
  forall (my_placement k prefix : string) (allow : bool) (ten : Tensor)
         (d : ShardedTensor) (r : TorchShardedTensor) (descs' : list ShardedTensor),
    exact_geometry d ->
    snd (_mcore_to_pyt_sharded_tensor my_placement [ten] [d]) = Ok r ->
    _torch_to_mcore_sharded_tensor k r [] prefix allow = Ok descs' ->
    exists d',
      descs' = [d'] /\
      global_shape d' = skipn (prepend_axis_num d) (global_shape d) /\
      global_offset d' = skipn (prepend_axis_num d) (global_offset d) /\
      axis_fragmentations d' = skipn (prepend_axis_num d) (axis_fragmentations d) /\
      local_shape d' = local_shape d /\
      prepend_axis_num d' = 0%nat /\
      option_map buffer (data d') = Some (buffer ten).
Proof.
  intros pl k prefix allow ten d r descs' (Haf & Hex) HB HA.
  set (p := prepend_axis_num d) in *.
  unfold _mcore_to_pyt_sharded_tensor in HB. simpl in HB.
  destruct (Mcore.validate_metadata_integrity (rebind ten d)) as [[]|e] eqn:Hv;
    simpl in HB; [|discriminate].
  apply validate_Ok_iff in Hv. destruct Hv as (Hdm & L1 & L2 & Hdiv). simpl in *.
  fold p in L1, L2, Hdiv.
  unfold Mcore.sharded_tensor_to_torch_sharded_tensor in HB. simpl in HB.
  inversion HB; subst r. clear HB.
  destruct (torch_to_mcore_Ok _ _ _ _ _ _ HA) as (_ & fr & Hfr & Hl).
  destruct (axis_fragm_of_Ok _ _ _ Hfr) as (Lfr & Nfr).
  cbn [size local_shards] in Hl, Lfr, Nfr.
  apply shards_loop_Ok in Hl.
  inversion Hl as [|ls d' l1 l2 (new & Hnew & Hd) Hrest]; subst.
  inversion Hrest; subst. exists d'. split; [reflexivity|].
  destruct (from_rank_offsets_Ok _ _ _ _ _ _ _ Hd)
    as ((_ & K2 & _ & K4 & _ & K6 & _) & _).
  destruct (descriptor_geometry _ _ _ _ _ _ _ Hnew Hd) as (G1 & _ & (M1 & M2 & M3)).
  simpl in K2, K4, K6, G1, M1, M2, M3, Nfr, Lfr. fold p in G1, Nfr, Lfr.
  assert (Lls : List.length (local_shape d) = List.length (skipn p (global_shape d)))
    by lia.
  assert (Hpair : forall j o e,
             nth_error (skipn p (global_offset d)) j = Some o ->
             nth_error (local_shape d) j = Some e -> e <> 0 /\ o mod e = 0).
  { intros j o e Ho He. rewrite Forall_forall in Hdiv.
    apply (Hdiv (o, e)). revert Ho He.
    generalize (skipn p (global_offset d)) as os. generalize (local_shape d) as es.
    induction j as [|j IHj]; intros [|e0 es] [|o0 os] Ho He; simpl in *;
      try discriminate.
    - inversion Ho; inversion He; subst. left; reflexivity.
    - right. apply IHj; assumption. }
  assert (Lafs : List.length (skipn p (axis_fragmentations d))
                 = List.length (skipn p (global_shape d)))
    by (rewrite !length_skipn; lia).
  split; [|split; [|split; [|split; [exact K4 | split; [exact K6|]]]]].
  - apply nth_error_ext. intros j.
    destruct (nth_error fr j) as [f|] eqn:Hf.
    + destruct (G1 _ _ Hf) as (o & s & e & Ho & Hs & Hnz & He & _ & B & _).
      assert (s = e) by congruence. subst s.
      assert (Hj : (j < List.length (skipn p (global_shape d)))%nat)
        by (rewrite <- Lfr; apply nth_error_Some; congruence).
      destruct (Nfr j Hj) as (g & ls0 & s0 & Hg & H0 & Hs0 & _ & Hq).
      inversion H0; subst ls0. simpl in Hs0.
      assert (s0 = e) by congruence. subst s0.
      assert (f = g / e) by congruence. subst f.
      destruct (nth_error (skipn p (axis_fragmentations d)) j) as [f0|] eqn:Hf0;
        [|apply nth_error_None in Hf0; lia].
      pose proof (Hex j g e f0 Hg He Hf0) as Eg. subst g.
      rewrite B, Hg. f_equal. rewrite mul_div_exact by exact Hnz. reflexivity.
    + apply nth_error_None in Hf.
      transitivity (@None Z); [|symmetry]; apply nth_error_None; lia.
  - apply nth_error_ext. intros j.
    destruct (nth_error fr j) as [f|] eqn:Hf.
    + destruct (G1 _ _ Hf) as (o & s & e & Ho & Hs & Hnz & He & _ & _ & C).
      assert (s = e) by congruence. subst s.
      destruct (Hpair j o e Ho He) as (_ & Hm).
      rewrite C, Ho. f_equal. apply div_mul_exact; assumption.
    + apply nth_error_None in Hf.
      transitivity (@None Z); [|symmetry]; apply nth_error_None; lia.
  - apply nth_error_ext. intros j.
    destruct (nth_error fr j) as [f|] eqn:Hf.
    + destruct (G1 _ _ Hf) as (o & s & e & Ho & Hs & Hnz & He & A & _ & _).
      assert (s = e) by congruence. subst s.
      assert (Hj : (j < List.length (skipn p (global_shape d)))%nat)
        by (rewrite <- Lfr; apply nth_error_Some; congruence).
      destruct (Nfr j Hj) as (g & ls0 & s0 & Hg & H0 & Hs0 & _ & Hq).
      inversion H0; subst ls0. simpl in Hs0.
      assert (s0 = e) by congruence. subst s0.
      assert (f = g / e) by congruence. subst f.
      destruct (nth_error (skipn p (axis_fragmentations d)) j) as [f0|] eqn:Hf0;
        [|apply nth_error_None in Hf0; lia].
      pose proof (Hex j g e f0 Hg He Hf0) as Eg. subst g.
      rewrite A. f_equal. apply mul_div_exact. exact Hnz.
    + apply nth_error_None in Hf.
      transitivity (@None Z); [|symmetry]; apply nth_error_None; lia.
  - rewrite K2. reflexivity.
Qed.

Lemma layer_descriptor_exact : exact_geometry layer_descriptor.
Proof.
  split; [reflexivity|]. intros [|j] g e f Hg He Hf; simpl in *.
  - inversion Hg; inversion He; inversion Hf; subst. reflexivity.
  - destruct j; discriminate.
Qed.

Lemma X9_witness :
  exists d',
    [mkShardedTensor "k" (Some (mkTensor 7 [3] 0)) 0 [3] [9] [0] [3] (ReplicaInt 0) 0 false]
    = [d'] /\
    global_shape d' = skipn (prepend_axis_num layer_descriptor) (global_shape layer_descriptor) /\
    global_offset d' = skipn (prepend_axis_num layer_descriptor) (global_offset layer_descriptor) /\
    axis_fragmentations d'
    = skipn (prepend_axis_num layer_descriptor) (axis_fragmentations layer_descriptor) /\
    local_shape d' = local_shape layer_descriptor /\
    prepend_axis_num d' = 0%nat /\
    option_map buffer (data d') = Some (buffer (mkTensor 7 [3] 0)).
Proof.
  apply (X9_load_then_save "rank:0/cuda" "k" EmptyString false (mkTensor 7 [3] 0)
           layer_descriptor
           (mkTorchShardedTensor [9]
              [mkShard (mkTensor 7 [3] 0) (mkShardMetadata [0] [3] "rank:0/cuda")])).
  - exact layer_descriptor_exact.
  - reflexivity.
  - reflexivity.
Defined.

(** ** What [mcore_to_pyt_sharded_state_dict] leaves alone *)

Lemma merged_from_CDict (d d' : list (string * ckpt_value)) :
  merged_from (CDict d) (CDict d') <->
  Forall2 (fun x y => fst x = fst y /\ merged_from (snd x) (snd y)) d d'.
Proof.
  simpl. revert d'. induction d as [|[k v] d IH]; intros [|[k' v'] d']; simpl.
  - split; auto.
  - split; [contradiction | intros H; inversion H].
  - split; [contradiction | intros H; inversion H].
  - rewrite IH. split.
    + intros (E & S & F). constructor; auto.
    + intros H. inversion H; subst. simpl in *. tauto.
Qed.

Lemma merged_from_refl (a : ckpt_value) : merged_from a a.
Proof.
  induction a as [d IH|l|b|t] using ckpt_value_nested_ind; try reflexivity.
  apply merged_from_CDict. induction IH; constructor; auto.
Qed.

Lemma merged_from_trans (a : ckpt_value) :
  forall b c, merged_from a b -> merged_from b c -> merged_from a c.
Proof.
  induction a as [d IH|l|b0|t] using ckpt_value_nested_ind; intros b c H1 H2.
  - destruct b as [d'|?|?|?]; try contradiction.
    destruct c as [d''|?|?|?]; try contradiction.
    apply merged_from_CDict. apply merged_from_CDict in H1.
    apply merged_from_CDict in H2.
    revert d'' H2 IH. induction H1 as [|x y d d' (E & S) _ IHF]; intros d'' H2 IH;
      inversion H2 as [|? z ? d3 (E' & S') H3]; subst; constructor.
    + split; [congruence|]. apply (Forall_inv IH) with (b := snd y); assumption.
    + apply IHF; [assumption | exact (Forall_inv_tail IH)].
  - destruct b as [?|l'|?|t']; try contradiction; simpl in H1.
    + subst l'. exact H2.
    + destruct c; try contradiction. exact I.
  - destruct b; try contradiction. simpl in H1. subst. exact H2.
  - destruct b; try contradiction. simpl in H1. subst. exact H2.
Qed.

Lemma dict_setitem_merged (d : list (string * ckpt_value)) (k : string)
      (v v' : ckpt_value) :
  dict_get d k = Some v -> merged_from v v' ->
  Forall2 (fun x y => fst x = fst y /\ merged_from (snd x) (snd y))
          d (dict_setitem d k v').
Proof.
  intros Hs Hv. induction d as [|[k1 v1] d IH]; simpl in Hs |- *; [discriminate|].
  destruct (String.eqb k k1).
  - inversion Hs; subst. constructor; [simpl; auto|].
    apply merged_from_CDict. apply merged_from_refl.
  - constructor; [simpl; split; [reflexivity | apply merged_from_refl]|].
    apply IH. exact Hs.
Qed.

Lemma store_merged (a : ckpt_value) (k : string) (v v' a' : ckpt_value) :
  subscript a k = Ok v -> merged_from v v' -> store a k v' = Ok a' ->
  merged_from a a'.
Proof.
  intros Hs Hv Hst. destruct a as [d|?|?|?]; try discriminate.
  unfold subscript, dict_getitem in Hs. unfold store in Hst.
  inversion Hst; subst. apply merged_from_CDict.
  destruct (dict_get d k) as [v0|] eqn:E; [|discriminate].
  inversion Hs; subst. apply dict_setitem_merged with (v := v); assumption.
Qed.

Lemma convert_at_merged (pl : string) (tv : tmpl_value) :
  forall ck k ck', convert_at pl tv ck k = Ok ck' -> merged_from ck ck'.
Proof.
  induction tv as [items IH|o|l] using tmpl_value_nested_ind; intros ck k ck' H.
  - rewrite convert_at_TDict in H.
    revert ck ck' H. induction IH as [|[kk tvv] items Hkt _ IHi]; intros ck ck' H;
      simpl in H.
    + inversion H; subst. apply merged_from_refl.
    + bind_as H sub Hsub. bind_as H sub' Hsub'. bind_as H ck1 Hck1.
      pose proof (Hkt _ _ _ Hsub') as M. simpl in M.
      pose proof (store_merged _ _ _ _ _ Hsub M Hck1) as M1.
      apply merged_from_trans with (b := ck1); [exact M1 | apply IHi; exact H].
  - simpl in H. inversion H; subst. apply merged_from_refl.
  - simpl in H. bind_as H v Hv. bind_as H tens Htens. bind_as H r Hr.
    apply (store_merged ck k v (CTorch r) ck' Hv); [|exact H].
    destruct v; try discriminate. exact I.
Qed.

(** X10.  On a checkpoint that holds a list of buffers wherever the
    template holds a list of descriptors,
    [mcore_to_pyt_sharded_state_dict] never adds, removes, renames or
    reorders a key of the checkpoint, at any depth, and it changes no leaf
    except lists of loaded buffers, which it leaves as they are or replaces
    by a Dialect-B tensor: loaded byte blobs come back untouched. *)
Theorem X10_merge_leaves_alone :
  forall (my_placement : string) (checkpoint : list (string * ckpt_value))
         (sharded_state_dict : list (string * tmpl_value)) (out : ckpt_value),
    lists_at_tensor_keys (TDict sharded_state_dict) (CDict checkpoint) ->
    mcore_to_pyt_sharded_state_dict my_placement checkpoint sharded_state_dict = Ok out ->
    merged_from (CDict checkpoint) out.
Proof.
  intros pl ck tmpl out _ H. unfold mcore_to_pyt_sharded_state_dict in H.
  revert H. generalize (CDict ck) as c. generalize (dict_keys ck) as keys.
  induction keys as [|k keys IH]; intros c H; simpl in H.
  - inversion H; subst. apply merged_from_refl.
  - bind_as H c1 Hc1. unfold _convert in Hc1.
    destruct (dict_get tmpl k) as [tv|]; [|discriminate].
    apply merged_from_trans with (b := c1);
      [exact (convert_at_merged _ _ _ _ _ Hc1) | apply IH; exact H].
Qed.

Lemma X10_witness :
  exists out,
    mcore_to_pyt_sharded_state_dict "rank:0/cuda" checkpoint_with_leaf nested_template
    = Ok out /\
    merged_from (CDict checkpoint_with_leaf) out.
Proof.
  eexists. split; [reflexivity|].
  eapply (X10_merge_leaves_alone "rank:0/cuda" checkpoint_with_leaf nested_template).
  - simpl. tauto.
  - reflexivity.
Defined.

Lemma merged_by_TDict (items : list (string * tmpl_value)) (out : ckpt_value) (k : string) :
  merged_by (TDict items) out k <->
  items = [] \/
  exists sub, subscript out k = Ok sub /\
              Forall (fun kt => merged_by (snd kt) sub (fst kt)) items.
Proof.
  simpl.
  assert (E : forall sub (l : list (string * tmpl_value)),
             (fix all (items : list (string * tmpl_value)) : Prop :=
                match items with
                | [] => True
                | (kk, tvv) :: rest => merged_by tvv sub kk /\ all rest
                end) l
             <-> Forall (fun kt => merged_by (snd kt) sub (fst kt)) l).
  { intros sub l. induction l as [|[kk tvv] l IH]; simpl.
    - split; auto.
    - rewrite IH. split.
      + intros [H1 H2]; constructor; assumption.
      + intros H; inversion H; subst; auto. }
  split; (intros [H|(sub & Hs & H)]; [left; exact H | right; exists sub]);
    (split; [exact Hs | apply E; exact H]).
Qed.

Lemma subscript_merged (a b : ckpt_value) (k : string) (v : ckpt_value) :
  merged_from a b -> subscript a k = Ok v ->
  exists v', subscript b k = Ok v' /\ merged_from v v'.
Proof.
  intros H Hs. destruct a as [d|?|?|?]; try discriminate.
  destruct b as [d'|?|?|?]; try contradiction.
  apply merged_from_CDict in H. simpl in *. unfold dict_getitem in *.
  induction H as [|[k1 v1] [k2 v2] d d' (E & S) _ IH]; simpl in *; [discriminate|].
  subst k2. destruct (String.eqb k k1).
  - inversion Hs; subst. eauto.
  - apply IH; assumption.
Qed.

Lemma merged_by_kept (tv : tmpl_value) :
  forall a b k, merged_from a b -> merged_by tv a k -> merged_by tv b k.
Proof.
  induction tv as [items IH|o|l] using tmpl_value_nested_ind; intros a b k Hab H.
  - apply merged_by_TDict. apply merged_by_TDict in H.
    destruct H as [H|(sub & Hs & H)]; [left; exact H | right].
    destruct (subscript_merged _ _ _ _ Hab Hs) as (sub' & Hs' & Hsub).
    exists sub'. split; [exact Hs'|].
    clear Hs Hs'. induction IH as [|kt items Hkt _ IHi]; [constructor|].
    constructor.
    + apply Hkt with (a := sub); [exact Hsub | exact (Forall_inv H)].
    + apply IHi. exact (Forall_inv_tail H).
  - exact I.
  - destruct H as (t & Ht).
    destruct (subscript_merged _ _ _ _ Hab Ht) as (v' & Hv' & M).
    destruct v'; simpl in M; try contradiction. eexists. exact Hv'.
Qed.

Lemma subscript_store (c : ckpt_value) (k : string) (v c' : ckpt_value) :
  store c k v = Ok c' -> subscript c' k = Ok v.
Proof.
  destruct c as [d|?|?|?]; try discriminate. intros H. inversion H; subst.
  clear H. simpl. unfold dict_getitem.
  induction d as [|[k1 v1] d IH]; simpl.
  - rewrite String.eqb_refl. reflexivity.
  - destruct (String.eqb k k1) eqn:E; simpl; rewrite E; [reflexivity | exact IH].
Qed.

Lemma convert_at_merged_by (pl : string) (tv : tmpl_value) :
  forall ck k ck', convert_at pl tv ck k = Ok ck' -> merged_by tv ck' k.
Proof.
  induction tv as [items IH|o|l] using tmpl_value_nested_ind; intros ck k ck' H.
  - rewrite convert_at_TDict in H. rewrite merged_by_TDict.
    revert ck ck' H. induction IH as [|[kk tvv] items Hkt _ IHi]; intros ck ck' H;
      simpl in H.
    + left; reflexivity.
    + right. bind_as H sub Hsub. bind_as H sub' Hsub'. bind_as H ck1 Hck1.
      pose proof (Hkt _ _ _ Hsub') as Hhd. simpl in Hhd.
      pose proof (subscript_store _ _ _ _ Hck1) as Hs1.
      assert (M : merged_from ck1 ck').
      { rewrite <- convert_at_TDict in H. exact (convert_at_merged _ _ _ _ _ H). }
      destruct (subscript_merged _ _ _ _ M Hs1) as (sub2 & Hs2 & M2).
      exists sub2. split; [exact Hs2|]. constructor.
      * simpl. apply merged_by_kept with (a := sub'); assumption.
      * destruct (IHi _ _ H) as [->|(sub3 & Hs3 & Hall)]; [constructor|].
        assert (sub3 = sub2) by congruence. subst. exact Hall.
  - exact I.
  - simpl in H. bind_as H v Hv. bind_as H tens Htens. bind_as H r Hr.
    exists r. apply (subscript_store _ _ _ _ H).
Qed.

(** X11.  When [mcore_to_pyt_sharded_state_dict] returns, every top-level
    key of the checkpoint is a template key, and every descriptor-list leaf
    the template has under it, at any depth, holds a Dialect-B tensor in
    the result. *)
Theorem X11_tensor_leaves_merged :
  forall (my_placement : string) (checkpoint : list (string * ckpt_value))
         (sharded_state_dict : list (string * tmpl_value)) (out : ckpt_value),
    mcore_to_pyt_sharded_state_dict my_placement checkpoint sharded_state_dict = Ok out ->
    forall k, In k (dict_keys checkpoint) ->
      exists tv, dict_get sharded_state_dict k = Some tv /\ merged_by tv out k.
Proof.
  intros pl ck tmpl out H. unfold mcore_to_pyt_sharded_state_dict in H.
  revert H. generalize (CDict ck) as c. generalize (dict_keys ck) as keys.
  induction keys as [|k keys IH]; intros c H k' Hin; [contradiction|].
  simpl in H. bind_as H c1 Hc1.
  destruct Hin as [<-|Hin]; [|exact (IH _ H k' Hin)].
  unfold _convert in Hc1.
  destruct (dict_get tmpl k) as [tv|] eqn:Htv; [|discriminate].
  exists tv. split; [reflexivity|].
  apply merged_by_kept with (a := c1); [|exact (convert_at_merged_by _ _ _ _ _ Hc1)].
  clear - H. revert c1 H. induction keys as [|k keys IH]; intros c1 H; simpl in H.
  - inversion H; subst. apply merged_from_refl.
  - bind_as H c2 Hc2. unfold _convert in Hc2.
    destruct (dict_get tmpl k) as [tv|]; [|discriminate].
    apply merged_from_trans with (b := c2);
      [exact (convert_at_merged _ _ _ _ _ Hc2) | apply IH; exact H].
Qed.

Lemma X11_witness :
  exists out,
    mcore_to_pyt_sharded_state_dict "rank:0/cuda" checkpoint_with_leaf nested_template
    = Ok out /\
    forall k, In k (dict_keys checkpoint_with_leaf) ->
      exists tv, dict_get nested_template k = Some tv /\ merged_by tv out k.
Proof.
  eexists. split; [reflexivity|].
  eapply (X11_tensor_leaves_merged "rank:0/cuda" checkpoint_with_leaf nested_template).
  reflexivity.
Defined.

(** ** [pyt_to_mcore_state_dict] as a leaf-wise map *)

Lemma bind_Ok_r {A : Type} (m : result A) : (x <- m ;; Ok x) = m.
Proof. destruct m; reflexivity. Qed.

Lemma bind_assoc {A B C : Type} (m : result A) (f : A -> result B) (g : B -> result C) :
  (y <- (x <- m ;; f x) ;; g y) = (x <- m ;; y <- f x ;; g y).
Proof. destruct m; reflexivity. Qed.

Lemma well_keyed_VDict (d : list (string * value)) :
  well_keyed (VDict d) <->
  NoDup (List.map fst d) /\ Forall (fun kv => well_keyed (snd kv)) d.
Proof.
  simpl.
  assert (E : forall l : list (string * value),
             (fix all (d : list (string * value)) : Prop :=
                match d with
                | [] => True
                | (_, vv) :: rest => well_keyed vv /\ all rest
                end) l
             <-> Forall (fun kv => well_keyed (snd kv)) l).
  { induction l as [|[kk vv] l IH]; simpl.
    - split; auto.
    - rewrite IH. split.
      + intros [H1 H2]; constructor; assumption.
      + intros H; inversion H; subst; auto. }
  rewrite E. reflexivity.
Qed.

Lemma save_value_VDict (dp : Z) (sh_key : string) (prepend : list RankOffset)
      (allow : bool) (prefix : string) (items : list (string * value)) :
  save_value dp sh_key prepend allow prefix (VDict items)
  = (items' <- save_items dp sh_key prepend allow prefix items ;; Ok (VDict items')).
Proof. reflexivity. Qed.

Lemma dict_get_middle {V : Type} (done rest : list (string * V)) (k : string) (v : V) :
  ~ In k (dict_keys done) -> dict_get (done ++ (k, v) :: rest) k = Some v.
Proof.
  induction done as [|[k0 v0] done IH]; intros Hn; simpl in *.
  - rewrite String.eqb_refl. reflexivity.
  - destruct (String.eqb_spec k k0) as [E|E]; [exfalso; auto|]. apply IH. auto.
Qed.

Lemma dict_setitem_same {V : Type} (d : list (string * V)) (k : string) (v : V) :
  dict_get d k = Some v -> dict_setitem d k v = d.
Proof.
  induction d as [|[k0 v0] d IH]; intros H; simpl in *; [discriminate|].
  destruct (String.eqb_spec k k0) as [E|E].
  - inversion H; subst. reflexivity.
  - f_equal. apply IH. exact H.
Qed.

Lemma NoDup_keys_head {V : Type} (done : list (string * V)) (k : string) (v : V)
      (rest : list (string * V)) :
  NoDup (List.map fst (done ++ (k, v) :: rest)) -> ~ In k (dict_keys done).
Proof.
  unfold dict_keys. rewrite map_app. simpl. intros Hnd Hin.
  apply NoDup_remove_2 in Hnd. apply Hnd. apply in_or_app. left; exact Hin.
Qed.

Section Refinement.
Variable dp : Z.
Variable sh_key : string.
Variable prepend : list RankOffset.
Variable allow : bool.

Lemma convert_items_refines (prefix : string) (items : list (string * value)) :
  Forall (fun kv =>
            well_keyed (snd kv) ->
            forall sd k prefix,
              dict_get sd k = Some (snd kv) ->
              convert_save dp (snd kv) sd k sh_key prepend prefix allow
              = (v' <- save_value dp sh_key prepend allow prefix (snd kv) ;;
                 Ok (dict_setitem sd k v'))) items ->
  Forall (fun kv => well_keyed (snd kv)) items ->
  forall done,
    NoDup (List.map fst (done ++ items)) ->
    convert_items dp sh_key prepend allow prefix items (done ++ items)
    = (items' <- save_items dp sh_key prepend allow prefix items ;;
       Ok (done ++ items')).
Proof.
  induction items as [|[kk vv] items IHi]; intros HIH Hwk done Hnd; simpl.
  - rewrite app_nil_r. reflexivity.
  - pose proof (NoDup_keys_head _ _ _ _ Hnd) as Hk.
    rewrite (Forall_inv HIH (Forall_inv Hwk) _ kk _ (dict_get_middle done items kk vv Hk)).
    simpl.
    destruct (save_value dp sh_key prepend allow (prefix ++ kk ++ ".") vv) as [vv'|e];
      simpl; [|reflexivity].
    rewrite (dict_setitem_middle done items kk vv vv' Hk).
    replace (done ++ (kk, vv') :: items) with ((done ++ [(kk, vv')]) ++ items)
      by (rewrite <- app_assoc; reflexivity).
    rewrite (IHi (Forall_inv_tail HIH) (Forall_inv_tail Hwk)).
    + destruct (save_items dp sh_key prepend allow prefix items) as [rest'|e]; simpl;
        [|reflexivity].
      rewrite <- app_assoc. reflexivity.
    + rewrite <- app_assoc. simpl. rewrite map_app in *. simpl in *. exact Hnd.
Qed.

Lemma convert_save_refines :
  forall (v : value),
    well_keyed v ->
    forall sd k prefix,
      dict_get sd k = Some v ->
      convert_save dp v sd k sh_key prepend prefix allow
      = (v' <- save_value dp sh_key prepend allow prefix v ;;
         Ok (dict_setitem sd k v')).
Proof.
  induction v as [d IH|t|b|l|o|t] using value_nested_ind;
    intros Hwk sd k prefix Hget.
  - rewrite convert_save_VDict, save_value_VDict, bind_assoc.
    apply well_keyed_VDict in Hwk. destruct Hwk as (Hnd & Hall).
    pose proof (convert_items_refines prefix d IH Hall [] Hnd) as E.
    simpl in E. rewrite E, bind_Ok_r. reflexivity.
  - simpl. rewrite bind_assoc. reflexivity.
  - simpl. rewrite bind_assoc. reflexivity.
  - simpl. rewrite (dict_setitem_same _ _ _ Hget). reflexivity.
  - simpl. rewrite (dict_setitem_same _ _ _ Hget). reflexivity.
  - simpl. rewrite (dict_setitem_same _ _ _ Hget). reflexivity.
Qed.

End Refinement.

Lemma for_items_refines (dp n : Z) (prefix : string) (items : list (string * value)) :
  Forall (fun kv => well_keyed (snd kv)) items ->
  forall done,
    NoDup (List.map fst (done ++ items)) ->
    for_items dp items (done ++ items) n prefix
    = (items' <- save_top_items dp n prefix items ;; Ok (done ++ items')).
Proof.
  induction items as [|[k v] items IH]; intros Hwk done Hnd; simpl.
  - rewrite app_nil_r. reflexivity.
  - destruct (key_args k n) as [[[sh_key prepend] allow]|e]; simpl; [|reflexivity].
    pose proof (NoDup_keys_head _ _ _ _ Hnd) as Hk.
    rewrite (convert_save_refines dp sh_key prepend allow v (Forall_inv Hwk)
               _ k prefix (dict_get_middle done items k v Hk)).
    destruct (save_value dp sh_key prepend allow prefix v) as [v'|e]; simpl;
      [|reflexivity].
    rewrite (dict_setitem_middle done items k v v' Hk).
    replace (done ++ (k, v') :: items) with ((done ++ [(k, v')]) ++ items)
      by (rewrite <- app_assoc; reflexivity).
    rewrite (IH (Forall_inv_tail Hwk)).
    + destruct (save_top_items dp n prefix items) as [rest'|e]; simpl; [|reflexivity].
      rewrite <- app_assoc. reflexivity.
    + rewrite <- app_assoc. simpl. rewrite map_app in *. simpl in *. exact Hnd.
Qed.

Lemma pyt_to_mcore_leafwise (dp : Z) (state_dict : list (string * value))
      (prefix : string) :
  well_keyed (VDict state_dict) ->
  pyt_to_mcore_state_dict dp state_dict prefix = save_state_dict dp state_dict prefix.
Proof.
  intros Hwk. apply well_keyed_VDict in Hwk. destruct Hwk as (Hnd & Hall).
  unfold pyt_to_mcore_state_dict, save_state_dict.
  destruct (count_layers (dict_keys state_dict) 0) as [n|e]; simpl; [|reflexivity].
  destruct (Py.assert_ (negb (n =? 0))); simpl; [|reflexivity].
  pose proof (for_items_refines dp n prefix state_dict Hall [] Hnd) as E. simpl in E.
  rewrite E, bind_Ok_r. reflexivity.
Qed.

Lemma save_sample_well_keyed : well_keyed (VDict save_sample).
Proof.
  apply well_keyed_VDict. split; [exact save_sample_keys|].
  unfold save_sample. repeat constructor; simpl; try tauto.
Qed.

(** X12.  On a state dict whose mappings have distinct keys at every depth
    and in which no object that the walk updates in place is held twice
    (the non-empty lists of local shards of its tensors are pairwise
    different, and so are its non-empty mappings), the in-place walk of
    [pyt_to_mcore_state_dict] computes the leaf-wise map
    [save_state_dict], with the same result and the same error: each entry
    is rebuilt in its place from its own value. *)
Theorem X12_walk_is_leafwise :
  forall (dp : Z) (state_dict : list (string * value)) (prefix : string),
    well_keyed (VDict state_dict) ->
    unshared (VDict state_dict) ->
    pyt_to_mcore_state_dict dp state_dict prefix = save_state_dict dp state_dict prefix.
Proof.
  intros dp sd prefix Hwk _. apply pyt_to_mcore_leafwise. exact Hwk.
Qed.

Lemma X12_witness :
  pyt_to_mcore_state_dict 3 unshared_sample EmptyString
  = save_state_dict 3 unshared_sample EmptyString.
Proof.
  apply (X12_walk_is_leafwise 3 unshared_sample EmptyString).
  - apply well_keyed_VDict. split.
    + repeat constructor; simpl; intuition discriminate.
    + unfold unshared_sample. repeat constructor; simpl; tauto.
  - split; repeat constructor; simpl; intuition discriminate.
Defined.

(** ** What the save walk leaves in the state dict *)

Lemma saved_from_VDict (d d' : list (string * value)) :
  saved_from (VDict d) (VDict d') <->
  Forall2 (fun kv kv' => fst kv = fst kv' /\ saved_from (snd kv) (snd kv')) d d'.
Proof.
  simpl. revert d'.
  induction d as [|[k x] d IH]; intros [|[k' x'] d']; simpl.
  - split; auto.
  - split; [intros [] | intros H; inversion H].
  - split; [intros [] | intros H; inversion H].
  - rewrite IH. split.
    + intros (E & S & F). constructor; auto.
    + intros H. inversion H; subst. simpl in *. tauto.
Qed.


Lemma save_items_Ok (dp : Z) (sh_key : string) (prepend : list RankOffset)
      (allow : bool) (prefix : string) (items : list (string * value)) :
  forall items',
    save_items dp sh_key prepend allow prefix items = Ok items' ->
    Forall2 (fun kv kv' =>
               fst kv = fst kv' /\
               save_value dp sh_key prepend allow (prefix ++ fst kv ++ ".") (snd kv)
               = Ok (snd kv')) items items'.
Proof.
  induction items as [|[kk vv] items IH]; intros items' H; simpl in H.
  - inversion H; subst. constructor.
  - bind_as H vv' Hvv. bind_as H rest' Hrest. inversion H; subst.
    constructor; [split; [reflexivity | exact Hvv] | apply IH; exact Hrest].
Qed.

Lemma save_top_items_Ok (dp n : Z) (prefix : string) (items : list (string * value)) :
  forall items',
    save_top_items dp n prefix items = Ok items' ->
    Forall2 (fun kv kv' =>
               fst kv = fst kv' /\
               exists sh_key prepend allow,
                 key_args (fst kv) n = Ok (sh_key, prepend, allow) /\
                 save_value dp sh_key prepend allow prefix (snd kv) = Ok (snd kv'))
            items items'.
Proof.
  induction items as [|[k v] items IH]; intros items' H; simpl in H.
  - inversion H; subst. constructor.
  - bind_as H a Ha. destruct a as [[sh_key prepend] allow].
    bind_as H v' Hv. bind_as H rest' Hrest. inversion H; subst.
    constructor; [|apply IH; exact Hrest].
    split; [reflexivity|]. exists sh_key, prepend, allow. split; assumption.
Qed.

Lemma produced_buffers (k : string) (t : TorchShardedTensor) (prepend : list RankOffset)
      (prefix : string) (allow : bool) (l : list ShardedTensor) :
  _torch_to_mcore_sharded_tensor k t prepend prefix allow = Ok l ->
  List.map data l = List.map (fun ls => Some (tensor ls)) (local_shards t) /\
  Forall (fun d => key d = (prefix ++ k)%string) l.
Proof.
  intros H. destruct (torch_to_mcore_Ok _ _ _ _ _ _ H) as (_ & fr & _ & Hl).
  apply shards_loop_Ok in Hl. clear H.
  induction Hl as [|ls d shards ds (new & _ & Hd) _ [IH1 IH2]]; [split; constructor|].
  destruct (from_rank_offsets_Ok _ _ _ _ _ _ _ Hd) as ((K & D & _) & _).
  split; [simpl; rewrite D, IH1; reflexivity | constructor; assumption].
Qed.

Lemma produced_blob (dp : Z) (k : string) (b : BytesIO) (offs : list RankOffset)
      (prefix : string) (o : ShardedObject) :
  _torch_to_mcore_sharded_object dp k b offs prefix = Ok o ->
  obj_data o = b /\ obj_key o = (prefix ++ k)%string.
Proof.
  unfold _torch_to_mcore_sharded_object, Mcore.new_ShardedObject. intros H.
  bind_as H r Hr. destruct (Nat.eqb _ _); [|discriminate].
  inversion H; subst. split; reflexivity.
Qed.

Lemma save_value_saved_from (dp : Z) (sh_key : string) (prepend : list RankOffset)
      (allow : bool) :
  forall (v : value) (prefix : string) (v' : value),
    save_value dp sh_key prepend allow prefix v = Ok v' -> saved_from v v'.
Proof.
  induction v as [d IH|t|b|l|o|t] using value_nested_ind; intros prefix v' H.
  - rewrite save_value_VDict in H. bind_as H items' Hi. inversion H; subst. clear H.
    apply saved_from_VDict. apply save_items_Ok in Hi.
    induction Hi as [|kv kv' d d' [E Hv] _ IHd]; constructor.
    + split; [exact E|]. exact (Forall_inv IH _ _ Hv).
    + apply IHd. exact (Forall_inv_tail IH).
  - simpl in H. bind_as H l Hl. inversion H; subst. simpl.
    exact (proj1 (produced_buffers _ _ _ _ _ _ Hl)).
  - simpl in H. bind_as H o Ho. inversion H; subst. simpl.
    exact (proj1 (produced_blob _ _ _ _ _ _ Ho)).
  - simpl in H. inversion H; subst. reflexivity.
  - simpl in H. inversion H; subst. reflexivity.
  - simpl in H. inversion H; subst. reflexivity.
Qed.



Lemma save_state_dict_Ok (dp : Z) (state_dict : list (string * value)) (prefix : string)
      (out : list (string * value)) :
  save_state_dict dp state_dict prefix = Ok out ->
  exists num,
    count_layers (dict_keys state_dict) 0 = Ok num /\ num <> 0 /\
    save_top_items dp num prefix state_dict = Ok out.
Proof.
  unfold save_state_dict. intros H. bind_as H num Hn. exists num.
  split; [exact Hn|]. unfold Py.assert_, Py.assert_msg in H.
  destruct (Z.eqb_spec num 0) as [E|E]; simpl in H; [discriminate|].
  split; assumption.
Qed.

(** X13.  When [pyt_to_mcore_state_dict] succeeds on a state dict with
    distinct keys at every depth, the result has the same mappings with the
    same keys in the same order at every depth; every Dialect-B tensor has
    become one descriptor per local shard, in order, each holding the
    buffer of its shard; every byte blob has become an object shard holding
    that very blob; and every other leaf is unchanged. *)
Theorem X13_save_keeps_structure :
  forall (dp : Z) (state_dict : list (string * value)) (prefix : string)
         (out : list (string * value)),
    well_keyed (VDict state_dict) ->
    pyt_to_mcore_state_dict dp state_dict prefix = Ok out ->
    saved_from (VDict state_dict) (VDict out).
Proof.
  intros dp sd prefix out Hwk H.
  rewrite (pyt_to_mcore_leafwise dp sd prefix Hwk) in H.
  destruct (save_state_dict_Ok _ _ _ _ H) as (num & _ & _ & Ht).
  apply saved_from_VDict. apply save_top_items_Ok in Ht.
  eapply Forall2_impl; [|exact Ht].
  intros kv kv' (E & sh_key & prepend & allow & _ & Hv).
  split; [exact E|]. eapply save_value_saved_from. exact Hv.
Qed.

Lemma X13_witness :
  exists out,
    pyt_to_mcore_state_dict 3 save_sample EmptyString = Ok out /\
    saved_from (VDict save_sample) (VDict out).
Proof.
  eexists. split; [vm_compute; reflexivity|].
  eapply (X13_save_keeps_structure 3 save_sample EmptyString).
  - exact save_sample_well_keyed.
  - vm_compute. reflexivity.
Defined.



(** * Further properties: checkpoint directories *)

Lemma rfind_dot_range (s : string) :
  -1 <= Pathlib.rfind_dot s < Z.of_nat (String.length s).
Proof.
  induction s as [|c r IH]; simpl Pathlib.rfind_dot; simpl String.length; [lia|].
  destruct (Z.leb_spec 0 (Pathlib.rfind_dot r)); [lia|].
  destruct (Ascii.eqb c "."); lia.
Qed.

Lemma rfind_dot_app (s t : string) :
  Pathlib.rfind_dot (s ++ t)
  = if 0 <=? Pathlib.rfind_dot t
    then Z.of_nat (String.length s) + Pathlib.rfind_dot t
    else Pathlib.rfind_dot s.
Proof.
  induction s as [|c r IH]; simpl String.append; simpl String.length.
  - destruct (Z.leb_spec 0 (Pathlib.rfind_dot t)); [lia|].
    simpl. pose proof (rfind_dot_range t). lia.
  - simpl Pathlib.rfind_dot. rewrite IH.
    destruct (Z.leb_spec 0 (Pathlib.rfind_dot t)) as [H|H].
    + destruct (Z.leb_spec 0 (Z.of_nat (String.length r) + Pathlib.rfind_dot t)); lia.
    + reflexivity.
Qed.

Lemma substring_full (s : string) : substring 0 (String.length s) s = s.
Proof. induction s as [|c r IH]; simpl; [reflexivity|]. f_equal. exact IH. Qed.

Lemma substring_0_0 (s : string) : substring 0 0 s = EmptyString.
Proof. destruct s; reflexivity. Qed.

Lemma substring_split (n : nat) (s : string) :
  (n <= String.length s)%nat ->
  (substring 0 n s ++ substring n (String.length s - n) s)%string = s.
Proof.
  revert s. induction n as [|n IH]; intros s H.
  - rewrite substring_0_0, Nat.sub_0_r, substring_full. reflexivity.
  - destruct s as [|c r]; simpl in *; [lia|]. f_equal. apply IH. lia.
Qed.

Lemma substring_0_length (n : nat) (s : string) :
  (n <= String.length s)%nat -> String.length (substring 0 n s) = n.
Proof.
  revert s. induction n as [|n IH]; intros s H.
  - destruct s; reflexivity.
  - destruct s as [|c r]; simpl in *; [lia|]. f_equal. apply IH. lia.
Qed.

Lemma string_length_append (s t : string) :
  String.length (s ++ t) = (String.length s + String.length t)%nat.
Proof. induction s as [|c r IH]; simpl; [reflexivity|]. rewrite IH. reflexivity. Qed.

Lemma string_append_nil_r (s : string) : (s ++ EmptyString)%string = s.
Proof. induction s as [|c r IH]; simpl; [reflexivity|]. rewrite IH. reflexivity. Qed.

Lemma append_inj_l (a b t : string) :
  (a ++ t)%string = (b ++ t)%string -> a = b.
Proof.
  revert b. induction a as [|c a IH]; intros [|d b] H; simpl in H.
  - reflexivity.
  - exfalso. apply (f_equal String.length) in H. simpl in H.
    rewrite string_length_append in H. lia.
  - exfalso. apply (f_equal String.length) in H. simpl in H.
    rewrite string_length_append in H. lia.
  - inversion H; subst. f_equal. apply IH. assumption.
Qed.

Lemma has_sep_app (s t : string) :
  Pathlib.has_sep (s ++ t) = Pathlib.has_sep s || Pathlib.has_sep t.
Proof.
  induction s as [|c r IH]; simpl; [reflexivity|].
  rewrite IH. apply orb_assoc.
Qed.

(** [path.stem + path.suffix == path.name] *)
Lemma stem_suffix (p : Pathlib.Path) :
  (Pathlib.stem p ++ Pathlib.suffix p)%string = Pathlib.name p.
Proof.
  unfold Pathlib.stem, Pathlib.suffix.
  destruct ((0 <? _) && _) eqn:E.
  - apply andb_true_iff in E. destruct E as [E1 E2].
    apply Z.ltb_lt in E1. apply Z.ltb_lt in E2.
    unfold Pathlib.slice_to, Pathlib.slice_from. apply substring_split. lia.
  - apply string_append_nil_r.
Qed.

Lemma suffix_stem_of (p : Pathlib.Path) (st : string) :
  Pathlib.name p = (st ++ ".ckpt")%string -> st <> EmptyString ->
  Pathlib.suffix p = ".ckpt"%string /\ Pathlib.stem p = st.
Proof.
  intros Hn Hs.
  assert (L : (0 < String.length st)%nat) by (destruct st; simpl; [congruence|lia]).
  assert (Es : Pathlib.suffix p = ".ckpt"%string).
  { unfold Pathlib.suffix. rewrite Hn, rfind_dot_app. simpl Pathlib.rfind_dot.
    cbn [Z.leb Z.compare]. rewrite string_length_append. simpl String.length.
    replace ((0 <? Z.of_nat (String.length st) + 0)
             && (Z.of_nat (String.length st) + 0 <? Z.of_nat (String.length st + 5) - 1))
      with true by (symmetry; apply andb_true_iff; split; apply Z.ltb_lt; lia).
    unfold Pathlib.slice_from. rewrite string_length_append. simpl String.length.
    replace (Z.to_nat (Z.of_nat (String.length st) + 0)) with (String.length st) by lia.
    replace (String.length st + 5 - String.length st)%nat with 5%nat by lia.
    clear. induction st as [|c r IH]; simpl; [reflexivity|exact IH]. }
  split; [exact Es|].
  pose proof (stem_suffix p) as E. rewrite Es, Hn in E.
  apply append_inj_l in E. exact E.
Qed.

Lemma last_In {A : Type} (l : list A) (d : A) : l <> [] -> In (last l d) l.
Proof.
  induction l as [|a l IH]; intros H; [congruence|].
  destruct l as [|b l]; [left; reflexivity|].
  right. apply IH. discriminate.
Qed.

Lemma named_parts (p : Pathlib.Path) :
  Pathlib.name p <> EmptyString ->
  Pathlib.parts p = removelast (Pathlib.parts p) ++ [Pathlib.name p] /\
  In (Pathlib.name p) (Pathlib.parts p).
Proof.
  unfold Pathlib.name. intros H.
  assert (N : Pathlib.parts p <> []) by (intros E; rewrite E in H; apply H; reflexivity).
  split; [apply app_removelast_last; exact N | apply last_In; exact N].
Qed.

Lemma append_nonempty (s t : string) : t <> EmptyString -> (s ++ t)%string <> EmptyString.
Proof. destruct s; simpl; [auto | discriminate]. Qed.

Lemma append_not_self (s t : string) : t <> EmptyString -> (s ++ t)%string <> s.
Proof.
  intros H E. apply (f_equal String.length) in E. rewrite string_length_append in E.
  destruct t; [congruence | simpl in E; lia].
Qed.

Lemma suffix_ckpt_inv (p : Pathlib.Path) :
  Pathlib.suffix p = ".ckpt"%string ->
  Pathlib.stem p <> EmptyString /\
  Pathlib.name p = (Pathlib.stem p ++ ".ckpt")%string.
Proof.
  intros Hs. pose proof (stem_suffix p) as E. rewrite Hs in E.
  split; [|symmetry; exact E].
  unfold Pathlib.suffix in Hs. unfold Pathlib.stem.
  destruct ((0 <? _) && _) eqn:C; [|discriminate].
  apply andb_true_iff in C. destruct C as [C1 C2].
  apply Z.ltb_lt in C1. apply Z.ltb_lt in C2.
  intros Z. apply (f_equal String.length) in Z.
  unfold Pathlib.slice_to in Z. rewrite substring_0_length in Z; simpl in Z; lia.
Qed.

Lemma with_name_stem (p : Pathlib.Path) (st : string) :
  Pathlib.parsed p ->
  Pathlib.name p = (st ++ ".ckpt")%string -> st <> EmptyString ->
  Pathlib.with_name p st
  = if String.eqb st "." then Raise ValueError else Ok (sibling p st).
Proof.
  intros Hp Hn Hs. unfold Pathlib.with_name.
  assert (N : Pathlib.name p <> EmptyString)
    by (rewrite Hn; apply append_nonempty; discriminate).
  destruct (String.eqb_spec (Pathlib.name p) EmptyString) as [E|_]; [contradiction|].
  destruct (String.eqb_spec st EmptyString) as [E|_]; [contradiction|].
  assert (S : Pathlib.has_sep st = false).
  { destruct (named_parts p N) as [_ Hin].
    unfold Pathlib.parsed in Hp. rewrite Forall_forall in Hp.
    specialize (Hp _ Hin). rewrite Hn, has_sep_app in Hp.
    apply orb_false_iff in Hp. tauto. }
  rewrite S. simpl. destruct (String.eqb st "."); reflexivity.
Qed.

Lemma sibling_differs (p : Pathlib.Path) (st : string) :
  Pathlib.name p = (st ++ ".ckpt")%string -> sibling p st <> p.
Proof.
  intros Hn E.
  assert (N : Pathlib.name p <> EmptyString)
    by (rewrite Hn; apply append_nonempty; discriminate).
  destruct (named_parts p N) as [Hparts _].
  apply (f_equal Pathlib.parts) in E. unfold sibling in E. simpl in E.
  rewrite Hparts in E at 2. apply app_inv_head in E. inversion E as [E'].
  rewrite Hn in E'. symmetry in E'. revert E'. apply append_not_self. discriminate.
Qed.

(** X15.  [ckpt_to_dir] drops a final ".ckpt" from the last component of a
    parsed path and touches nothing else: for any stem other than the empty
    one and ".", the path whose name is the stem followed by ".ckpt" comes
    back with that name replaced by the stem, under the same root and the
    same parent components, whatever dots the stem or the parents hold. *)
Theorem X15_ckpt_to_dir_strips :
  forall (filepath : Pathlib.Path) (stem : string),
    Pathlib.parsed filepath ->
    Pathlib.name filepath = (stem ++ ".ckpt")%string ->
    stem <> EmptyString -> stem <> "."%string ->
    ckpt_to_dir filepath = Ok (sibling filepath stem).
Proof.
  intros p st Hp Hn Hs Hd. unfold ckpt_to_dir.
  destruct (suffix_stem_of p st Hn Hs) as [Es Et]. rewrite Es, Et. simpl.
  rewrite (with_name_stem p st Hp Hn Hs).
  destruct (String.eqb_spec st "."); [contradiction | reflexivity].
Qed.

Lemma X15_witness :
  ckpt_to_dir ckpt_path
  = Ok (Pathlib.mkPath "/" ["results"; "step=10.ckpt"; "model.v2"]%string).
Proof.
  apply (X15_ckpt_to_dir_strips ckpt_path "model.v2").
  - repeat constructor.
  - reflexivity.
  - discriminate.
  - discriminate.
Defined.

(** X16.  On a parsed path [ckpt_to_dir] returns its argument unchanged
    exactly when the name is not a non-empty stem followed by ".ckpt" (so a
    name that is ".ckpt" alone, or ends in ".ckpt.", or has ".ckpt" only in
    a parent component, is kept), and it raises exactly on the name
    "..ckpt", with the ValueError of [with_name] for the stem ".". *)
Theorem X16_ckpt_to_dir_otherwise :
  forall (filepath : Pathlib.Path),
    Pathlib.parsed filepath ->
    (ckpt_to_dir filepath = Ok filepath <->
     ~ exists stem, stem <> EmptyString /\
                    Pathlib.name filepath = (stem ++ ".ckpt")%string) /\
    (forall e, ckpt_to_dir filepath = Raise e <->
               e = ValueError /\ Pathlib.name filepath = "..ckpt"%string).
Proof.
  intros p Hp. unfold ckpt_to_dir.
  destruct (String.eqb_spec (Pathlib.suffix p) ".ckpt") as [Es|Es].
  - destruct (suffix_ckpt_inv p Es) as [Hs Hn].
    rewrite (with_name_stem p _ Hp Hn Hs).
    destruct (String.eqb_spec (Pathlib.stem p) ".") as [Ed|Ed]; split.
    + split; [discriminate|]. intros H. exfalso. apply H. eauto.
    + intros e. split.
      * intros H. inversion H; subst. split; [reflexivity|].
        rewrite Hn, Ed. reflexivity.
      * intros [-> _]. reflexivity.
    + split.
      * intros H. inversion H as [E]. exfalso. exact (sibling_differs p _ Hn E).
      * intros H. exfalso. apply H. eauto.
    + intros e. split; [discriminate|]. intros [_ H]. exfalso. apply Ed.
      rewrite Hn in H. change "..ckpt"%string with ("." ++ ".ckpt")%string in H.
      apply append_inj_l in H. exact H.
  - split.
    + split; [|reflexivity]. intros _ (st & Hs & Hn).
      apply Es. exact (proj1 (suffix_stem_of p st Hn Hs)).
    + intros e. split; [discriminate|]. intros [_ H]. exfalso. apply Es.
      apply (suffix_stem_of p "."); [exact H | discriminate].
Qed.

Lemma X16_witness :
  (ckpt_to_dir (Pathlib.mkPath "/" ["runs"; ".ckpt"]%string)
   = Ok (Pathlib.mkPath "/" ["runs"; ".ckpt"]%string) <->
   ~ exists stem, stem <> EmptyString /\
                  Pathlib.name (Pathlib.mkPath "/" ["runs"; ".ckpt"]%string)
                  = (stem ++ ".ckpt")%string) /\
  (forall e, ckpt_to_dir (Pathlib.mkPath "/" ["runs"; ".ckpt"]%string) = Raise e <->
             e = ValueError /\
             Pathlib.name (Pathlib.mkPath "/" ["runs"; ".ckpt"]%string) = "..ckpt"%string).
Proof.
  apply (X16_ckpt_to_dir_otherwise (Pathlib.mkPath "/" ["runs"; ".ckpt"]%string)).
  repeat constructor.
Defined.

(** * Further properties: the progress bar *)

Section ProgressBarFacts.

Variable class : Type.
Variable class_eq : class -> class -> bool.
Variable issubclass : class -> class -> bool.
Variable TQDMProgressBar : class.
Variable MegatronProgressBar : class.
Variable layout_compatible : class -> class -> bool.

Lemma scan_callbacks_flags (callbacks : list (Callback class)) :
  forall a b,
    scan_callbacks class_eq issubclass TQDMProgressBar MegatronProgressBar
      callbacks (a, b)
    = (a || has_megatron issubclass MegatronProgressBar callbacks,
       b || has_plain class_eq TQDMProgressBar callbacks).
Proof.
  induction callbacks as [|c l IH]; intros a b; simpl.
  - rewrite !orb_false_r. reflexivity.
  - rewrite IH.
    destruct (isinstance issubclass c MegatronProgressBar),
             (class_eq (class_of c) TQDMProgressBar), a, b; reflexivity.
Qed.

Lemma fix_progress_bar_flags (callbacks : list (Callback class)) :
  fix_progress_bar class_eq issubclass TQDMProgressBar MegatronProgressBar callbacks
  = if negb (has_megatron issubclass MegatronProgressBar callbacks)
       && has_plain class_eq TQDMProgressBar callbacks
    then convert_first issubclass TQDMProgressBar MegatronProgressBar callbacks
    else callbacks.
Proof.
  unfold fix_progress_bar. rewrite scan_callbacks_flags. reflexivity.
Qed.

Lemma convert_first_at (pre : list (Callback class)) (c : Callback class)
      (post : list (Callback class)) :
  Forall (fun x => isinstance issubclass x TQDMProgressBar = false) pre ->
  isinstance issubclass c TQDMProgressBar = true ->
  convert_first issubclass TQDMProgressBar MegatronProgressBar (pre ++ c :: post)
  = pre ++ set_class c MegatronProgressBar :: post.
Proof.
  intros Hpre Hc. induction Hpre as [|x pre Hx _ IH]; simpl.
  - rewrite Hc. reflexivity.
  - rewrite Hx, IH. reflexivity.
Qed.

Lemma convert_first_cases (callbacks : list (Callback class)) :
  convert_first issubclass TQDMProgressBar MegatronProgressBar callbacks = callbacks \/
  exists pre c post, first_bar issubclass TQDMProgressBar callbacks pre c post.
Proof.
  induction callbacks as [|x l IH]; simpl; [left; reflexivity|].
  destruct (isinstance issubclass x TQDMProgressBar) eqn:Hx.
  - right. exists [], x, l. repeat split; [constructor | exact Hx].
  - destruct IH as [E | (pre & c & post & E & Hpre & Hc)].
    + left. rewrite E. reflexivity.
    + right. exists (x :: pre), c, post. subst l.
      repeat split; [constructor; assumption | exact Hc].
Qed.

Lemma has_megatron_converted (pre : list (Callback class)) (c : Callback class)
      (post : list (Callback class)) :
  issubclass MegatronProgressBar MegatronProgressBar = true ->
  has_megatron issubclass MegatronProgressBar
    (pre ++ set_class c MegatronProgressBar :: post) = true.
Proof.
  intros H. unfold has_megatron. rewrite existsb_app. simpl.
  unfold isinstance at 2. simpl. rewrite H. apply orb_true_r.
Qed.

(** X17.  Whenever [fix_progress_bar] changes the callback list, no callback
    was an instance of [MegatronProgressBar], some callback had exactly the
    class [TQDMProgressBar], and the change is one class assignment: the
    first callback that is an instance of [TQDMProgressBar] now has the
    class [MegatronProgressBar], with its state kept, and every other
    callback, before and after it, is as it was, in the same order. *)
Theorem X17_progress_bar_change :
  forall (callbacks : list (Callback class)),
    fix_progress_bar class_eq issubclass TQDMProgressBar MegatronProgressBar callbacks
    <> callbacks ->
    has_megatron issubclass MegatronProgressBar callbacks = false /\
    has_plain class_eq TQDMProgressBar callbacks = true /\
    exists pre c post,
      first_bar issubclass TQDMProgressBar callbacks pre c post /\
      fix_progress_bar class_eq issubclass TQDMProgressBar MegatronProgressBar callbacks
      = pre ++ set_class c MegatronProgressBar :: post.
Proof.
  intros callbacks H. rewrite fix_progress_bar_flags in *.
  destruct (has_megatron issubclass MegatronProgressBar callbacks);
    simpl in *; [congruence|].
  destruct (has_plain class_eq TQDMProgressBar callbacks); simpl in *; [|congruence].
  split; [reflexivity|]. split; [reflexivity|].
  destruct (convert_first_cases callbacks) as [E | (pre & c & post & F)];
    [congruence|].
  exists pre, c, post. split; [exact F|].
  destruct F as (E & Hpre & Hc). rewrite E. apply convert_first_at; assumption.
Qed.

Lemma convert_first_or_raise_at (pre : list (Callback class)) (c : Callback class)
      (post : list (Callback class)) :
  Forall (fun x => isinstance issubclass x TQDMProgressBar = false) pre ->
  isinstance issubclass c TQDMProgressBar = true ->
  convert_first_or_raise issubclass TQDMProgressBar MegatronProgressBar
    layout_compatible (pre ++ c :: post)
  = (c' <- assign_class layout_compatible c MegatronProgressBar ;;
     Ok (pre ++ c' :: post)).
Proof.
  intros Hpre Hc. induction Hpre as [|x pre Hx _ IH]; simpl.
  - rewrite Hc. reflexivity.
  - rewrite Hx, IH.
    destruct (assign_class layout_compatible c MegatronProgressBar); reflexivity.
Qed.

Lemma convert_first_or_raise_Ok (callbacks : list (Callback class)) :
  forall out,
    convert_first_or_raise issubclass TQDMProgressBar MegatronProgressBar
      layout_compatible callbacks = Ok out ->
    out = convert_first issubclass TQDMProgressBar MegatronProgressBar callbacks.
Proof.
  induction callbacks as [|x l IH]; intros out H; simpl in *.
  - inversion H; reflexivity.
  - destruct (isinstance issubclass x TQDMProgressBar).
    + unfold assign_class in H.
      destruct (layout_compatible (class_of x) MegatronProgressBar); simpl in H;
        [inversion H; reflexivity | discriminate].
    + bind_as H rest' Hr. inversion H; subst. rewrite (IH _ Hr). reflexivity.
Qed.

Lemma fix_progress_bar_or_raise_Ok (callbacks out : list (Callback class)) :
  fix_progress_bar_or_raise class_eq issubclass TQDMProgressBar MegatronProgressBar
    layout_compatible callbacks = Ok out ->
  out = fix_progress_bar class_eq issubclass TQDMProgressBar MegatronProgressBar
          callbacks.
Proof.
  unfold fix_progress_bar_or_raise, fix_progress_bar.
  destruct (negb _ && _); intros H.
  - apply convert_first_or_raise_Ok. exact H.
  - inversion H; reflexivity.
Qed.

(** X18.  When no callback is an instance of [MegatronProgressBar] and some
    callback has exactly the class [TQDMProgressBar], the callback whose
    class [fix_progress_bar] assigns is the first instance of
    [TQDMProgressBar] in the list, whether or not it is the plain bar that
    raised the flag.  When Python accepts the assignment (the object
    layouts of its class and of [MegatronProgressBar] agree), that
    callback becomes a [MegatronProgressBar] and every other callback,
    the plain bar after it too, stays; when Python refuses it, the call
    raises [TypeError]. *)
Theorem X18_first_bar_converted :
  forall (callbacks pre : list (Callback class)) (c : Callback class)
         (post : list (Callback class)),
    first_bar issubclass TQDMProgressBar callbacks pre c post ->
    has_megatron issubclass MegatronProgressBar callbacks = false ->
    has_plain class_eq TQDMProgressBar callbacks = true ->
    fix_progress_bar_or_raise class_eq issubclass TQDMProgressBar MegatronProgressBar
      layout_compatible callbacks
    = if layout_compatible (class_of c) MegatronProgressBar
      then Ok (pre ++ set_class c MegatronProgressBar :: post)
      else Raise TypeError.
Proof.
  intros callbacks pre c post (E & Hpre & Hc) Hm Hp.
  unfold fix_progress_bar_or_raise. rewrite scan_callbacks_flags, Hm, Hp. simpl.
  rewrite E, (convert_first_or_raise_at pre c post Hpre Hc).
  unfold assign_class. destruct (layout_compatible (class_of c) MegatronProgressBar);
    reflexivity.
Qed.

(** X19.  [fix_progress_bar] is idempotent: as an object of class
    [MegatronProgressBar] is an instance of [MegatronProgressBar], a second
    call finds the converted bar and changes nothing more. *)
Theorem X19_progress_bar_idempotent :
  forall (callbacks : list (Callback class)),
    issubclass MegatronProgressBar MegatronProgressBar = true ->
    fix_progress_bar class_eq issubclass TQDMProgressBar MegatronProgressBar
      (fix_progress_bar class_eq issubclass TQDMProgressBar MegatronProgressBar
         callbacks)
    = fix_progress_bar class_eq issubclass TQDMProgressBar MegatronProgressBar
        callbacks.
Proof.
  intros callbacks Hrefl.
  rewrite (fix_progress_bar_flags callbacks).
  destruct (negb (has_megatron issubclass MegatronProgressBar callbacks)
            && has_plain class_eq TQDMProgressBar callbacks) eqn:C.
  - destruct (convert_first_cases callbacks) as [E | (pre & c & post & E & Hpre & Hc)].
    + rewrite E, fix_progress_bar_flags, C. exact E.
    + rewrite E, (convert_first_at pre c post Hpre Hc).
      rewrite fix_progress_bar_flags, (has_megatron_converted pre c post Hrefl).
      reflexivity.
  - rewrite fix_progress_bar_flags, C. reflexivity.
Qed.

End ProgressBarFacts.

Lemma X17_witness :
  sample_fix_progress_bar sample_callbacks <> sample_callbacks /\
  exists pre c post,
    first_bar sample_issubclass TQDMBar sample_callbacks pre c post /\
    sample_fix_progress_bar sample_callbacks = pre ++ set_class c MegatronBar :: post.
Proof.
  assert (H : sample_fix_progress_bar sample_callbacks <> sample_callbacks)
    by (vm_compute; discriminate).
  split; [exact H|].
  exact (proj2 (proj2 (X17_progress_bar_change sample_class sample_class_eq
                         sample_issubclass TQDMBar MegatronBar sample_callbacks H))).
Defined.

Lemma X18_witness :
  fix_progress_bar_or_raise sample_class_eq sample_issubclass TQDMBar MegatronBar
    sample_layout_compatible sample_callbacks
  = Raise TypeError /\
  fix_progress_bar_or_raise sample_class_eq sample_issubclass TQDMBar MegatronBar
    sample_layout_compatible [mkCallback Checkpointer 0; mkCallback TQDMBar 2]
  = Ok [mkCallback Checkpointer 0; mkCallback MegatronBar 2].
Proof.
  split.
  - apply (X18_first_bar_converted sample_class sample_class_eq sample_issubclass
             TQDMBar MegatronBar sample_layout_compatible sample_callbacks
             [mkCallback Checkpointer 0] (mkCallback CustomBar 1)
             [mkCallback TQDMBar 2]).
    + repeat split. repeat constructor.
    + reflexivity.
    + reflexivity.
  - apply (X18_first_bar_converted sample_class sample_class_eq sample_issubclass
             TQDMBar MegatronBar sample_layout_compatible
             [mkCallback Checkpointer 0; mkCallback TQDMBar 2]
             [mkCallback Checkpointer 0] (mkCallback TQDMBar 2) []).
    + repeat split. repeat constructor.
    + reflexivity.
    + reflexivity.
Defined.

Lemma X19_witness :
  sample_fix_progress_bar (sample_fix_progress_bar sample_callbacks)
  = sample_fix_progress_bar sample_callbacks.
Proof.
  apply (X19_progress_bar_idempotent sample_class sample_class_eq sample_issubclass
           TQDMBar MegatronBar sample_callbacks).
  reflexivity.
Defined.
